(** * vib-OS media asset pipeline

    A shallow embedding of the Python scripts under [kernel/media] and the
    properties their specification states about them:
    - [generate_image_assets.py]  is module [Embedder],
    - [create_baseline_jpegs.py]  is module [Generator] (and
      [save_baseline_jpeg] in module [Normalizer]),
    - [convert_to_baseline.py]    is module [Normalizer].
    [create_simple_jpegs.py], the raw PPM dump, has no property stated about
    it and is not modelled.

    Python [int] is [Z] ([nat] for a length), [bytes] is [list byte], and a
    [str] is a Rocq [string] read as the bytes of its UTF-8 encoding, which
    is also what a text file holds.  A Python [float] is a binary64 value of
    [SpecFloat]. *)

From Stdlib Require Import ZArith Ascii String Strings.Byte.
From Stdlib Require Import DecimalString DecimalNat.
From Stdlib Require Import Floats.SpecFloat.
From stdpp Require Import gmap strings list fin_maps.

Local Open Scope Z_scope.

(** ** Python exceptions *)

Inductive exn :=
  | FileNotFoundError
  | ValueError
  | ZeroDivisionError
  | OverflowError
  | IndexError
  | LibraryError (tag : string).

Inductive result (A : Type) :=
  | Ok (a : A)
  | Raise (e : exn).
Arguments Ok {A} a.
Arguments Raise {A} e.

Definition rbind {A B} (r : result A) (k : A -> result B) : result B :=
  match r with
  | Ok a => k a
  | Raise e => Raise e
  end.

Notation "x <~ r ;; k" := (rbind r (fun x => k))
  (at level 100, r at next level, right associativity).

(** [for a in l: s = body(a, s)], stopping at the first exception. *)
Fixpoint for_each {A S} (l : list A) (body : A -> S -> result S) (s : S)
  : result S :=
  match l with
  | [] => Ok s
  | a :: l' => s' <~ body a s ;; for_each l' body s'
  end.

(** [range(n)] *)
Definition range (n : Z) : list Z := seqZ 0 n.

Definition NL : string := String "010"%char "".

(** ** Scripts: code that reads and writes files and prints

    The store is a flat map from path strings to the contents of regular
    files; [stdout] holds the lines printed so far.  A script step returns the
    store it leaves behind together with its value or the exception raised. *)

Record world := World {
  files : gmap string (list byte);
  stdout : list string
}.

Definition script (A : Type) : Type := world -> world * result A.

Definition ret {A} (a : A) : script A := fun w => (w, Ok a).

Definition bind {A B} (m : script A) (k : A -> script B) : script B :=
  fun w =>
    match m w with
    | (w', Ok a) => k a w'
    | (w', Raise e) => (w', Raise e)
    end.

Declare Scope script_scope.
Delimit Scope script_scope with script.
Notation "x <- m ; k" := (bind m (fun x => k))
  (at level 100, m at next level, right associativity) : script_scope.
Notation "m ;; k" := (bind m (fun _ => k))
  (at level 100, right associativity) : script_scope.

(** [print(line)] *)
Definition print (line : string) : script unit :=
  fun w => (World (files w) (stdout w ++ [line]), Ok tt).

(** [os.path.exists(p)] *)
Definition path_exists (p : string) : script bool :=
  fun w => (w, Ok (bool_decide (is_Some (files w !! p)))).

(** [open(p, 'rb').read()] *)
Definition read_file (p : string) : script (list byte) :=
  fun w =>
    match files w !! p with
    | Some data => (w, Ok data)
    | None => (w, Raise FileNotFoundError)
    end.

(** Writing [content] to [p], replacing what was there. *)
Definition write_file (p : string) (content : list byte) : script unit :=
  fun w => (World (<[p := content]> (files w)) (stdout w), Ok tt).

(** [for a in l: body(a)] *)
Fixpoint for_in {A} (l : list A) (body : A -> script unit) : script unit :=
  match l with
  | [] => ret tt
  | a :: l' => (body a ;; for_in l' body)%script
  end.

(** [str(n)] for a length or a size. *)
Definition str_of_nat (n : nat) : string :=
  NilEmpty.string_of_uint (Nat.to_uint n).

(** ** [os.path] (posixpath) *)

Module OsPath.

Definition starts_with_slash (s : string) : bool :=
  match s with
  | String c _ => bool_decide (c = "/"%char)
  | EmptyString => false
  end.

Fixpoint ends_with_slash (s : string) : bool :=
  match s with
  | EmptyString => false
  | String c EmptyString => bool_decide (c = "/"%char)
  | String _ s' => ends_with_slash s'
  end.

(** [os.path.join(a, b)] *)
Definition join (a b : string) : string :=
  if starts_with_slash b then b
  else if bool_decide (a = "") || ends_with_slash a then a +:+ b
  else a +:+ "/" +:+ b.

(** [p[p.rfind('/') + 1:]]: [tail] is what follows the last slash seen. *)
Fixpoint after_last_slash (tail p : string) : string :=
  match p with
  | EmptyString => tail
  | String c p' =>
      if bool_decide (c = "/"%char) then after_last_slash p' p'
      else after_last_slash tail p'
  end.

(** [os.path.basename(p)] *)
Definition basename (p : string) : string := after_last_slash p p.

End OsPath.

(** ** generate_image_assets.py *)

Module Embedder.

Definition hex_digit (n : N) : ascii :=
  match n with
  | 0 => "0" | 1 => "1" | 2 => "2" | 3 => "3" | 4 => "4" | 5 => "5"
  | 6 => "6" | 7 => "7" | 8 => "8" | 9 => "9" | 10 => "a" | 11 => "b"
  | 12 => "c" | 13 => "d" | 14 => "e" | _ => "f"
  end%N%char.

(** [f'0x{b:02x}'] for one element of a [bytes] object. *)
Definition format_byte (b : byte) : string :=
  let n := Byte.to_N b in
  String "0" (String "x"
    (String (hex_digit (n / 16)) (String (hex_digit (n mod 16)) ""))).

(** [range(0, stop, step)] *)
Definition range_step (stop step : nat) : list nat :=
  (fun k => (k * step)%nat) <$> seq 0 (Nat.div (stop + step - 1) step).

(** [data[i:j]] for [0 <= i <= j] *)
Definition slice (data : list byte) (i j : nat) : list byte :=
  take (j - i) (drop i data).

(** One [f.write] of the row loop. *)
Definition row_text (chunk : list byte) : string :=
  "    " +:+ String.concat ", " (format_byte <$> chunk) +:+ "," +:+ NL.

Definition rows_text (data : list byte) : list string :=
  (fun i => row_text (slice data i (i + 16)))
    <$> range_step (length data) 16.

Definition comment_line (base : string) : string :=
  "/* Auto-generated from " +:+ base +:+ " */" +:+ NL.

Definition array_open (var_name : string) : string :=
  "const unsigned char " +:+ var_name +:+ "[] = {" +:+ NL.

Definition array_close : string := "};" +:+ NL +:+ NL.

Definition len_line (var_name : string) (n : nat) : string :=
  "const unsigned int " +:+ var_name +:+ "_len = " +:+ str_of_nat n
    +:+ ";" +:+ NL.

(** The [f.write] calls on the output file, in order. *)
Definition header_writes (base var_name : string) (data : list byte)
  : list string :=
  [comment_line base; array_open var_name]
    ++ rows_text data
    ++ [array_close; len_line var_name (length data)].

(** What a file holds after the writes [ws]. *)
Fixpoint written (ws : list string) : string :=
  match ws with
  | [] => ""
  | s :: ws' => s +:+ written ws'
  end.

Definition header_text (base var_name : string) (data : list byte) : string :=
  written (header_writes base var_name data).

(** [f"Generated {output_file} ({len(data)} bytes)"] *)
Definition generated_line (output_file : string) (data : list byte) : string :=
  "Generated " +:+ output_file +:+ " ("
    +:+ str_of_nat (length data) +:+ " bytes)".

Definition generate_header (input_file output_file var_name : string)
  : script unit :=
  (data <- read_file input_file ;
   write_file output_file
     (String.list_byte_of_string
        (header_text (OsPath.basename input_file) var_name data)) ;;
   print (generated_line output_file data))%script.

Definition images_dir : string := "kernel/media/bootstrap_images".
Definition output_dir : string := "kernel/media".

Definition images : list (string * string) :=
  [ ("landscape.jpg", "bootstrap_landscape_jpg");
    ("portrait.jpg", "bootstrap_portrait_jpg");
    ("square.jpg", "bootstrap_square_jpg");
    ("wallpaper.jpg", "bootstrap_wallpaper_jpg");
    ("nature.jpg", "bootstrap_nature_jpg");
    ("city.jpg", "bootstrap_city_jpg");
    ("httpbin.jpg", "bootstrap_httpbin_jpg") ].

Definition input_path (img_file : string) : string :=
  OsPath.join images_dir img_file.

Definition output_path (var_name : string) : string :=
  OsPath.join output_dir (var_name +:+ ".c").

(** [f"Warning: {input_path} not found"] *)
Definition warning_line (img_file : string) : string :=
  "Warning: " +:+ input_path img_file +:+ " not found".

(** The body of the loop of [main]. *)
Definition embed_one (asset : string * string) : script unit :=
  let '(img_file, var_name) := asset in
  (present <- path_exists (input_path img_file) ;
   if present
   then generate_header (input_path img_file) (output_path var_name) var_name
   else print (warning_line img_file))%script.

(** The declaration file [main] writes for an asset with content [data]. *)
Definition declaration (img_file var_name : string) (data : list byte)
  : list byte :=
  String.list_byte_of_string
    (header_text (OsPath.basename (input_path img_file)) var_name data).

(** The loop of [main] over a batch of (file, name) pairs. *)
Definition embed_batch (batch : list (string * string)) : script unit :=
  for_in batch embed_one.

Definition main : script unit := embed_batch images.

(** *** Reading a declaration back

    The array initialiser as a C compiler reads it: items [0xhh] followed
    by a comma, separated by blanks and line ends. *)

Definition hex_val (c : ascii) : option N :=
  let n := N_of_ascii c in
  if ((48 <=? n) && (n <=? 57))%N then Some (n - 48)%N
  else if ((97 <=? n) && (n <=? 102))%N then Some (n - 87)%N
  else None.

Inductive reader_state :=
  | Between
  | SeenZero
  | SeenX
  | SeenHigh (h : N)
  | SeenByte (b : byte).

Fixpoint read_array_from (st : reader_state) (s : string)
  : option (list byte) :=
  match s with
  | EmptyString => match st with Between => Some [] | _ => None end
  | String c s' =>
      match st with
      | Between =>
          if bool_decide (c = " "%char) || bool_decide (c = "010"%char)
          then read_array_from Between s'
          else if bool_decide (c = "0"%char) then read_array_from SeenZero s'
          else None
      | SeenZero =>
          if bool_decide (c = "x"%char) then read_array_from SeenX s' else None
      | SeenX =>
          match hex_val c with
          | Some h => read_array_from (SeenHigh h) s'
          | None => None
          end
      | SeenHigh h =>
          match hex_val c with
          | Some l =>
              match Byte.of_N (16 * h + l) with
              | Some b => read_array_from (SeenByte b) s'
              | None => None
              end
          | None => None
          end
      | SeenByte b =>
          if bool_decide (c = ","%char)
          then cons b <$> read_array_from Between s'
          else None
      end
  end.

Definition read_array_body (s : string) : option (list byte) :=
  read_array_from Between s.

Fixpoint strip_prefix (p s : string) : option string :=
  match p with
  | EmptyString => Some s
  | String c p' =>
      match s with
      | String d s' => if bool_decide (c = d) then strip_prefix p' s' else None
      | EmptyString => None
      end
  end.

Fixpoint until_semicolon (s : string) : option (string * string) :=
  match s with
  | EmptyString => None
  | String c s' =>
      if bool_decide (c = ";"%char) then Some (EmptyString, s')
      else match until_semicolon s' with
           | Some (lit, tail) => Some (String c lit, tail)
           | None => None
           end
  end.

(** The value of the constant [<var_name>_len] declared by [line]. *)
Definition read_len_line (var_name line : string) : option nat :=
  match strip_prefix ("const unsigned int " +:+ var_name +:+ "_len = ") line
  with
  | Some rest =>
      match until_semicolon rest with
      | Some (lit, tail) =>
          if bool_decide (tail = NL)
          then Nat.of_uint <$> NilEmpty.uint_of_string lit
          else None
      | None => None
      end
  | None => None
  end.

End Embedder.

(** ** Python floats (binary64) *)

Module PyFloat.

Definition prec : Z := 53.
Definition emax : Z := 1024.

Abbreviation float := spec_float.

(** An [int] as a (not necessarily normalised) float operand. *)
Definition exact_int (n : Z) : float :=
  match n with
  | Z0 => S754_zero false
  | Zpos p => S754_finite false p 0
  | Zneg p => S754_finite true p 0
  end.

(** The conversion of an [int] operand mixed with a [float]: the nearest
    float, ties to even; [OverflowError] when it is out of range. *)
Definition of_int (n : Z) : result float :=
  match binary_normalize prec emax n 0 false with
  | S754_infinity _ => Raise OverflowError
  | f => Ok f
  end.

(** [a / b] on two [int]s: the correctly rounded quotient, which is the
    division of the two integers taken as exact operands. *)
Definition true_divide (a b : Z) : result float :=
  if bool_decide (b = 0) then Raise ZeroDivisionError
  else match SFdiv prec emax (exact_int a) (exact_int b) with
       | S754_infinity _ => Raise OverflowError
       | f => Ok f
       end.

Definition mul (a b : float) : float := SFmul prec emax a b.
Definition add (a b : float) : float := SFadd prec emax a b.

(** [int(f)]: truncation towards zero. *)
Definition to_int (f : float) : result Z :=
  match f with
  | S754_nan => Raise ValueError
  | S754_infinity _ => Raise OverflowError
  | S754_zero _ => Ok 0
  | S754_finite s m e => Ok (cond_Zopp s (Z.shiftl (Zpos m) e))
  end.

(** *** Bounds on floats, as integer inequalities

    [m * 2^e <= N] for a finite float of non-positive exponent; a zero is
    below everything. *)
Definition below (N : Z) (f : float) : Prop :=
  match f with
  | S754_zero _ => True
  | S754_finite _ m e => e <= 0 /\ Zpos m <= N * 2 ^ (- e)
  | _ => False
  end.

(** The float is exactly the integer [n]. *)
Definition is_int (n : Z) (f : float) : Prop :=
  match f with
  | S754_zero s => n = 0 /\ s = false
  | S754_finite s m e =>
      e <= 0 /\ Zpos m = Z.abs n * 2 ^ (- e) /\ s = bool_decide (n < 0)
  | _ => False
  end.

Definition is_intb (n : Z) (r : result float) : bool :=
  match r with
  | Ok (S754_zero s) => bool_decide (n = 0) && negb s
  | Ok (S754_finite s m e) =>
      bool_decide (e <= 0) && bool_decide (Zpos m = Z.abs n * 2 ^ (- e))
        && bool_decide (s = bool_decide (n < 0))
  | _ => false
  end.

(** A float between 0 and 1. *)
Definition is_ratio (f : float) : Prop :=
  f = S754_zero false
  \/ exists m e, f = S754_finite false m e /\ below 1 f.

(** A float of magnitude at most [N] whose sign, unless it is a zero, is
    [s]. *)
Definition within (s : bool) (N : Z) (f : float) : Prop :=
  (exists s0, f = S754_zero s0)
  \/ exists m e, f = S754_finite s m e /\ below N f.

End PyFloat.

(** ** create_baseline_jpegs.py: the synthetic images *)

Module Generator.

Abbreviation rgb := (Z * Z * Z)%type.

(** An image of mode RGB and the cells assigned through its pixel access
    object; a cell never assigned is black.  A cell holds the tuple as it
    was assigned.  The library stores each channel narrowed to 0..255 and
    refuses with [OverflowError] a channel that is not a C int; neither is
    modelled, so a property that says which colour a pixel has, or that an
    image is returned, is stated for colours with channels in 0..255,
    which the library stores as they are. *)
Record image := Image {
  im_width : Z;
  im_height : Z;
  im_pixels : gmap (Z * Z) rgb
}.

(** [Image.new('RGB', (width, height))]: the library refuses a negative
    side with [ValueError].  It also refuses a side that is not a C int
    ([OverflowError]) and an image too large for it ([MemoryError]); the
    model has no such limit, and a property that says which dimensions
    fail is stated for sides up to [max_side]. *)
Definition Image_new (width height : Z) : result image :=
  if bool_decide (width < 0 \/ height < 0) then Raise ValueError
  else Ok (Image width height ∅).

(** The largest side of a JPEG image. *)
Definition max_side : Z := 65535.

Definition in_image (img : image) (x y : Z) : Prop :=
  0 <= x < im_width img /\ 0 <= y < im_height img.

(** [pixels[x, y] = c] *)
Definition putpixel (x y : Z) (c : rgb) (img : image) : result image :=
  if bool_decide (in_image img x y)
  then Ok (Image (im_width img) (im_height img)
             (<[(x, y) := c]> (im_pixels img)))
  else Raise IndexError.

(** [pixels[x, y]] *)
Definition getpixel (img : image) (x y : Z) : result rgb :=
  if bool_decide (in_image img x y)
  then Ok (default (0, 0, 0) (im_pixels img !! (x, y)))
  else Raise IndexError.

(** [int(c1 + (c2 - c1) * ratio)] *)
Definition lerp_channel (c1 c2 : Z) (ratio : PyFloat.float) : result Z :=
  d <~ PyFloat.of_int (c2 - c1) ;;
  a <~ PyFloat.of_int c1 ;;
  PyFloat.to_int (PyFloat.add a (PyFloat.mul d ratio)).

Definition gradient_ratio (width height : Z) (direction : string) (x y : Z)
  : result PyFloat.float :=
  if bool_decide (direction = "horizontal")
  then PyFloat.true_divide x width
  else PyFloat.true_divide y height.

Definition gradient_pixel (width height : Z) (color1 color2 : rgb)
  (direction : string) (x y : Z) : result rgb :=
  let '(r1, g1, b1) := color1 in
  let '(r2, g2, b2) := color2 in
  ratio <~ gradient_ratio width height direction x y ;;
  r <~ lerp_channel r1 r2 ratio ;;
  g <~ lerp_channel g1 g2 ratio ;;
  b <~ lerp_channel b1 b2 ratio ;;
  Ok (r, g, b).

Definition create_gradient_image (width height : Z) (color1 color2 : rgb)
  (direction : string) : result image :=
  img <~ Image_new width height ;;
  for_each (range height) (fun y =>
    for_each (range width) (fun x img =>
      c <~ gradient_pixel width height color1 color2 direction x y ;;
      putpixel x y c img)) img.

(** [a % b] *)
Definition py_mod (a b : Z) : result Z :=
  if bool_decide (b = 0) then Raise ZeroDivisionError else Ok (a mod b).

(** [l[i]], a negative [i] counting from the end. *)
Definition py_getitem {A} (l : list A) (i : Z) : result A :=
  let n := Z.of_nat (length l) in
  let j := if bool_decide (i < 0) then i + n else i in
  if bool_decide (0 <= j < n)
  then match l !! Z.to_nat j with
       | Some a => Ok a
       | None => Raise IndexError
       end
  else Raise IndexError.

(** [((x // 40) + (y // 40)) % len(colors)] *)
Definition pattern_index (colors : list rgb) (x y : Z) : result Z :=
  py_mod (x / 40 + y / 40) (Z.of_nat (length colors)).

Definition pattern_pixel (colors : list rgb) (x y : Z) : result rgb :=
  idx <~ pattern_index colors x y ;;
  py_getitem colors idx.

Definition create_pattern_image (width height : Z) (colors : list rgb)
  : result image :=
  img <~ Image_new width height ;;
  for_each (range height) (fun y =>
    for_each (range width) (fun x img =>
      c <~ pattern_pixel colors x y ;;
      putpixel x y c img)) img.

(** A colour whose channels are byte values. *)
Definition byte_channels (c : rgb) : Prop :=
  let '(r, g, b) := c in
  0 <= r <= 255 /\ 0 <= g <= 255 /\ 0 <= b <= 255.

(** The colours of [square.jpg]. *)
Definition colors : list rgb :=
  [(70, 130, 180); (255, 165, 0); (50, 205, 50); (220, 20, 60)].

End Generator.

(** ** convert_to_baseline.py and [save_baseline_jpeg] *)

Module Normalizer.

(** The keyword arguments of [img.save(path, 'JPEG', ...)]; an argument
    that is not passed is [None]. *)
Record save_kwargs := SaveKwargs {
  kw_quality : Z;
  kw_optimize : bool;
  kw_progressive : bool;
  kw_subsampling : option Z;
  kw_exif : option (list byte)
}.

(** The operations of the imaging library that the scripts call. The
    library is not part of the repository: the scripts are modelled over
    any implementation of it. *)
Record imaging := Imaging {
  pil_image : Type;
  (** [Image.open] on a file with the given content *)
  Image_open : list byte -> result pil_image;
  (** [img.mode] *)
  Image_mode : pil_image -> string;
  (** [img.convert(mode)] *)
  Image_convert : pil_image -> string -> result pil_image;
  (** the bytes [img.save(path, 'JPEG', **kwargs)] encodes *)
  Image_save_jpeg : pil_image -> save_kwargs -> result (list byte);
  (** when that call raises: the bytes it had written to the file by
      then, [None] when it failed before it opened the file *)
  Image_save_failed : pil_image -> save_kwargs -> option (list byte)
}.

Definition lift {A} (r : result A) : script A := fun w => (w, r).

Section Scripts.
Context (lib : imaging).

(** [if img.mode != 'RGB': img = img.convert('RGB')] *)
Definition to_rgb (img : pil_image lib) : result (pil_image lib) :=
  if bool_decide (Image_mode lib img = "RGB") then Ok img
  else Image_convert lib img "RGB".

Definition images_dir : string := "bootstrap_images".

Definition images : list string :=
  ["landscape.jpg"; "portrait.jpg"; "square.jpg"; "wallpaper.jpg"].

(** [quality=85, optimize=False, progressive=False, exif=b''] *)
Definition convert_kwargs : save_kwargs :=
  SaveKwargs 85 false false None (Some []).

Definition image_path (img_name : string) : string :=
  OsPath.join images_dir img_name.

(** [img.save(path, 'JPEG', **kwargs)]: the encoded bytes replace the
    file.  When the library raises, the file holds what the library had
    written by then, or is as before when the library had not opened
    it. *)
Definition save_jpeg (img : pil_image lib) (path : string) (k : save_kwargs)
  : script unit :=
  fun w =>
    match Image_save_jpeg lib img k with
    | Ok out => (World (<[path := out]> (files w)) (stdout w), Ok tt)
    | Raise e =>
        (World (match Image_save_failed lib img k with
                | Some partial => <[path := partial]> (files w)
                | None => files w
                end) (stdout w),
         Raise e)
    end.

(** The body of the conversion loop. An exception of the library is not
    caught. *)
Definition convert_one (img_name : string) : script unit :=
  (present <- path_exists (image_path img_name) ;
   if negb present
   then print ("Warning: " +:+ image_path img_name +:+ " not found")
   else
     print ("Converting " +:+ img_name +:+ "...") ;;
     data <- read_file (image_path img_name) ;
     img <- lift (Image_open lib data) ;
     img <- lift (to_rgb img) ;
     save_jpeg img (image_path img_name) convert_kwargs ;;
     print ("  ✓ Converted " +:+ img_name +:+ " to baseline JPEG"))%script.

Definition convert_batch (batch : list string) : script unit :=
  (for_in batch convert_one ;;
   print (NL +:+ "All images converted successfully!"))%script.

Definition convert_to_baseline : script unit := convert_batch images.

(** [quality=80, optimize=False, progressive=False, subsampling=0] *)
Definition save_baseline_kwargs : save_kwargs :=
  SaveKwargs 80 false false (Some 0) None.

(** [save_baseline_jpeg(img, filename)] of create_baseline_jpegs.py *)
Definition save_baseline_jpeg (img : pil_image lib) (filename : string)
  : script unit :=
  (img <- lift (to_rgb img) ;
   save_jpeg img filename save_baseline_kwargs ;;
   size <- read_file filename ;
   print ("Created " +:+ filename +:+ " (" +:+ str_of_nat (length size)
            +:+ " bytes)"))%script.

End Scripts.

(** The chroma modes of the conformance profile, and the mode a [save]
    call asks the encoder for: [subsampling=0] is 4:4:4, [subsampling=2]
    is 4:2:0, and without the argument the choice is left to the
    encoder. *)
Inductive chroma_mode := Chroma444 | Chroma420.

Definition requested_chroma (k : save_kwargs) : option chroma_mode :=
  match kw_subsampling k with
  | Some 0 => Some Chroma444
  | Some 2 => Some Chroma420
  | _ => None
  end.

(** A small implementation of the library interface, to run the scripts on
    examples: an image is its bytes, a file with no bytes cannot be opened,
    a first byte [P] marks palette mode and such an image converts only when
    more bytes follow, and the encoder frames the bytes by SOI and EOI. *)
Definition example_imaging : imaging :=
  Imaging (list byte)
    (fun data =>
       match data with
       | [] => Raise (LibraryError "cannot identify image file")
       | _ => Ok data
       end)
    (fun img =>
       match img with
       | b :: _ => if Byte.eqb b "P"%byte then "P" else "RGB"
       | [] => "RGB"
       end)
    (fun img _ =>
       match img with
       | _ :: b :: rest => Ok (b :: rest)
       | _ => Raise ValueError
       end)
    (fun img _ => Ok ([xff; xd8] ++ img ++ [xff; xd9])%byte)
    (fun _ _ => None).

(** An implementation whose encoder does exactly what it is asked and
    shows it: the first byte of its output is the chroma mode it used,
    which is the requested one, and the mode [d] when the call names
    none.  It opens every file as an RGB image. *)
Definition chroma_tag (m : chroma_mode) : byte :=
  match m with
  | Chroma444 => x00
  | Chroma420 => x02
  end.

Definition honouring_imaging (d : chroma_mode) : imaging :=
  Imaging (list byte)
    (fun data => Ok data)
    (fun _ => "RGB")
    (fun img _ => Ok img)
    (fun img k => Ok (chroma_tag (default d (requested_chroma k)) :: img))
    (fun _ _ => None).

(** The chroma mode of a stream of that encoder. *)
Definition stream_chroma (out : list byte) : option chroma_mode :=
  match out with
  | b :: _ =>
      if Byte.eqb b x00 then Some Chroma444
      else if Byte.eqb b x02 then Some Chroma420
      else None
  | [] => None
  end.

End Normalizer.

(** ** Further definitions: the embedder *)

Module EmbedderFacts.
Import Embedder.

(** The chunks [data[i:i+16]] of the row loop, in order. *)
Definition row_chunks (data : list byte) : list (list byte) :=
  (fun i => slice data i (i + 16)) <$> range_step (length data) 16.

(** What precedes the first closing brace of a text. *)
Fixpoint before_brace (s : string) : string :=
  match s with
  | EmptyString => EmptyString
  | String c s' =>
      if bool_decide (c = "}"%char) then EmptyString
      else String c (before_brace s')
  end.

(** The paths a batch reads and the paths it writes. *)
Definition input_paths (batch : list (string * string)) : list string :=
  (fun asset => input_path asset.1) <$> batch.

Definition output_paths (batch : list (string * string)) : list string :=
  (fun asset => output_path asset.2) <$> batch.

(** A batch whose outputs are pairwise distinct and are not among its
    inputs. *)
Definition separated (batch : list (string * string)) : Prop :=
  NoDup (output_paths batch)
  /\ forall p, p ∈ input_paths batch -> p ∉ output_paths batch.

End EmbedderFacts.

(** ** Further definitions: paths *)

Module OsPathFacts.

Fixpoint has_slash (s : string) : bool :=
  match s with
  | EmptyString => false
  | String c s' => bool_decide (c = "/"%char) || has_slash s'
  end.

End OsPathFacts.

(** ** create_simple_jpegs.py *)

Module Ppm.

(** [str(n)] for an [int] *)
Definition str_of_Z (n : Z) : string := NilEmpty.string_of_int (Z.to_int n).

(** [a // b] *)
Definition py_floordiv (a b : Z) : result Z :=
  if bool_decide (b = 0) then Raise ZeroDivisionError else Ok (a / b).

Definition is_dot_jpg (c1 c2 c3 c4 : ascii) : bool :=
  Ascii.eqb c1 "." && Ascii.eqb c2 "j" && Ascii.eqb c3 "p" && Ascii.eqb c4 "g".

(** [s.replace('.jpg', '.ppm')]: every occurrence, from the left, without
    overlap. *)
Fixpoint replace_jpg (s : string) : string :=
  match s with
  | "" => ""
  | String c1 t1 =>
      match t1 with
      | String c2 (String c3 (String c4 rest)) =>
          if is_dot_jpg c1 c2 c3 c4 then ".ppm" +:+ replace_jpg rest
          else String c1 (replace_jpg t1)
      | _ => String c1 (replace_jpg t1)
      end
  end.

(** The three values the loop body appends for the pixel [(x, y)]. *)
Definition pixel_values (width height r g b x y : Z) : result (list Z) :=
  dx <~ py_floordiv (x * 50) width ;;
  dy <~ py_floordiv (y * 50) height ;;
  Ok [Z.min 255 (r + dx); Z.min 255 (g + dy); b].

(** The list [pixels] after the two loops. *)
Definition raw_pixels (width height r g b : Z) : result (list Z) :=
  for_each (range height) (fun y =>
    for_each (range width) (fun x pixels =>
      vs <~ pixel_values width height r g b x y ;;
      Ok (pixels ++ vs))) [].

(** [bytes(values)]: [ValueError] unless every value is in
    [range(0, 256)]. *)
Fixpoint bytes_of (values : list Z) : result (list byte) :=
  match values with
  | [] => Ok []
  | v :: vs =>
      if bool_decide (0 <= v < 256)
      then match Byte.of_N (Z.to_N v) with
           | Some b => bs <~ bytes_of vs ;; Ok (b :: bs)
           | None => Raise ValueError
           end
      else Raise ValueError
  end.

(** [f'P6\n{width} {height}\n255\n'] *)
Definition ppm_header (width height : Z) : string :=
  "P6" +:+ NL +:+ str_of_Z width +:+ " " +:+ str_of_Z height +:+ NL
    +:+ "255" +:+ NL.

(** [f"Created {ppm_filename} ({width}x{height})"] *)
Definition created_line (ppm_filename : string) (width height : Z) : string :=
  "Created " +:+ ppm_filename +:+ " (" +:+ str_of_Z width +:+ "x"
    +:+ str_of_Z height +:+ ")".

(** [f.write(content)] on a file opened for writing: the content goes
    after what was written before. *)
Definition append_file (p : string) (content : list byte) : script unit :=
  fun w =>
    (World (<[p := default [] (files w !! p) ++ content]> (files w))
       (stdout w), Ok tt).

(** [create_minimal_jpeg(width, height, r, g, b, filename)] on [int]
    arguments.  [open(ppm_filename, 'wb')] leaves an empty file (the store
    has no directories: opening a path for writing does not fail), the
    header is written before [bytes(pixels)] is evaluated, and leaving
    the [with] block closes the file also when that raises. *)
Definition create_minimal_jpeg (width height r g b : Z) (filename : string)
  : script string :=
  (pixels <- Normalizer.lift (raw_pixels width height r g b) ;
   let ppm_filename := replace_jpg filename in
   write_file ppm_filename [] ;;
   append_file ppm_filename
     (String.list_byte_of_string (ppm_header width height)) ;;
   body <- Normalizer.lift (bytes_of pixels) ;
   append_file ppm_filename body ;;
   print (created_line ppm_filename width height) ;;
   ret ppm_filename)%script.

(** The calls of the script and its closing line. *)
Definition main : script unit :=
  (create_minimal_jpeg 320 240 100 150 200 "bootstrap_images/landscape.jpg" ;;
   create_minimal_jpeg 240 320 200 100 150 "bootstrap_images/portrait.jpg" ;;
   create_minimal_jpeg 200 200 150 200 100 "bootstrap_images/square.jpg" ;;
   create_minimal_jpeg 400 300 180 180 220 "bootstrap_images/wallpaper.jpg" ;;
   print (NL +:+ "Note: Created PPM files. Need to convert to JPEG or use "
             +:+ "different approach."))%script.

End Ppm.

Module PpmFacts.
Import Ppm.

(** The text starts with [.jpg]. *)
Definition starts_jpg (s : string) : bool :=
  match s with
  | String c1 (String c2 (String c3 (String c4 _))) => is_dot_jpg c1 c2 c3 c4
  | _ => false
  end.

(** [.jpg] occurs in the text. *)
Fixpoint occurs_jpg (s : string) : bool :=
  match s with
  | "" => false
  | String _ t => starts_jpg s || occurs_jpg t
  end.

(** The values of the pixel [(x, y)], and the rows of pixels in order. *)
Definition pixel (width height r g b x y : Z) : list Z :=
  [Z.min 255 (r + x * 50 / width); Z.min 255 (g + y * 50 / height); b].

Definition raster (width height r g b : Z) : list Z :=
  mjoin ((fun y => mjoin ((fun x => pixel width height r g b x y)
                            <$> range width))
           <$> range height).

(** The three values of the pixel [(x, y)] in a list of values for a
    raster of the given width: three values per pixel, rows from the
    top, each row from the left. *)
Definition pixel_at (pixels : list Z) (width x y : Z) : list Z :=
  take 3 (drop (Z.to_nat (3 * (y * width + x))) pixels).

(** The value of a byte. *)
Definition byte_value (c : byte) : Z := Z.of_N (Byte.to_N c).

(** The bytes of the raster, when all its values are byte values. *)
Definition raster_bytes (width height r g b : Z) : list byte :=
  match bytes_of (raster width height r g b) with
  | Ok body => body
  | Raise _ => []
  end.

(** The files the script writes, with their sizes. *)
Definition rasters : list (string * Z * Z) :=
  [ ("bootstrap_images/landscape.ppm", 320, 240);
    ("bootstrap_images/portrait.ppm", 240, 320);
    ("bootstrap_images/square.ppm", 200, 200);
    ("bootstrap_images/wallpaper.ppm", 400, 300) ].

End PpmFacts.

(** * Properties *)

(** ** Strings and written text *)

Lemma string_app_assoc (a b c : string) : (a +:+ b) +:+ c = a +:+ (b +:+ c).
Proof.
  induction a as [|x a IH]; [done|].
  change (String x ((a +:+ b) +:+ c) = String x (a +:+ (b +:+ c))).
  by rewrite IH.
Qed.

Lemma string_app_empty_r (a : string) : a +:+ "" = a.
Proof.
  induction a as [|x a IH]; [done|].
  change (String x (a +:+ "") = String x a). by rewrite IH.
Qed.

Lemma string_app_cons (x : ascii) (a b : string) :
  String x a +:+ b = String x (a +:+ b).
Proof. done. Qed.

Section EmbedderText.
Import Embedder.

Lemma written_app (l1 l2 : list string) :
  written (l1 ++ l2) = written l1 +:+ written l2.
Proof.
  induction l1 as [|s l1 IH]; [done|].
  cbn. by rewrite IH, string_app_assoc.
Qed.

Lemma header_text_layout (base var_name : string) (data : list byte) :
  header_text base var_name data
  = comment_line base +:+ array_open var_name +:+ written (rows_text data)
      +:+ array_close +:+ len_line var_name (length data).
Proof.
  unfold header_text, header_writes.
  rewrite !written_app. cbn [written app].
  by rewrite !string_app_assoc, string_app_empty_r.
Qed.

(** *** Reading the rows back *)

Lemma read_item (b : byte) (rest : string) :
  read_array_from Between (format_byte b +:+ String "," rest)
  = cons b <$> read_array_from Between rest.
Proof. destruct b; reflexivity. Qed.

Lemma read_blank (rest : string) :
  read_array_from Between (String " " rest) = read_array_from Between rest.
Proof. reflexivity. Qed.

Lemma read_newline (rest : string) :
  read_array_from Between (NL +:+ rest) = read_array_from Between rest.
Proof. reflexivity. Qed.

Lemma read_chunk (chunk : list byte) (rest : string) :
  chunk <> [] ->
  read_array_from Between
    (String.concat ", " (format_byte <$> chunk) +:+ String "," rest)
  = app chunk <$> read_array_from Between rest.
Proof.
  induction chunk as [|b chunk IH]; [done|]. intros _.
  destruct chunk as [|b' chunk].
  - cbn [fmap list_fmap String.concat]. rewrite read_item.
    by destruct (read_array_from Between rest).
  - change (String.concat ", " (format_byte <$> b :: b' :: chunk))
      with (format_byte b +:+ ", "
              +:+ String.concat ", " (format_byte <$> b' :: chunk)).
    rewrite !string_app_assoc.
    change (", " +:+ ?s) with (String "," (String " " s)).
    rewrite read_item, read_blank, IH by done.
    by destruct (read_array_from Between rest).
Qed.

Lemma read_row (chunk : list byte) (rest : string) :
  chunk <> [] ->
  read_array_from Between (row_text chunk +:+ rest)
  = app chunk <$> read_array_from Between rest.
Proof.
  intros Hne. unfold row_text.
  rewrite !string_app_assoc.
  change ("    " +:+ ?s) with (String " " (String " " (String " " (String " " s)))).
  rewrite !read_blank.
  change ("," +:+ ?s) with (String "," s).
  rewrite read_chunk by done.
  by rewrite read_newline.
Qed.

(** *** The rows partition the data *)

Lemma range_step_16_cons (n : nat) :
  (0 < n)%nat ->
  range_step n 16 = 0%nat :: (Nat.add 16 <$> range_step (n - 16) 16).
Proof.
  intros Hn. unfold range_step.
  assert (((n + 16 - 1) / 16)%nat = S ((n - 16 + 16 - 1) / 16)%nat) as ->.
  { destruct (decide (n < 16)%nat) as [Hlt|Hge].
    - replace (n - 16 + 16 - 1)%nat with 15%nat by lia.
      rewrite (Nat.div_small 15 16) by lia.
      replace (n + 16 - 1)%nat with (1 * 16 + (n - 1))%nat by lia.
      rewrite Nat.div_add_l by lia. rewrite Nat.div_small by lia. done.
    - replace (n + 16 - 1)%nat with (1 * 16 + (n - 16 + 16 - 1))%nat by lia.
      rewrite Nat.div_add_l by lia. done. }
  cbn [seq fmap list_fmap]. f_equal.
  rewrite <- fmap_S_seq, <- !list_fmap_compose.
  apply list_fmap_ext. intros i x _. cbn. lia.
Qed.

Lemma rows_text_cons (data : list byte) :
  data <> [] ->
  rows_text data = row_text (take 16 data) :: rows_text (drop 16 data).
Proof.
  intros Hne. unfold rows_text.
  rewrite range_step_16_cons by (destruct data; [done | cbn; lia]).
  cbn [fmap list_fmap]. f_equal.
  rewrite length_drop, <- list_fmap_compose.
  apply list_fmap_ext. intros i x _. cbn. unfold slice.
  rewrite drop_drop. do 2 f_equal; lia.
Qed.

Lemma length_rows_text (data : list byte) :
  length (rows_text data) = ((length data + 15) / 16)%nat.
Proof.
  unfold rows_text, range_step. rewrite !length_fmap, length_seq.
  f_equal; lia.
Qed.

Lemma read_rows (data : list byte) (rest : string) :
  read_array_from Between (written (rows_text data) +:+ rest)
  = app data <$> read_array_from Between rest.
Proof.
  remember (length data) as n eqn:Hn.
  revert data Hn. induction (lt_wf n) as [n _ IH]. intros data ->.
  destruct (decide (data = [])) as [->|Hne].
  - change (read_array_from Between rest
            = app [] <$> read_array_from Between rest).
    by destruct (read_array_from Between rest).
  - rewrite rows_text_cons by done. cbn [written].
    rewrite string_app_assoc.
    rewrite read_row by (destruct data; done).
    assert (length (drop 16 data) < length data)%nat as Hlt
      by (rewrite length_drop; destruct data; [done | cbn; lia]).
    rewrite (IH _ Hlt _ eq_refl).
    destruct (read_array_from Between rest); [|done].
    cbn. by rewrite app_assoc, take_drop.
Qed.

Lemma read_array_body_rows (data : list byte) :
  read_array_body (written (rows_text data)) = Some data.
Proof.
  unfold read_array_body.
  rewrite <- (string_app_empty_r (written (rows_text data))).
  rewrite read_rows. cbn. by rewrite app_nil_r.
Qed.

End EmbedderText.

(** ** The embedder *)

Section EmbedderProperties.
Import Embedder.

Lemma strip_prefix_app (p s : string) : strip_prefix p (p +:+ s) = Some s.
Proof.
  induction p as [|c p IH]; [done|].
  change (String c p +:+ s) with (String c (p +:+ s)).
  cbn. by rewrite bool_decide_eq_true_2.
Qed.

Lemma until_semicolon_uint (d : Decimal.uint) (tail : string) :
  until_semicolon (NilEmpty.string_of_uint d +:+ String ";" tail)
  = Some (NilEmpty.string_of_uint d, tail).
Proof.
  induction d as [|d IH|d IH|d IH|d IH|d IH|d IH|d IH|d IH|d IH|d IH];
    [done|..];
    cbn [NilEmpty.string_of_uint]; rewrite string_app_cons;
    cbn [until_semicolon]; rewrite IH; done.
Qed.

Lemma read_len_line_len_line (var_name : string) (n : nat) :
  read_len_line var_name (len_line var_name n) = Some n.
Proof.
  assert (len_line var_name n
          = ("const unsigned int " +:+ var_name +:+ "_len = ")
              +:+ (str_of_nat n +:+ String ";" NL)) as ->
    by (unfold len_line; by rewrite !string_app_assoc).
  unfold read_len_line.
  rewrite strip_prefix_app. unfold str_of_nat.
  rewrite until_semicolon_uint. rewrite bool_decide_eq_true_2 by done.
  rewrite NilEmpty.usu. cbn. by rewrite DecimalNat.Unsigned.of_to.
Qed.

Lemma generate_header_run (input_file output_file var_name : string)
  (data : list byte) (w : world) :
  files w !! input_file = Some data ->
  generate_header input_file output_file var_name w
  = (World (<[output_file :=
               String.list_byte_of_string
                 (header_text (OsPath.basename input_file) var_name data)]>
              (files w))
           (stdout w ++ [generated_line output_file data]),
     Ok tt).
Proof.
  intros Hin. unfold generate_header, bind, read_file. by rewrite Hin.
Qed.

(** C1: for every input byte sequence the declaration written by
    [generate_header] consists of the comment line, the array and the
    length constant; the array initialiser reads back as exactly the input
    bytes in order, the constant [<var_name>_len] reads back as the number
    of input bytes, and an empty input gives no row and the constant 0. *)
Theorem generate_header_length_and_bytes
  (input_file output_file var_name : string) (data : list byte) (w : world) :
  files w !! input_file = Some data ->
  let w' := fst (generate_header input_file output_file var_name w) in
  snd (generate_header input_file output_file var_name w) = Ok tt
  /\ files w' !! output_file
     = Some (String.list_byte_of_string
               (comment_line (OsPath.basename input_file)
                  +:+ array_open var_name
                  +:+ written (rows_text data)
                  +:+ array_close
                  +:+ len_line var_name (length data)))
  /\ read_array_body (written (rows_text data)) = Some data
  /\ read_len_line var_name (len_line var_name (length data))
     = Some (length data)
  /\ length (rows_text data) = ((length data + 15) / 16)%nat
  /\ (data = [] ->
      rows_text data = []
      /\ len_line var_name (length data)
         = "const unsigned int " +:+ var_name +:+ "_len = 0;" +:+ NL).
Proof.
  intros Hin w'. subst w'.
  rewrite (generate_header_run _ _ _ _ _ Hin). cbn [fst snd files].
  split; [done|]. split.
  { by rewrite lookup_insert_eq, header_text_layout. }
  split; [apply read_array_body_rows|].
  split; [apply read_len_line_len_line|].
  split; [apply length_rows_text|].
  by intros ->.
Qed.

Lemma generate_header_length_and_bytes_witness :
  let w := World {[ "in/a.bin" := [x00; xff; x1a]%byte ]} [] in
  files (fst (generate_header "in/a.bin" "out/a.c" "a" w)) !! "out/a.c"
  = Some (String.list_byte_of_string
            (comment_line "a.bin" +:+ array_open "a"
               +:+ written (rows_text [x00; xff; x1a]%byte)
               +:+ array_close +:+ len_line "a" 3))
  /\ read_array_body (written (rows_text [x00; xff; x1a]%byte))
     = Some [x00; xff; x1a]%byte
  /\ read_len_line "a" (len_line "a" 3) = Some 3%nat.
Proof.
  intros w.
  assert (Hin : files w !! "in/a.bin" = Some [x00; xff; x1a]%byte)
    by (vm_compute; reflexivity).
  pose proof (generate_header_length_and_bytes "in/a.bin" "out/a.c" "a"
                [x00; xff; x1a]%byte w Hin) as H.
  cbv zeta in H. destruct H as (_ & Hfile & Hbody & Hlen & _).
  split; [exact Hfile|]. split; [exact Hbody | exact Hlen].
Defined.

(** C9: the text [generate_header] writes is a function of the input
    file's base name, the variable name and the input bytes only: two runs
    from different stores, directories and output paths write the same
    text, with no timestamp in it. *)
Theorem generate_header_deterministic
  (w1 w2 : world) (in1 in2 out1 out2 var_name : string) (data : list byte) :
  files w1 !! in1 = Some data ->
  files w2 !! in2 = Some data ->
  OsPath.basename in1 = OsPath.basename in2 ->
  exists text,
    text = String.list_byte_of_string
             (header_text (OsPath.basename in1) var_name data)
    /\ snd (generate_header in1 out1 var_name w1) = Ok tt
    /\ snd (generate_header in2 out2 var_name w2) = Ok tt
    /\ files (fst (generate_header in1 out1 var_name w1)) !! out1 = Some text
    /\ files (fst (generate_header in2 out2 var_name w2)) !! out2 = Some text.
Proof.
  intros H1 H2 Hbase. eexists. split; [reflexivity|].
  rewrite (generate_header_run _ _ _ _ _ H1).
  rewrite (generate_header_run _ _ _ _ _ H2). cbn [fst snd files].
  rewrite !lookup_insert_eq, Hbase. done.
Qed.

Lemma generate_header_deterministic_witness :
  exists text,
    files (fst (generate_header "x/logo.jpg" "gen/logo.c" "logo"
                  (World {[ "x/logo.jpg" := [x4a; x46]%byte ]} [])))
      !! "gen/logo.c" = Some text
    /\ files (fst (generate_header "/srv/y/logo.jpg" "logo.c" "logo"
                     (World {[ "/srv/y/logo.jpg" := [x4a; x46]%byte;
                               "logo.c" := [x00]%byte ]} ["earlier"])))
         !! "logo.c" = Some text.
Proof.
  set (w1 := World {[ "x/logo.jpg" := [x4a; x46]%byte ]} []).
  set (w2 := World {[ "/srv/y/logo.jpg" := [x4a; x46]%byte;
                      "logo.c" := [x00]%byte ]} ["earlier"]).
  assert (H1 : files w1 !! "x/logo.jpg" = Some [x4a; x46]%byte)
    by (vm_compute; reflexivity).
  assert (H2 : files w2 !! "/srv/y/logo.jpg" = Some [x4a; x46]%byte)
    by (vm_compute; reflexivity).
  assert (H3 : OsPath.basename "x/logo.jpg" = OsPath.basename "/srv/y/logo.jpg")
    by (vm_compute; reflexivity).
  destruct (generate_header_deterministic w1 w2 _ _ "gen/logo.c" "logo.c"
              "logo" _ H1 H2 H3) as (text & _ & _ & _ & Ha & Hb).
  exists text. split; [exact Ha | exact Hb].
Defined.

End EmbedderProperties.

(** ** The embedder's batch loop *)

Section EmbedderBatch.
Import Embedder.

Lemma for_in_app {A} (l1 l2 : list A) (body : A -> script unit) (w : world) :
  for_in (l1 ++ l2) body w
  = match for_in l1 body w with
    | (w', Ok _) => for_in l2 body w'
    | (w', Raise e) => (w', Raise e)
    end.
Proof.
  revert w. induction l1 as [|a l1 IH]; intros w; [done|].
  cbn [for_in app]. unfold bind.
  destruct (body a w) as [w1 [[]|e]]; [apply IH | done].
Qed.

Lemma embed_one_missing (img_file var_name : string) (w : world) :
  files w !! input_path img_file = None ->
  embed_one (img_file, var_name) w
  = (World (files w) (stdout w ++ [warning_line img_file]), Ok tt).
Proof.
  intros Hnone. unfold embed_one, bind, path_exists. cbn [files].
  rewrite bool_decide_eq_false_2; [done|].
  rewrite Hnone. by intros [? ?].
Qed.

Lemma embed_one_present (img_file var_name : string) (data : list byte)
  (w : world) :
  files w !! input_path img_file = Some data ->
  embed_one (img_file, var_name) w
  = (World (<[output_path var_name := declaration img_file var_name data]>
              (files w))
           (stdout w ++ [generated_line (output_path var_name) data]),
     Ok tt).
Proof.
  intros Hsome. unfold embed_one, bind at 1, path_exists. cbn [files].
  rewrite bool_decide_eq_true_2 by (rewrite Hsome; eauto).
  by rewrite (generate_header_run _ _ _ _ _ Hsome).
Qed.

Lemma embed_one_ok (asset : string * string) (w : world) :
  snd (embed_one asset w) = Ok tt.
Proof.
  destruct asset as [img_file var_name].
  destruct (files w !! input_path img_file) as [data|] eqn:Hin.
  - by rewrite (embed_one_present _ _ _ _ Hin).
  - by rewrite (embed_one_missing _ _ _ Hin).
Qed.

Lemma embed_one_keeps (asset : string * string) (w : world) (p : string) :
  is_Some (files w !! p) -> is_Some (files (fst (embed_one asset w)) !! p).
Proof.
  intros Hp. destruct asset as [img_file var_name].
  destruct (files w !! input_path img_file) as [data|] eqn:Hin.
  - rewrite (embed_one_present _ _ _ _ Hin). cbn [fst files].
    destruct (decide (output_path var_name = p)) as [->|Hne].
    + rewrite lookup_insert_eq. eauto.
    + by rewrite lookup_insert_ne.
  - by rewrite (embed_one_missing _ _ _ Hin).
Qed.

Lemma embed_batch_ok (batch : list (string * string)) (w : world) :
  snd (embed_batch batch w) = Ok tt.
Proof.
  revert w. induction batch as [|a batch IH]; intros w; [done|].
  unfold embed_batch. cbn [for_in]. unfold bind.
  pose proof (embed_one_ok a w) as Ha.
  destruct (embed_one a w) as [w1 [[]|e]]; [apply IH | done].
Qed.

Lemma embed_batch_keeps (batch : list (string * string)) (w : world)
  (p : string) :
  is_Some (files w !! p) -> is_Some (files (fst (embed_batch batch w)) !! p).
Proof.
  revert w. induction batch as [|a batch IH]; intros w Hp; [done|].
  unfold embed_batch. cbn [for_in]. unfold bind.
  pose proof (embed_one_ok a w) as Ha.
  pose proof (embed_one_keeps a w p Hp) as Hk.
  destruct (embed_one a w) as [w1 [[]|e]]; [by apply IH | done].
Qed.

Lemma embed_batch_app (l1 l2 : list (string * string)) (w : world) :
  embed_batch (l1 ++ l2) w = embed_batch l2 (fst (embed_batch l1 w)).
Proof.
  unfold embed_batch. rewrite for_in_app.
  pose proof (embed_batch_ok l1 w) as Hok. unfold embed_batch in Hok.
  destruct (for_in l1 embed_one w) as [w1 [[]|e]]; done.
Qed.

Lemma embed_batch_one (asset : string * string) (w : world) :
  embed_batch [asset] w = embed_one asset w.
Proof.
  unfold embed_batch. cbn [for_in]. unfold bind.
  pose proof (embed_one_ok asset w) as Ha.
  destruct (embed_one asset w) as [w1 [[]|e]]; [done|discriminate].
Qed.

(** C4: in every batch every asset is processed, whatever happened to the
    assets before it.  The run never raises; an asset whose source file is
    missing when the loop reaches it only adds its warning line and writes
    nothing; every other asset has its declaration written, and that output
    is there when the batch ends.  In particular an asset whose source is in
    the store at the start has its output at the end, wherever missing assets
    stand in the batch. *)
Theorem embed_batch_skips_missing
  (batch : list (string * string)) (w : world)
  (i : nat) (img_file var_name : string) :
  batch !! i = Some (img_file, var_name) ->
  let before := fst (embed_batch (take i batch) w) in
  let after := fst (embed_batch (take (S i) batch) w) in
  let final := fst (embed_batch batch w) in
  snd (embed_batch batch w) = Ok tt
  /\ (files before !! input_path img_file = None ->
      files after = files before
      /\ stdout after = stdout before ++ [warning_line img_file])
  /\ (forall data, files before !! input_path img_file = Some data ->
      files after
      = <[output_path var_name := declaration img_file var_name data]>
          (files before)
      /\ stdout after
         = stdout before ++ [generated_line (output_path var_name) data]
      /\ is_Some (files final !! output_path var_name))
  /\ (is_Some (files w !! input_path img_file) ->
      is_Some (files final !! output_path var_name)).
Proof.
  intros Hi before after final.
  assert (Hafter : after = fst (embed_one (img_file, var_name) before)).
  { subst after before. rewrite (take_S_r _ _ _ Hi), embed_batch_app.
    by rewrite embed_batch_one. }
  assert (Hfinal : final = fst (embed_batch (drop (S i) batch) after)).
  { subst final after. rewrite <- embed_batch_app. by rewrite take_drop. }
  assert (Hout : forall data, files before !! input_path img_file = Some data ->
            is_Some (files final !! output_path var_name)).
  { intros data Hin. rewrite Hfinal. apply embed_batch_keeps.
    rewrite Hafter, (embed_one_present _ _ _ _ Hin). cbn [fst files].
    rewrite lookup_insert_eq. eauto. }
  split; [apply embed_batch_ok|]. split; [|split].
  - intros Hnone. by rewrite Hafter, (embed_one_missing _ _ _ Hnone).
  - intros data Hin. rewrite Hafter, (embed_one_present _ _ _ _ Hin).
    cbn [fst files stdout]. eauto.
  - intros Hstart.
    destruct (embed_batch_keeps (take i batch) w _ Hstart) as [data Hin].
    by apply (Hout data).
Qed.

Lemma embed_batch_skips_missing_witness :
  let w := World {[ "kernel/media/bootstrap_images/one.jpg" := [x01]%byte;
                    "kernel/media/bootstrap_images/three.jpg" := [x03]%byte ]}
                 [] in
  let batch := [("one.jpg", "one"); ("two.jpg", "two"); ("three.jpg", "three")] in
  snd (embed_batch batch w) = Ok tt
  /\ stdout (fst (embed_batch (take 2 batch) w))
     = stdout (fst (embed_batch (take 1 batch) w)) ++ [warning_line "two.jpg"]
  /\ is_Some (files (fst (embed_batch batch w)) !! output_path "one")
  /\ is_Some (files (fst (embed_batch batch w)) !! output_path "three").
Proof.
  intros w batch.
  assert (H0 : batch !! 0%nat = Some ("one.jpg", "one")) by reflexivity.
  assert (H1 : batch !! 1%nat = Some ("two.jpg", "two")) by reflexivity.
  assert (H2 : batch !! 2%nat = Some ("three.jpg", "three")) by reflexivity.
  pose proof (embed_batch_skips_missing batch w 0 _ _ H0) as (Hok & _ & _ & Ha).
  pose proof (embed_batch_skips_missing batch w 1 _ _ H1) as (_ & Hb & _ & _).
  pose proof (embed_batch_skips_missing batch w 2 _ _ H2) as (_ & _ & _ & Hc).
  split; [exact Hok|]. split; [|split].
  - apply Hb. vm_compute. reflexivity.
  - apply Ha. vm_compute. eauto.
  - apply Hc. vm_compute. eauto.
Defined.

End EmbedderBatch.

(** ** The synthetic images *)

Section GeneratorLoops.
Import Generator.

Lemma range_elem (n k : Z) : k ∈ range n <-> 0 <= k < n.
Proof. unfold range. rewrite elem_of_seqZ. lia. Qed.

Lemma range_nil (n : Z) : n <= 0 -> range n = [].
Proof. apply seqZ_nil. Qed.

Lemma range_cons (n : Z) : 0 < n -> range n = 0 :: seqZ 1 (n - 1).
Proof. intros Hn. unfold range. by rewrite seqZ_cons by lia. Qed.

Lemma putpixel_inside (x y : Z) (c : rgb) (img : image) :
  0 <= x < im_width img -> 0 <= y < im_height img ->
  putpixel x y c img
  = Ok (Image (im_width img) (im_height img) (<[(x, y) := c]> (im_pixels img))).
Proof.
  intros Hx Hy. unfold putpixel. by rewrite bool_decide_eq_true_2.
Qed.

(** One row of the nested loop: the cells [(x, y)] with [x] in [xs] get the
    colour computed for them, every other cell is left alone. *)
Lemma paint_row (pixel : Z -> Z -> result rgb) (g : Z -> Z -> rgb)
  (xs : list Z) (y : Z) (img : image) :
  0 <= y < im_height img ->
  (forall x, x ∈ xs -> 0 <= x < im_width img) ->
  (forall x, x ∈ xs -> pixel x y = Ok (g x y)) ->
  exists img',
    for_each xs (fun x img => c <~ pixel x y ;; putpixel x y c img) img = Ok img'
    /\ im_width img' = im_width img
    /\ im_height img' = im_height img
    /\ forall x' y',
         im_pixels img' !! (x', y')
         = if decide (x' ∈ xs /\ y' = y) then Some (g x' y')
           else im_pixels img !! (x', y').
Proof.
  intros Hy. revert img Hy.
  induction xs as [|x xs IH]; intros img Hy Hin Hpix.
  - exists img. split; [done|]. split; [done|]. split; [done|].
    intros x' y'. rewrite decide_False; [done|]. intros [H _]. inversion H.
  - cbn [for_each]. rewrite (Hpix x) by left. cbn [rbind].
    rewrite putpixel_inside by (try done; apply Hin; left). cbn [rbind].
    destruct (IH (Image (im_width img) (im_height img)
                    (<[(x, y) := g x y]> (im_pixels img))))
      as (img' & Hrun & Hw & Hh & Hcells).
    + done.
    + intros x0 Hx0. cbn. apply Hin. by right.
    + intros x0 Hx0. apply Hpix. by right.
    + exists img'. split; [done|]. split; [done|]. split; [done|].
      intros x' y'. rewrite Hcells. cbn [im_pixels].
      destruct (decide (x' ∈ xs /\ y' = y)) as [[Hx' ->]|Hno].
      * rewrite decide_True; [done|]. split; [by right | done].
      * destruct (decide ((x, y) = (x', y'))) as [Heq|Hne].
        -- injection Heq as <- <-. rewrite lookup_insert_eq.
           rewrite decide_True; [done|]. split; [left | done].
        -- rewrite lookup_insert_ne by done.
           rewrite decide_False; [done|].
           intros [Hx' ->]. apply elem_of_cons in Hx' as [->|Hx']; tauto.
Qed.

(** The nested loop over rows [ys] and columns [xs]. *)
Lemma paint_rows (pixel : Z -> Z -> result rgb) (g : Z -> Z -> rgb)
  (xs ys : list Z) (img : image) :
  (forall y, y ∈ ys -> 0 <= y < im_height img) ->
  (forall x, x ∈ xs -> 0 <= x < im_width img) ->
  (forall x y, x ∈ xs -> y ∈ ys -> pixel x y = Ok (g x y)) ->
  exists img',
    for_each ys (fun y =>
      for_each xs (fun x img => c <~ pixel x y ;; putpixel x y c img)) img
    = Ok img'
    /\ im_width img' = im_width img
    /\ im_height img' = im_height img
    /\ forall x' y',
         im_pixels img' !! (x', y')
         = if decide (x' ∈ xs /\ y' ∈ ys) then Some (g x' y')
           else im_pixels img !! (x', y').
Proof.
  revert img. induction ys as [|y ys IH]; intros img Hys Hxs Hpix.
  - exists img. split; [done|]. split; [done|]. split; [done|].
    intros x' y'. rewrite decide_False; [done|]. intros [_ H]. inversion H.
  - cbn [for_each].
    destruct (paint_row pixel g xs y img) as (img1 & Hrow & Hw1 & Hh1 & Hc1).
    { apply Hys. left. }
    { done. }
    { intros x Hx. apply Hpix; [done | left]. }
    rewrite Hrow. cbn [rbind].
    destruct (IH img1) as (img' & Hrun & Hw & Hh & Hcells).
    { intros y0 Hy0. rewrite Hh1. apply Hys. by right. }
    { intros x0 Hx0. rewrite Hw1. by apply Hxs. }
    { intros x0 y0 Hx0 Hy0. apply Hpix; [done | by right]. }
    exists img'. split; [done|]. split; [congruence|]. split; [congruence|].
    intros x' y'. rewrite Hcells, Hc1.
    destruct (decide (x' ∈ xs /\ y' ∈ ys)) as [[Hx' Hy']|Hno].
    + rewrite decide_True; [done|]. split; [done | by right].
    + destruct (decide (x' ∈ xs /\ y' = y)) as [[Hx' ->]|Hno'].
      * rewrite decide_True; [done|]. split; [done | left].
      * rewrite decide_False; [done|].
        intros [Hx' Hy']. apply elem_of_cons in Hy' as [->|Hy']; tauto.
Qed.

(** The nested loop stops at its first cell when the colour of that cell
    cannot be computed. *)
Lemma paint_first_raises (pixel : Z -> Z -> result rgb) (e : exn)
  (width height : Z) (img : image) :
  0 < width -> 0 < height ->
  pixel 0 0 = Raise e ->
  for_each (range height) (fun y =>
    for_each (range width) (fun x img => c <~ pixel x y ;; putpixel x y c img))
    img
  = Raise e.
Proof.
  intros Hw Hh Hp.
  rewrite (range_cons height), (range_cons width) by done.
  cbn [for_each]. by rewrite Hp.
Qed.

Lemma Image_new_ok (width height : Z) :
  0 <= width -> 0 <= height ->
  Image_new width height = Ok (Image width height ∅).
Proof.
  intros Hw Hh. unfold Image_new. rewrite bool_decide_eq_false_2; [done | lia].
Qed.

Lemma Image_new_negative (width height : Z) :
  width < 0 \/ height < 0 -> Image_new width height = Raise ValueError.
Proof. intros H. unfold Image_new. by rewrite bool_decide_eq_true_2. Qed.

Lemma getpixel_inside (img : image) (x y : Z) (c : rgb) :
  0 <= x < im_width img -> 0 <= y < im_height img ->
  im_pixels img !! (x, y) = Some c ->
  getpixel img x y = Ok c.
Proof.
  intros Hx Hy Hc. unfold getpixel. rewrite Hc.
  by rewrite bool_decide_eq_true_2.
Qed.

End GeneratorLoops.

Section PatternProperties.
Import Generator.

Lemma pattern_index_ok (colors : list rgb) (x y : Z) :
  colors <> [] ->
  pattern_index colors x y
  = Ok ((x / 40 + y / 40) mod Z.of_nat (length colors))
  /\ 0 <= (x / 40 + y / 40) mod Z.of_nat (length colors)
     < Z.of_nat (length colors).
Proof.
  intros Hne.
  assert (0 < Z.of_nat (length colors)) by (destruct colors; [done | cbn; lia]).
  split; [|by apply Z.mod_pos_bound].
  unfold pattern_index, py_mod. rewrite bool_decide_eq_false_2; [done | lia].
Qed.

Lemma py_getitem_inside {A} (l : list A) (i : Z) :
  0 <= i < Z.of_nat (length l) ->
  exists a, l !! Z.to_nat i = Some a /\ py_getitem l i = Ok a.
Proof.
  intros Hi. destruct (lookup_lt_is_Some_2 l (Z.to_nat i)) as [a Ha]; [lia|].
  exists a. split; [done|]. unfold py_getitem.
  rewrite (bool_decide_eq_false_2 (i < 0)) by lia.
  rewrite bool_decide_eq_true_2 by done. by rewrite Ha.
Qed.

Lemma pattern_pixel_ok (colors : list rgb) (x y : Z) :
  colors <> [] ->
  exists c,
    colors !! Z.to_nat ((x / 40 + y / 40) mod Z.of_nat (length colors)) = Some c
    /\ pattern_pixel colors x y = Ok c.
Proof.
  intros Hne. destruct (pattern_index_ok colors x y Hne) as [Hidx Hrange].
  destruct (py_getitem_inside colors _ Hrange) as (c & Hc & Hget).
  exists c. split; [done|]. unfold pattern_pixel. by rewrite Hidx.
Qed.

(** The tiled pattern, cell by cell. *)
Lemma create_pattern_image_cells (width height : Z) (colors : list rgb) :
  0 <= width -> 0 <= height -> colors <> [] ->
  exists img,
    create_pattern_image width height colors = Ok img
    /\ im_width img = width /\ im_height img = height
    /\ forall x y, 0 <= x < width -> 0 <= y < height ->
         pattern_pixel colors x y = getpixel img x y.
Proof.
  intros Hw Hh Hne. unfold create_pattern_image.
  rewrite Image_new_ok by done. cbn [rbind].
  destruct (paint_rows (pattern_pixel colors)
              (fun x y => default (0, 0, 0)
                 (colors !! Z.to_nat
                    ((x / 40 + y / 40) mod Z.of_nat (length colors))))
              (range width) (range height) (Image width height ∅))
    as (img & Hrun & Hiw & Hih & Hcells).
  { intros y Hy. by apply range_elem in Hy. }
  { intros x Hx. by apply range_elem in Hx. }
  { intros x y _ _. destruct (pattern_pixel_ok colors x y Hne) as (c & Hc & ->).
    by rewrite Hc. }
  exists img. split; [done|]. cbn in Hiw, Hih. split; [done|]. split; [done|].
  intros x y Hx Hy. destruct (pattern_pixel_ok colors x y Hne) as (c & Hc & ->).
  symmetry. apply getpixel_inside; [lia | lia |].
  rewrite Hcells, decide_True by (split; by apply range_elem).
  by rewrite Hc.
Qed.

(** The colours of the script have byte channels. *)
Lemma colors_bytes : Forall byte_channels colors.
Proof. unfold colors. repeat (apply Forall_cons; split; [cbn; lia|]). done. Qed.

Lemma create_pattern_image_no_colors (width height : Z) :
  0 < width -> 0 < height ->
  create_pattern_image width height [] = Raise ZeroDivisionError.
Proof.
  intros Hw Hh. unfold create_pattern_image.
  rewrite Image_new_ok by lia. cbn [rbind].
  by apply paint_first_raises.
Qed.

(** C5: for a tiled pattern with positive width and height and a non-empty
    list of colours with channels in 0..255, the pixel at [(x, y)] is
    [colors[((x div 40) + (y div 40)) mod len(colors)]], a colour that is
    stored as it is; in a 200 by 200 image over four colours the pixels
    (0,0) and (39,39) have the first colour and the pixel (40,0) has the
    second. *)
Theorem create_pattern_image_tiles (width height : Z) (colors : list rgb) :
  0 < width -> 0 < height -> colors <> [] -> Forall byte_channels colors ->
  exists img,
    create_pattern_image width height colors = Ok img
    /\ (forall x y, 0 <= x < width -> 0 <= y < height ->
          exists c,
            colors !! Z.to_nat ((x / 40 + y / 40) mod Z.of_nat (length colors))
            = Some c
            /\ byte_channels c
            /\ getpixel img x y = Ok c)
    /\ (width = 200 -> height = 200 ->
        forall c0 c1 c2 c3, colors = [c0; c1; c2; c3] ->
          getpixel img 0 0 = Ok c0
          /\ getpixel img 39 39 = Ok c0
          /\ getpixel img 40 0 = Ok c1).
Proof.
  intros Hw Hh Hne Hbytes.
  destruct (create_pattern_image_cells width height colors)
    as (img & Hrun & _ & _ & Hcells); [lia | lia | done |].
  assert (Hgen : forall x y, 0 <= x < width -> 0 <= y < height ->
            exists c,
              colors !! Z.to_nat ((x / 40 + y / 40) mod Z.of_nat (length colors))
              = Some c
              /\ byte_channels c
              /\ getpixel img x y = Ok c).
  { intros x y Hx Hy. destruct (pattern_pixel_ok colors x y Hne) as (c & Hc & Hp).
    exists c. split; [done|].
    split; [exact (proj1 (Forall_lookup _ _) Hbytes _ _ Hc)|].
    rewrite <- Hcells by done. done. }
  exists img. split; [exact Hrun|]. split; [exact Hgen|].
  clear Hrun Hcells. intros Hw200 Hh200 c0 c1 c2 c3 Hcol.
  destruct (Hgen 0 0) as (a & Ha & _ & Hga); [lia | lia |].
  destruct (Hgen 39 39) as (b & Hb & _ & Hgb); [lia | lia |].
  destruct (Hgen 40 0) as (c & Hc & _ & Hgc); [lia | lia |].
  rewrite Hcol in Ha, Hb, Hc. cbn in Ha, Hb, Hc.
  injection Ha as <-. injection Hb as <-. injection Hc as <-.
  by rewrite Hga, Hgb, Hgc.
Qed.

Lemma create_pattern_image_tiles_witness :
  exists img,
    create_pattern_image 200 200 colors = Ok img
    /\ getpixel img 0 0 = Ok (70, 130, 180)
    /\ getpixel img 39 39 = Ok (70, 130, 180)
    /\ getpixel img 40 0 = Ok (255, 165, 0)
    /\ getpixel img 80 199 = Ok (50, 205, 50).
Proof.
  destruct (create_pattern_image_tiles 200 200 colors) as (img & Hrun & Hgen & Hsq);
    [lia | lia | discriminate | apply colors_bytes |].
  exists img. split; [exact Hrun|].
  destruct (Hsq eq_refl eq_refl _ _ _ _ eq_refl) as (H0 & H39 & H40).
  split; [exact H0|]. split; [exact H39|]. split; [exact H40|].
  destruct (Hgen 80 199) as (c & Hc & _ & Hg); [lia | lia |].
  vm_compute in Hc. injection Hc as <-. exact Hg.
Defined.

(** C10: the tiled-pattern generator needs a non-empty colour list.  With
    positive width and height and at least one colour the index computed
    for every pixel is a valid index into [colors], and when the colours
    have channels in 0..255 an image is returned whose pixels are colours
    of the list; with an empty list the unguarded modulus by
    [len(colors) = 0] raises and no image is returned. *)
Theorem create_pattern_image_needs_colors (width height : Z)
  (colors : list rgb) :
  0 < width -> 0 < height ->
  (colors <> [] ->
     forall x y, 0 <= x < width -> 0 <= y < height ->
       exists idx c,
         pattern_index colors x y = Ok idx
         /\ 0 <= idx < Z.of_nat (length colors)
         /\ py_getitem colors idx = Ok c)
  /\ (colors <> [] -> Forall byte_channels colors ->
      exists img,
        create_pattern_image width height colors = Ok img
        /\ forall x y, 0 <= x < width -> 0 <= y < height ->
             exists c, c ∈ colors /\ byte_channels c
                       /\ getpixel img x y = Ok c)
  /\ (colors = [] ->
      create_pattern_image width height colors = Raise ZeroDivisionError).
Proof.
  intros Hw Hh. split; [|split].
  - intros Hne x y _ _. destruct (pattern_index_ok colors x y Hne) as [Hidx Hr].
    destruct (py_getitem_inside colors _ Hr) as (c & _ & Hget).
    eexists _, c. split; [exact Hidx|]. split; [exact Hr | exact Hget].
  - intros Hne Hbytes.
    destruct (create_pattern_image_cells width height colors)
      as (img & Hrun & _ & _ & Hcells); [lia | lia | done |].
    exists img. split; [exact Hrun|]. intros x y Hx Hy.
    destruct (pattern_pixel_ok colors x y Hne) as (c & Hc & Hp).
    exists c. split; [by eapply list_elem_of_lookup_2|].
    split; [exact (proj1 (Forall_lookup _ _) Hbytes _ _ Hc)|].
    by rewrite <- Hcells, Hp.
  - intros ->. by apply create_pattern_image_no_colors.
Qed.

Lemma create_pattern_image_needs_colors_witness :
  (exists img, create_pattern_image 3 2 colors = Ok img)
  /\ (exists idx, pattern_index colors 2 1 = Ok idx /\ 0 <= idx < 4)
  /\ create_pattern_image 3 2 [] = Raise ZeroDivisionError.
Proof.
  destruct (create_pattern_image_needs_colors 3 2 colors)
    as (Hidx & Hsome & _); [lia | lia |].
  destruct (create_pattern_image_needs_colors 3 2 []) as (_ & _ & Hnone);
    [lia | lia |].
  destruct Hsome as (img & Himg & _); [discriminate | apply colors_bytes |].
  split; [by exists img|]. split; [|exact (Hnone eq_refl)].
  destruct (Hidx ltac:(discriminate) 2 1) as (idx & c & Hi & Hr & _);
    [lia | lia |].
  exists idx. split; [exact Hi | exact Hr].
Defined.

End PatternProperties.

(** ** Python floats: rounding does not cross an integer

    The bounds below are stated on mantissas and exponents: a finite float
    [m * 2^e] with [e <= 0] is at most the integer [N] when
    [m <= N * 2^(-e)]. *)

Section FloatBounds.

(** The canonical exponent of binary64. *)
Lemma fexp_eq (e : Z) :
  fexp PyFloat.prec PyFloat.emax e = Z.max (e - 53) (-1074).
Proof. reflexivity. Qed.

Lemma digits2_pos_size (p : positive) : digits2_pos p = Pos.size p.
Proof. induction p as [p IH|p IH|]; cbn; by rewrite ?IH. Qed.

(** A positive number of [d] binary digits is at least [2^(d-1)]. *)
Lemma digits2_pos_lower (p : positive) :
  2 ^ Zpos (digits2_pos p) <= 2 * Zpos p.
Proof.
  rewrite digits2_pos_size.
  pose proof (Pos.size_le p) as H.
  change (2 * Z.pos p) with (Z.pos p~0).
  change 2 with (Z.pos 2) at 1. rewrite <- Pos2Z.inj_pow. lia.
Qed.

Lemma pow2_xO (p : positive) : 2 ^ Z.pos p~0 = 2 ^ Z.pos p * 2 ^ Z.pos p.
Proof.
  replace (Z.pos p~0) with (Z.pos p + Z.pos p) by lia.
  by rewrite Z.pow_add_r by lia.
Qed.

Lemma pow2_xI (p : positive) :
  2 ^ Z.pos p~1 = 2 * (2 ^ Z.pos p * 2 ^ Z.pos p).
Proof.
  replace (Z.pos p~1) with (1 + (Z.pos p + Z.pos p)) by lia.
  by rewrite !Z.pow_add_r by lia.
Qed.

(** One step of the right shift. *)
Lemma shr_1_m (mrs : shr_record) :
  0 <= shr_m mrs -> shr_m (shr_1 mrs) = shr_m mrs / 2.
Proof.
  destruct mrs as [m r s]. cbn [shr_m]. intros Hm.
  destruct m as [|p|p]; [done| |lia].
  destruct p as [p|p|]; cbn [shr_1 shr_m].
  - rewrite Pos2Z.inj_xI. rewrite Z.mul_comm, Z.div_add_l by lia.
    rewrite (Z.div_small 1 2) by lia. lia.
  - rewrite Pos2Z.inj_xO. rewrite Z.mul_comm, Z.div_mul by lia. done.
  - done.
Qed.

Lemma shr_1_exact (k : Z) :
  0 <= k ->
  shr_1 (Build_shr_record (2 * k) false false) = Build_shr_record k false false.
Proof.
  intros Hk. destruct k as [|p|p]; [done|done|lia].
Qed.

(** Shifting [p] bits out divides the mantissa by [2^p] ... *)
Lemma iter_pos_shr_m (p : positive) (mrs : shr_record) :
  0 <= shr_m mrs ->
  shr_m (SpecFloat.iter_pos shr_1 p mrs) = shr_m mrs / 2 ^ Zpos p.
Proof.
  revert mrs. induction p as [p IH|p IH|]; intros mrs Hm;
    cbn [SpecFloat.iter_pos].
  - assert (H1 : 0 <= shr_m (shr_1 mrs)).
    { rewrite shr_1_m by done. apply Z.div_pos; lia. }
    assert (H2 : 0 <= shr_m (SpecFloat.iter_pos shr_1 p (shr_1 mrs))).
    { rewrite IH by done. apply Z.div_pos; lia. }
    rewrite IH, IH, shr_1_m by done.
    rewrite !Z.div_div by lia. by rewrite pow2_xI.
  - assert (H2 : 0 <= shr_m (SpecFloat.iter_pos shr_1 p mrs)).
    { rewrite IH by done. apply Z.div_pos; lia. }
    rewrite IH, IH by done.
    rewrite !Z.div_div by lia. by rewrite pow2_xO.
  - by rewrite shr_1_m.
Qed.

(** ... and stays exact when the bits shifted out are zero. *)
Lemma iter_pos_shr_exact (p : positive) (k : Z) :
  0 <= k ->
  SpecFloat.iter_pos shr_1 p (Build_shr_record (k * 2 ^ Zpos p) false false)
  = Build_shr_record k false false.
Proof.
  revert k. induction p as [p IH|p IH|]; intros k Hk;
    cbn [SpecFloat.iter_pos].
  - replace (k * 2 ^ Z.pos p~1) with (2 * ((k * 2 ^ Zpos p) * 2 ^ Zpos p))
      by (rewrite pow2_xI; lia).
    rewrite shr_1_exact by lia. rewrite IH by lia. by rewrite IH.
  - replace (k * 2 ^ Z.pos p~0) with ((k * 2 ^ Zpos p) * 2 ^ Zpos p)
      by (rewrite pow2_xO; lia).
    rewrite IH by lia. by rewrite IH.
  - change (2 ^ 1) with 2. rewrite Z.mul_comm. by apply shr_1_exact.
Qed.

Lemma loc_of_shr_record_of_loc (m : Z) (l : location) :
  loc_of_shr_record (shr_record_of_loc m l) = l.
Proof. by destruct l as [|[]]. Qed.

Lemma shr_m_shr_record_of_loc (m : Z) (l : location) :
  shr_m (shr_record_of_loc m l) = m.
Proof. by destruct l as [|[]]. Qed.

(** [shr] when nothing is shifted out, and when [n] bits are. *)
Lemma shr_none (mrs : shr_record) (e n : Z) :
  n <= 0 -> shr mrs e n = (mrs, e).
Proof. intros Hn. destruct n as [|p|p]; [done|lia|done]. Qed.

Lemma shr_some (m : Z) (l : location) (e n : Z) :
  0 <= m -> 0 < n ->
  exists mrs,
    shr (shr_record_of_loc m l) e n = (mrs, e + n)
    /\ shr_m mrs = m / 2 ^ n
    /\ (l = loc_Exact -> m mod 2 ^ n = 0 ->
        loc_of_shr_record mrs = loc_Exact).
Proof.
  intros Hm Hn. destruct n as [|p|p]; [lia| |lia].
  eexists. split; [reflexivity|]. split.
  - rewrite iter_pos_shr_m by (by rewrite shr_m_shr_record_of_loc).
    by rewrite shr_m_shr_record_of_loc.
  - intros -> Hmod. cbn [shr_record_of_loc].
    apply Z.div_exact in Hmod; [|lia].
    rewrite Hmod at 1. rewrite Z.mul_comm.
    rewrite iter_pos_shr_exact by (apply Z.div_pos; lia). done.
Qed.

(** Rounding keeps the mantissa or adds one, and keeps an exact one. *)
Lemma round_nearest_even_bounds (m : Z) (l : location) :
  m <= round_nearest_even m l
        <= (match l with loc_Exact => m | _ => m + 1 end).
Proof.
  destruct l as [|[]]; cbn [round_nearest_even]; try lia.
  destruct (Z.even m); lia.
Qed.

(** A value below [2^53] has a non-positive canonical exponent. *)
Lemma fexp_nonpos (m e N : Z) :
  0 <= m -> e <= 0 -> m <= N * 2 ^ (- e) -> N < 2 ^ 53 ->
  fexp PyFloat.prec PyFloat.emax (Zdigits2 m + e) <= 0.
Proof.
  intros Hm He Hle HN. rewrite fexp_eq.
  enough (Zdigits2 m + e <= 53) by lia.
  destruct m as [|p|p]; [cbn; lia| |lia]. cbn [Zdigits2].
  pose proof (digits2_pos_lower p) as Hd.
  assert (0 < 2 ^ (- e)) by (apply Z.pow_pos_nonneg; lia).
  assert (2 ^ Z.pos (digits2_pos p) < 2 ^ (54 - e)) as Hlt.
  { replace (54 - e) with (1 + 53 + - e) by lia.
    rewrite !Z.pow_add_r by lia. change (2 ^ 1) with 2. nia. }
  apply Z.pow_lt_mono_r_iff in Hlt; lia.
Qed.

(** Rounding to nearest does not cross an integer: a value located by
    [(mx, ex, lx)] that is at most the integer [N < 2^53] rounds to a zero or
    to a finite float of the same sign that is at most [N]; it never rounds
    to NaN or to an infinity. *)
Lemma binary_round_aux_below (sx : bool) (mx ex : Z) (lx : location) (N : Z) :
  0 <= mx -> ex <= 0 -> 1 <= N < 2 ^ 53 ->
  (match lx with loc_Exact => mx | _ => mx + 1 end) <= N * 2 ^ (- ex) ->
  PyFloat.below N (binary_round_aux PyFloat.prec PyFloat.emax sx mx ex lx)
  /\ (binary_round_aux PyFloat.prec PyFloat.emax sx mx ex lx = S754_zero sx
      \/ exists m e,
           binary_round_aux PyFloat.prec PyFloat.emax sx mx ex lx
           = S754_finite sx m e).
Proof.
  intros Hmx Hex HN HU.
  assert (Hmx_le : mx <= N * 2 ^ (- ex)) by (destruct lx; lia).
  (* the first shift and the rounding *)
  assert (exists mrs' e',
            shr_fexp PyFloat.prec PyFloat.emax mx ex lx = (mrs', e')
            /\ e' <= 0
            /\ 0 <= round_nearest_even (shr_m mrs') (loc_of_shr_record mrs')
                 <= N * 2 ^ (- e')) as (mrs' & e' & Hshr1 & He' & Hm1).
  { unfold shr_fexp.
    pose proof (fexp_nonpos mx ex N Hmx Hex Hmx_le (proj2 HN)) as Hfexp.
    set (n := fexp PyFloat.prec PyFloat.emax (Zdigits2 mx + ex) - ex) in *.
    destruct (Z_le_gt_dec n 0) as [Hn|Hn].
    - rewrite shr_none by done. do 2 eexists. split; [reflexivity|].
      split; [done|].
      rewrite shr_m_shr_record_of_loc, loc_of_shr_record_of_loc.
      pose proof (round_nearest_even_bounds mx lx). lia.
    - destruct (shr_some mx lx ex n) as (mrs & Hs & Hm & Hexact); [done|lia|].
      rewrite Hs. do 2 eexists. split; [reflexivity|].
      assert (He1 : ex + n <= 0) by (subst n; lia).
      split; [done|].
      pose proof (round_nearest_even_bounds (shr_m mrs) (loc_of_shr_record mrs))
        as Hr.
      assert (0 < 2 ^ n) by (apply Z.pow_pos_nonneg; lia).
      assert (0 < 2 ^ (- (ex + n))) by (apply Z.pow_pos_nonneg; lia).
      assert (Hpow : 2 ^ (- ex) = 2 ^ (- (ex + n)) * 2 ^ n).
      { rewrite <- Z.pow_add_r by lia. f_equal. lia. }
      pose proof (Z.mul_div_le mx (2 ^ n) ltac:(lia)) as Hfloor.
      assert (0 <= mx / 2 ^ n) by (apply Z.div_pos; lia).
      rewrite Hm in *.
      split; [lia|].
      destruct (loc_of_shr_record mrs) eqn:Hloc.
      + (* exact after the shift *) nia.
      + (* inexact: the value lies strictly above the kept digits *)
        assert (2 ^ n * (mx / 2 ^ n)
                < (match lx with loc_Exact => mx | _ => mx + 1 end)) as Hstrict.
        { destruct lx as [|c0]; [|lia].
          destruct (Z.eq_dec (mx mod 2 ^ n) 0) as [Hz|Hnz].
          - specialize (Hexact eq_refl Hz). congruence.
          - pose proof (Z.div_mod mx (2 ^ n) ltac:(lia)).
            pose proof (Z.mod_pos_bound mx (2 ^ n) ltac:(lia)). lia. }
        nia. }
  unfold binary_round_aux. rewrite Hshr1.
  set (m1 := round_nearest_even (shr_m mrs') (loc_of_shr_record mrs')) in *.
  (* the second shift *)
  assert (exists mrs'' e'',
            shr_fexp PyFloat.prec PyFloat.emax m1 e' loc_Exact = (mrs'', e'')
            /\ e'' <= 0
            /\ 0 <= shr_m mrs'' <= N * 2 ^ (- e'')) as (mrs'' & e'' & Hshr2 & He'' & Hm2).
  { unfold shr_fexp.
    pose proof (fexp_nonpos m1 e' N (proj1 Hm1) He' (proj2 Hm1) (proj2 HN))
      as Hfexp.
    set (n := fexp PyFloat.prec PyFloat.emax (Zdigits2 m1 + e') - e') in *.
    destruct (Z_le_gt_dec n 0) as [Hn|Hn].
    - rewrite shr_none by done. do 2 eexists. split; [reflexivity|].
      split; [done|]. by rewrite shr_m_shr_record_of_loc.
    - destruct (shr_some m1 loc_Exact e' n) as (mrs & Hs & Hm & _); [lia|lia|].
      rewrite Hs. do 2 eexists. split; [reflexivity|].
      assert (He1 : e' + n <= 0) by (subst n; lia).
      split; [done|]. rewrite Hm.
      assert (0 < 2 ^ n) by (apply Z.pow_pos_nonneg; lia).
      assert (0 < 2 ^ (- (e' + n))) by (apply Z.pow_pos_nonneg; lia).
      assert (Hpow : 2 ^ (- e') = 2 ^ (- (e' + n)) * 2 ^ n).
      { rewrite <- Z.pow_add_r by lia. f_equal. lia. }
      pose proof (Z.mul_div_le m1 (2 ^ n) ltac:(lia)) as Hfloor.
      assert (0 <= m1 / 2 ^ n) by (apply Z.div_pos; lia).
      split; [done|]. nia. }
  rewrite Hshr2.
  destruct (shr_m mrs'') as [|m|m] eqn:Hm''.
  - split; [exact I | by left].
  - replace (e'' <=? PyFloat.emax - PyFloat.prec) with true
      by (symmetry; apply Z.leb_le; unfold PyFloat.emax, PyFloat.prec; lia).
    split; [split; [done | lia] | right; eauto].
  - lia.
Qed.

(** The integers from -255 to 255 convert exactly; checked one by one. *)
Lemma of_int_small_check :
  forallb (fun n => PyFloat.is_intb n (PyFloat.of_int n)) (seqZ (-255) 511)
  = true.
Proof. vm_compute. reflexivity. Qed.

Lemma of_int_small (n : Z) :
  -255 <= n <= 255 ->
  exists f, PyFloat.of_int n = Ok f /\ PyFloat.is_int n f.
Proof.
  intros Hn. pose proof of_int_small_check as Hall.
  rewrite forallb_forall in Hall.
  specialize (Hall n). 
  assert (Hin : In n (seqZ (-255) 511)).
  { apply list_elem_of_In, elem_of_seqZ. lia. }
  specialize (Hall Hin). unfold PyFloat.is_intb in Hall.
  destruct (PyFloat.of_int n) as [[s| |  |s m e]|]; try discriminate.
  - eexists. split; [reflexivity|]. cbn.
    apply andb_true_iff in Hall as [H1 H2].
    apply bool_decide_eq_true_1 in H1. destruct s; done.
  - eexists. split; [reflexivity|]. cbn.
    apply andb_true_iff in Hall as [H12 H3].
    apply andb_true_iff in H12 as [H1 H2].
    apply bool_decide_eq_true_1 in H1, H2, H3. done.
Qed.

(** [x / w] is a float between 0 and 1 when [0 <= x < w]. *)
Lemma true_divide_ratio (x w : Z) :
  0 <= x < w ->
  exists r, PyFloat.true_divide x w = Ok r /\ PyFloat.is_ratio r.
Proof.
  intros Hx. unfold PyFloat.true_divide.
  rewrite bool_decide_eq_false_2 by lia.
  destruct w as [|pw|pw]; [lia| |lia].
  destruct x as [|px|px]; [|  |lia].
  - eexists. split; [reflexivity|]. by left.
  - cbn [PyFloat.exact_int SFdiv xorb]. unfold SFdiv_core_binary.
    set (e' := Z.min (fexp PyFloat.prec PyFloat.emax
                        (Zdigits2 (Z.pos px) + 0 - (Zdigits2 (Z.pos pw) + 0)))
                     (0 - 0)).
    assert (He' : e' <= 0) by (subst e'; lia).
    set (m' := match 0 - 0 - e' with
               | 0 => Z.pos px
               | Z.pos _ => Z.shiftl (Z.pos px) (0 - 0 - e')
               | Z.neg _ => 0
               end).
    assert (Hm' : m' = Z.pos px * 2 ^ (- e')).
    { subst m'. replace (0 - 0 - e') with (- e') by lia.
      destruct (- e') as [|s|s] eqn:Hs; [lia| |lia].
      rewrite Z.shiftl_mul_pow2 by lia. done. }
    pose proof (Z_div_mod m' (Z.pos pw) ltac:(lia)) as Hdm.
    destruct (Z.div_eucl m' (Z.pos pw)) as [q r]. destruct Hdm as [Hq Hr].
    assert (0 < 2 ^ (- e')) by (apply Z.pow_pos_nonneg; lia).
    assert (Hq0 : 0 <= q) by nia.
    assert (Hq1 : q + 1 <= 1 * 2 ^ (- e')) by nia.
    destruct (binary_round_aux_below false q e'
                (new_location (Z.pos pw) r) 1) as [Hbelow Hshape];
      [done | done | lia | destruct (new_location (Z.pos pw) r); lia |].
    destruct Hshape as [Hz|(m & e & Hf)].
    + rewrite Hz. eexists. split; [reflexivity|]. by left.
    + rewrite Hf in *. eexists. split; [reflexivity|]. right. eauto.
Qed.

(** [n * ratio] lies between 0 and [n]. *)
Lemma mul_within (n : Z) (d r : spec_float) :
  -255 <= n <= 255 -> PyFloat.is_int n d -> PyFloat.is_ratio r ->
  PyFloat.within (bool_decide (n < 0)) (Z.abs n) (PyFloat.mul d r).
Proof.
  intros Hn Hd Hr. unfold PyFloat.mul.
  destruct d as [sd| | |sd md ed]; try done.
  - left. destruct Hr as [->|(m & e & -> & _)]; cbn; eauto.
  - destruct Hd as (Hed & Hmd & Hsd).
    destruct Hr as [->|(mr & er & -> & Her & Hmr)]; [left; cbn; eauto|].
    cbn [SFmul]. rewrite xorb_false_r.
    assert (0 < 2 ^ (- ed)) by (apply Z.pow_pos_nonneg; lia).
    assert (0 < 2 ^ (- er)) by (apply Z.pow_pos_nonneg; lia).
    assert (Hn1 : 1 <= Z.abs n) by nia.
    destruct (binary_round_aux_below sd (Z.pos (md * mr)) (ed + er)
                loc_Exact (Z.abs n)) as [Hbelow Hshape].
    + lia.
    + lia.
    + change (2 ^ 53) with 9007199254740992. lia.
    + replace (- (ed + er)) with (- ed + - er) by lia.
      rewrite Z.pow_add_r, Pos2Z.inj_mul by lia. nia.
    + destruct Hshape as [Hz|(m & e & Hf)].
      * left. eauto.
      * right. exists m, e. rewrite Hf in *. by rewrite <- Hsd.
Qed.

(** Aligning a mantissa to a smaller exponent keeps the value. *)
Lemma shl_align_spec (m : positive) (e e' : Z) :
  snd (shl_align m e e') = Z.min e e'
  /\ Zpos (fst (shl_align m e e')) = Zpos m * 2 ^ (e - Z.min e e').
Proof.
  unfold shl_align. destruct (e' - e) as [|d|d] eqn:Hd; cbn [fst snd].
  - replace (Z.min e e') with e by lia. rewrite Z.sub_diag. lia.
  - replace (Z.min e e') with e by lia. rewrite Z.sub_diag. lia.
  - replace (Z.min e e') with e' by lia. split; [done|].
    replace (e - e') with (Z.pos d) by lia.
    pose proof (Zpower.shift_pos_correct d m) as Hs.
    unfold Zpower.shift_pos in Hs. rewrite Hs.
    change (Zpower_pos 2 d) with (2 ^ Z.pos d). lia.
Qed.

(** [int(f)] of a non-negative float that is at most [N]. *)
Lemma to_int_below (N : Z) (m : positive) (e : Z) :
  PyFloat.below N (S754_finite false m e) ->
  exists v, PyFloat.to_int (S754_finite false m e) = Ok v /\ 0 <= v <= N.
Proof.
  intros [He Hm]. eexists. split; [reflexivity|]. cbn [cond_Zopp].
  assert (0 < 2 ^ (- e)) by (apply Z.pow_pos_nonneg; lia).
  rewrite Z.shiftl_div_pow2 by lia.
  split; [apply Z.div_pos; lia|].
  apply Z.div_le_upper_bound; lia.
Qed.

Lemma to_int_is_int (n : Z) (f : spec_float) :
  0 <= n -> PyFloat.is_int n f -> PyFloat.to_int f = Ok n.
Proof.
  intros Hn Hf. destruct f as [s| | |s m e]; try done.
  - destruct Hf as [-> _]. done.
  - destruct Hf as (He & Hm & ->). cbn [PyFloat.to_int].
    rewrite bool_decide_eq_false_2 by lia. cbn [cond_Zopp].
    assert (0 < 2 ^ (- e)) by (apply Z.pow_pos_nonneg; lia).
    rewrite Z.shiftl_div_pow2, Hm, Z.abs_eq by lia.
    by rewrite Z.div_mul by lia.
Qed.

(** [int(c1 + p)] for a product [p] between [0] and [c2 - c1]. *)
Lemma add_to_int (c1 c2 : Z) (a p : spec_float) :
  0 <= c1 <= 255 -> 0 <= c2 <= 255 ->
  PyFloat.is_int c1 a ->
  PyFloat.within (bool_decide (c2 - c1 < 0)) (Z.abs (c2 - c1)) p ->
  exists v, PyFloat.to_int (PyFloat.add a p) = Ok v /\ 0 <= v <= 255.
Proof.
  intros Hc1 Hc2 Ha Hp. unfold PyFloat.add.
  destruct a as [sa| | |sa ma ea]; try done.
  - (* c1 = 0 *)
    destruct Ha as [-> ->].
    destruct Hp as [[sp ->]|(mp & ep & -> & Hb)].
    + exists 0. split; [by destruct sp | lia].
    + cbn [SFadd]. rewrite bool_decide_eq_false_2 in * by lia.
      destruct (to_int_below _ _ _ Hb) as (v & Hv & Hr).
      exists v. split; [done | lia].
  - destruct Ha as (Hea & Hma & ->).
    rewrite bool_decide_eq_false_2 by lia.
    destruct Hp as [[sp ->]|(mp & ep & -> & Hep & Hmp)].
    + cbn [SFadd]. exists c1. split; [|lia].
      apply to_int_is_int; [lia|]. repeat split; try done.
      by rewrite bool_decide_eq_false_2 by lia.
    + cbn [SFadd].
      set (ez := Z.min ea ep).
      destruct (shl_align_spec ma ea ez) as [_ HA].
      destruct (shl_align_spec mp ep ez) as [_ HP].
      replace (Z.min ea ez) with ez in HA by lia.
      replace (Z.min ep ez) with ez in HP by lia.
      set (A := Z.pos (fst (shl_align ma ea ez))) in *.
      set (P := Z.pos (fst (shl_align mp ep ez))) in *.
      assert (Hez : ez <= 0) by lia.
      assert (0 < 2 ^ (- ez)) by (apply Z.pow_pos_nonneg; lia).
      assert (0 < 2 ^ (- ea)) by (apply Z.pow_pos_nonneg; lia).
      assert (0 < 2 ^ (- ep)) by (apply Z.pow_pos_nonneg; lia).
      assert (0 < 2 ^ (ea - ez)) by (apply Z.pow_pos_nonneg; lia).
      assert (0 < 2 ^ (ep - ez)) by (apply Z.pow_pos_nonneg; lia).
      assert (HA' : A = c1 * 2 ^ (- ez)).
      { rewrite HA, Hma, Z.abs_eq by lia.
        rewrite <- Z.mul_assoc, <- Z.pow_add_r by lia. do 2 f_equal. lia. }
      assert (HP' : P <= Z.abs (c2 - c1) * 2 ^ (- ez)).
      { rewrite HP.
        replace (- ez) with (- ep + (ep - ez)) by lia.
        rewrite Z.pow_add_r by lia. nia. }
      cbn [cond_Zopp].
      set (M := A + cond_Zopp (bool_decide (c2 - c1 < 0)) P).
      assert (HM : 0 <= M <= 255 * 2 ^ (- ez)).
      { subst M. destruct (decide (c2 - c1 < 0)) as [Hneg|Hpos].
        - rewrite bool_decide_eq_true_2 by done. cbn [cond_Zopp]. nia.
        - rewrite bool_decide_eq_false_2 by done. cbn [cond_Zopp]. nia. }
      destruct M as [|pm|pm] eqn:HMeq; [|  |lia].
      * exists 0. split; [done | lia].
      * cbn [binary_normalize]. unfold binary_round.
        destruct (shl_align_spec pm ez
                    (fexp PyFloat.prec PyFloat.emax
                       (Z.pos (digits2_pos pm) + ez))) as [He Hm].
        destruct (shl_align pm ez
                    (fexp PyFloat.prec PyFloat.emax
                       (Z.pos (digits2_pos pm) + ez))) as [mz ez'].
        cbn [fst snd] in He, Hm.
        assert (ez' <= ez) by lia.
        assert (0 < 2 ^ (ez - ez')) by (apply Z.pow_pos_nonneg; lia).
        assert (0 < 2 ^ (- ez')) by (apply Z.pow_pos_nonneg; lia).
        destruct (binary_round_aux_below false (Z.pos mz) ez' loc_Exact 255)
          as [Hbelow Hshape].
        -- lia.
        -- lia.
        -- change (2 ^ 53) with 9007199254740992. lia.
        -- rewrite Hm. rewrite <- He.
           replace (- ez') with (- ez + (ez - ez')) by lia.
           rewrite Z.pow_add_r by lia. nia.
        -- destruct Hshape as [Hz|(m & e & Hf)].
           ++ rewrite Hz. exists 0. split; [done | lia].
           ++ rewrite Hf in *. by apply to_int_below.
Qed.

End FloatBounds.

(** ** The gradient *)

Section GradientProperties.
Import Generator.

(** [int(c1 + (c2 - c1) * ratio)] stays a channel value. *)
Lemma lerp_channel_range (c1 c2 : Z) (ratio : PyFloat.float) :
  0 <= c1 <= 255 -> 0 <= c2 <= 255 -> PyFloat.is_ratio ratio ->
  exists v, lerp_channel c1 c2 ratio = Ok v /\ 0 <= v <= 255.
Proof.
  intros Hc1 Hc2 Hr. unfold lerp_channel.
  destruct (of_int_small (c2 - c1)) as (d & -> & Hd); [lia|].
  destruct (of_int_small c1) as (a & -> & Ha); [lia|].
  cbn [rbind]. apply (add_to_int c1 c2); [done | done | done |].
  apply mul_within; [lia | done | done].
Qed.

Lemma gradient_ratio_ok (width height : Z) (direction : string) (x y : Z) :
  0 <= x < width -> 0 <= y < height ->
  exists ratio,
    gradient_ratio width height direction x y = Ok ratio
    /\ PyFloat.is_ratio ratio.
Proof.
  intros Hx Hy. unfold gradient_ratio.
  destruct (bool_decide (direction = "horizontal")); by apply true_divide_ratio.
Qed.

Lemma gradient_pixel_ok (width height : Z) (color1 color2 : rgb)
  (direction : string) (x y : Z) :
  0 <= x < width -> 0 <= y < height ->
  byte_channels color1 -> byte_channels color2 ->
  exists ratio r g b,
    gradient_ratio width height direction x y = Ok ratio
    /\ lerp_channel color1.1.1 color2.1.1 ratio = Ok r
    /\ lerp_channel color1.1.2 color2.1.2 ratio = Ok g
    /\ lerp_channel color1.2 color2.2 ratio = Ok b
    /\ gradient_pixel width height color1 color2 direction x y = Ok (r, g, b)
    /\ byte_channels (r, g, b).
Proof.
  intros Hx Hy H1 H2.
  destruct color1 as [[r1 g1] b1], color2 as [[r2 g2] b2].
  destruct H1 as (Hr1 & Hg1 & Hb1), H2 as (Hr2 & Hg2 & Hb2).
  destruct (gradient_ratio_ok width height direction x y Hx Hy)
    as (ratio & Hratio & Hunit).
  destruct (lerp_channel_range r1 r2 ratio Hr1 Hr2 Hunit) as (r & Hr & Hrr).
  destruct (lerp_channel_range g1 g2 ratio Hg1 Hg2 Hunit) as (g & Hg & Hgr).
  destruct (lerp_channel_range b1 b2 ratio Hb1 Hb2 Hunit) as (b & Hb & Hbr).
  exists ratio, r, g, b. cbn [fst snd].
  split; [done|]. split; [done|]. split; [done|]. split; [done|].
  split; [|done].
  unfold gradient_pixel. rewrite Hratio. cbn [rbind].
  rewrite Hr. cbn [rbind]. rewrite Hg. cbn [rbind]. by rewrite Hb.
Qed.

(** The gradient, cell by cell. *)
Lemma create_gradient_image_cells (width height : Z)
  (color1 color2 : rgb) (direction : string) :
  0 <= width -> 0 <= height ->
  byte_channels color1 -> byte_channels color2 ->
  exists img,
    create_gradient_image width height color1 color2 direction = Ok img
    /\ im_width img = width /\ im_height img = height
    /\ forall x y, 0 <= x < width -> 0 <= y < height ->
         gradient_pixel width height color1 color2 direction x y
         = getpixel img x y.
Proof.
  intros Hw Hh H1 H2. unfold create_gradient_image.
  rewrite Image_new_ok by lia. cbn [rbind].
  destruct (paint_rows (gradient_pixel width height color1 color2 direction)
              (fun x y =>
                 match gradient_pixel width height color1 color2 direction x y
                 with
                 | Ok c => c
                 | Raise _ => (0, 0, 0)
                 end)
              (range width) (range height) (Image width height ∅))
    as (img & Hrun & Hiw & Hih & Hcells).
  { intros y Hy. by apply range_elem in Hy. }
  { intros x Hx. by apply range_elem in Hx. }
  { intros x y Hx%range_elem Hy%range_elem.
    destruct (gradient_pixel_ok width height color1 color2 direction x y)
      as (ratio & r & g & b & _ & _ & _ & _ & -> & _); done. }
  exists img. split; [done|]. cbn in Hiw, Hih. split; [done|]. split; [done|].
  intros x y Hx Hy.
  destruct (gradient_pixel_ok width height color1 color2 direction x y)
    as (ratio & r & g & b & _ & _ & _ & _ & Hpix & _); try done.
  rewrite Hpix. symmetry.
  apply getpixel_inside; [lia | lia |].
  rewrite Hcells, decide_True by (split; by apply range_elem).
  by rewrite Hpix.
Qed.

(** C6: in a gradient image with positive width and height and endpoint
    channels in [0,255], the pixel at [(x, y)] has the channels
    [int(c1 + (c2 - c1) * ratio)] computed in floating point, where [ratio]
    is [x / width] for the horizontal direction and [y / height] otherwise,
    and each of them is an integer in [0,255]. *)
Theorem create_gradient_image_interpolates (width height : Z)
  (color1 color2 : rgb) (direction : string) :
  0 < width -> 0 < height ->
  byte_channels color1 -> byte_channels color2 ->
  exists img,
    create_gradient_image width height color1 color2 direction = Ok img
    /\ forall x y, 0 <= x < width -> 0 <= y < height ->
         exists ratio r g b,
           (if bool_decide (direction = "horizontal")
            then PyFloat.true_divide x width
            else PyFloat.true_divide y height) = Ok ratio
           /\ lerp_channel color1.1.1 color2.1.1 ratio = Ok r
           /\ lerp_channel color1.1.2 color2.1.2 ratio = Ok g
           /\ lerp_channel color1.2 color2.2 ratio = Ok b
           /\ getpixel img x y = Ok (r, g, b)
           /\ 0 <= r <= 255 /\ 0 <= g <= 255 /\ 0 <= b <= 255.
Proof.
  intros Hw Hh H1 H2.
  destruct (create_gradient_image_cells width height color1 color2 direction)
    as (img & Hrun & _ & _ & Hcells); [lia | lia | done | done |].
  exists img. split; [exact Hrun|].
  intros x y Hx Hy.
  destruct (gradient_pixel_ok width height color1 color2 direction x y)
    as (ratio & r & g & b & Hratio & Hr & Hg & Hb & Hpix & Hrange); try done.
  exists ratio, r, g, b.
  split; [exact Hratio|]. split; [done|]. split; [done|]. split; [done|].
  split; [|exact Hrange].
  by rewrite <- Hcells, Hpix.
Qed.

Lemma create_gradient_image_interpolates_witness :
  exists img,
    create_gradient_image 320 200 (135, 206, 235) (25, 25, 112) "vertical"
    = Ok img
    /\ getpixel img 40 199 = Ok (25, 25, 112)
    /\ getpixel img 39 39 = Ok (113, 170, 211).
Proof.
  destruct (create_gradient_image_interpolates 320 200 (135, 206, 235)
              (25, 25, 112) "vertical") as (img & Hrun & Hpix);
    [lia | lia | cbn; lia | cbn; lia |].
  exists img. split; [exact Hrun|]. split.
  - destruct (Hpix 40 199) as (ratio & r & g & b & Hratio & Hr & Hg & Hb & Hget & _);
      [lia | lia |].
    vm_compute in Hratio. injection Hratio as <-.
    vm_compute in Hr, Hg, Hb.
    injection Hr as <-. injection Hg as <-. injection Hb as <-. exact Hget.
  - destruct (Hpix 39 39) as (ratio & r & g & b & Hratio & Hr & Hg & Hb & Hget & _);
      [lia | lia |].
    vm_compute in Hratio. injection Hratio as <-.
    vm_compute in Hr, Hg, Hb.
    injection Hr as <-. injection Hg as <-. injection Hb as <-. exact Hget.
Defined.

End GradientProperties.

(** ** Dimensions and failures *)

Section DimensionProperties.
Import Generator.

Lemma for_each_no_columns {S} (ys : list Z)
  (body : Z -> Z -> S -> result S) (s : S) :
  for_each ys (fun y => for_each [] (body y)) s = Ok s.
Proof. induction ys as [|y ys IH]; [done|]. cbn [for_each rbind]. exact IH. Qed.

Lemma paint_nothing (pixel : Z -> Z -> result rgb) (width height : Z)
  (img : image) :
  width <= 0 \/ height <= 0 ->
  for_each (range height) (fun y =>
    for_each (range width) (fun x img => c <~ pixel x y ;; putpixel x y c img))
    img
  = Ok img.
Proof.
  intros [Hw|Hh].
  - rewrite (range_nil width) by done.
    apply (for_each_no_columns _
             (fun y x img => c <~ pixel x y ;; putpixel x y c img)).
  - by rewrite (range_nil height).
Qed.

(** C7, the claim as stated fails: a zero width or height is no failure for
    either generator, and the tiled pattern has an error path with valid
    dimensions. *)
Lemma invalid_dimensions_counterexample :
  create_gradient_image 0 5 (135, 206, 235) (25, 25, 112) "vertical"
  = Ok (Image 0 5 ∅)
  /\ create_pattern_image 5 0 colors = Ok (Image 5 0 ∅)
  /\ create_pattern_image 1 1 [] = Raise ZeroDivisionError.
Proof. split; [|split]; vm_compute; reflexivity. Qed.

(** C7 (amended): synthetic generation has no dimension check of its own.
    A negative width or height is refused by [Image.new] with [ValueError].
    For sides up to [max_side]: with a zero width or height and no negative
    side both generators return the empty image; and invalid dimensions are
    not the only error path: with positive width and height the tiled
    pattern raises [ZeroDivisionError] when the colour list is empty and
    returns an image when it is a non-empty list of colours with channels
    in 0..255, and the gradient between two colours with channels in
    0..255 returns an image. *)
Theorem synthetic_generation_failures (width height : Z)
  (color1 color2 : rgb) (direction : string) (colors : list rgb) :
  (width < 0 \/ height < 0 ->
     create_gradient_image width height color1 color2 direction
     = Raise ValueError
     /\ create_pattern_image width height colors = Raise ValueError)
  /\ (0 <= width <= max_side -> 0 <= height <= max_side ->
      width = 0 \/ height = 0 ->
      create_gradient_image width height color1 color2 direction
      = Ok (Image width height ∅)
      /\ create_pattern_image width height colors = Ok (Image width height ∅))
  /\ (0 < width <= max_side -> 0 < height <= max_side -> colors = [] ->
      create_pattern_image width height colors = Raise ZeroDivisionError)
  /\ (0 < width <= max_side -> 0 < height <= max_side ->
      colors <> [] -> Forall byte_channels colors ->
      exists img, create_pattern_image width height colors = Ok img)
  /\ (0 < width <= max_side -> 0 < height <= max_side ->
      byte_channels color1 -> byte_channels color2 ->
      exists img,
        create_gradient_image width height color1 color2 direction = Ok img).
Proof.
  split; [|split; [|split; [|split]]].
  - intros Hneg. unfold create_gradient_image, create_pattern_image.
    by rewrite (Image_new_negative _ _ Hneg).
  - intros Hw Hh Hzero. unfold create_gradient_image, create_pattern_image.
    rewrite Image_new_ok by lia. cbn [rbind].
    split.
    + apply (paint_nothing
               (gradient_pixel width height color1 color2 direction)). lia.
    + apply (paint_nothing (pattern_pixel colors)). lia.
  - intros Hw Hh ->. apply create_pattern_image_no_colors; lia.
  - intros Hw Hh Hcol _.
    destruct (create_pattern_image_cells width height colors)
      as (img & Hrun & _); [lia | lia | done |]. eauto.
  - intros Hw Hh H1 H2.
    destruct (create_gradient_image_cells width height color1 color2 direction)
      as (img & Hrun & _); [lia | lia | done | done |]. eauto.
Qed.

Lemma synthetic_generation_failures_witness :
  create_gradient_image (-1) 2 (0, 0, 0) (255, 255, 255) "horizontal"
  = Raise ValueError
  /\ create_pattern_image 0 2 colors = Ok (Image 0 2 ∅)
  /\ create_pattern_image 2 2 [] = Raise ZeroDivisionError
  /\ (exists img, create_pattern_image 2 2 colors = Ok img)
  /\ (exists img,
        create_gradient_image 2 2 (0, 0, 0) (255, 255, 255) "horizontal"
        = Ok img).
Proof.
  split; [|split; [|split; [|split]]].
  - apply (synthetic_generation_failures (-1) 2 (0, 0, 0) (255, 255, 255)
             "horizontal" colors). lia.
  - apply (synthetic_generation_failures 0 2 (0, 0, 0) (255, 255, 255)
             "horizontal" colors); unfold max_side; lia.
  - apply (synthetic_generation_failures 2 2 (0, 0, 0) (255, 255, 255)
             "horizontal" []);
      [unfold max_side; lia | unfold max_side; lia | reflexivity].
  - apply (synthetic_generation_failures 2 2 (0, 0, 0) (255, 255, 255)
             "horizontal" colors);
      [unfold max_side; lia | unfold max_side; lia | discriminate
      | apply colors_bytes].
  - apply (synthetic_generation_failures 2 2 (0, 0, 0) (255, 255, 255)
             "horizontal" colors);
      [unfold max_side; lia | unfold max_side; lia | cbn; lia | cbn; lia].
Defined.

End DimensionProperties.

(** ** The normalizer *)

Section NormalizerProperties.
Import Normalizer.
Context (lib : imaging).

Lemma convert_one_undecodable (img_name : string) (data : list byte)
  (e : exn) (w : world) :
  files w !! image_path img_name = Some data ->
  (img <~ Image_open lib data ;; to_rgb lib img) = Raise e ->
  convert_one lib img_name w
  = (World (files w) (stdout w ++ ["Converting " +:+ img_name +:+ "..."]),
     Raise e).
Proof.
  intros Hsome Hbad. unfold convert_one, bind, path_exists, print, read_file, lift.
  cbn [files]. rewrite bool_decide_eq_true_2 by (rewrite Hsome; eauto).
  cbn [negb files]. rewrite Hsome.
  destruct (Image_open lib data) as [img|e']; cbn [rbind] in Hbad.
  - by rewrite Hbad.
  - by injection Hbad as ->.
Qed.

Lemma convert_one_converted (img_name : string) (data out : list byte)
  (img : pil_image lib) (w : world) :
  files w !! image_path img_name = Some data ->
  (opened <~ Image_open lib data ;; to_rgb lib opened) = Ok img ->
  Image_save_jpeg lib img convert_kwargs = Ok out ->
  convert_one lib img_name w
  = (World (<[image_path img_name := out]> (files w))
       (stdout w ++ ["Converting " +:+ img_name +:+ "..."]
          ++ ["  ✓ Converted " +:+ img_name +:+ " to baseline JPEG"]),
     Ok tt).
Proof.
  intros Hsome Hdec Hsave.
  unfold convert_one, bind, path_exists, print, read_file, lift, save_jpeg.
  cbn [files]. rewrite bool_decide_eq_true_2 by (rewrite Hsome; eauto).
  cbn [negb files stdout]. rewrite Hsome.
  destruct (Image_open lib data) as [img0|e']; cbn [rbind] in Hdec; [|done].
  rewrite Hdec, Hsave. cbn [files stdout]. by rewrite <- app_assoc.
Qed.

Lemma convert_one_save_failed (img_name : string) (data : list byte)
  (img : pil_image lib) (e : exn) (w : world) :
  files w !! image_path img_name = Some data ->
  (opened <~ Image_open lib data ;; to_rgb lib opened) = Ok img ->
  Image_save_jpeg lib img convert_kwargs = Raise e ->
  convert_one lib img_name w
  = (World (match Image_save_failed lib img convert_kwargs with
            | Some partial => <[image_path img_name := partial]> (files w)
            | None => files w
            end)
       (stdout w ++ ["Converting " +:+ img_name +:+ "..."]),
     Raise e).
Proof.
  intros Hsome Hdec Hsave.
  unfold convert_one, bind, path_exists, print, read_file, lift, save_jpeg.
  cbn [files]. rewrite bool_decide_eq_true_2 by (rewrite Hsome; eauto).
  cbn [negb files stdout]. rewrite Hsome.
  destruct (Image_open lib data) as [img0|e']; cbn [rbind] in Hdec; [|done].
  by rewrite Hdec, Hsave.
Qed.





Lemma save_baseline_jpeg_run (img img' : pil_image lib) (filename : string)
  (out : list byte) (w : world) :
  to_rgb lib img = Ok img' ->
  Image_save_jpeg lib img' save_baseline_kwargs = Ok out ->
  save_baseline_jpeg lib img filename w
  = (World (<[filename := out]> (files w))
       (stdout w ++ ["Created " +:+ filename +:+ " ("
                       +:+ str_of_nat (length out) +:+ " bytes)"]),
     Ok tt).
Proof.
  intros Hrgb Hsave.
  unfold save_baseline_jpeg, bind, lift, save_jpeg, read_file, print.
  rewrite Hrgb, Hsave. cbn [files stdout]. by rewrite lookup_insert_eq.
Qed.

(** C2 (amended): the normalizer takes no chroma request.  Whatever image
    it converts, the conversion loop stores the encoder's answer to the fixed
    arguments [quality=85, optimize=False, progressive=False, exif=b''],
    which name no subsampling and so leave the chroma mode to the encoder;
    [save_baseline_jpeg] always stores the answer to [subsampling=0], that
    is 4:4:4. *)
Theorem chroma_mode_is_fixed (w : world) (img_name filename : string)
  (data out out' : list byte) (img img' : pil_image lib) :
  files w !! image_path img_name = Some data ->
  (opened <~ Image_open lib data ;; to_rgb lib opened) = Ok img ->
  to_rgb lib img = Ok img' ->
  Image_save_jpeg lib img convert_kwargs = Ok out ->
  Image_save_jpeg lib img' save_baseline_kwargs = Ok out' ->
  (snd (convert_one lib img_name w) = Ok tt
   /\ files (fst (convert_one lib img_name w)) !! image_path img_name = Some out
   /\ requested_chroma convert_kwargs = None)
  /\ (snd (save_baseline_jpeg lib img filename w) = Ok tt
      /\ files (fst (save_baseline_jpeg lib img filename w)) !! filename
         = Some out'
      /\ requested_chroma save_baseline_kwargs = Some Chroma444).
Proof.
  intros Hsome Hdec Hrgb Hsave Hsave'. split.
  - rewrite (convert_one_converted _ _ _ _ _ Hsome Hdec Hsave).
    cbn [fst snd files]. by rewrite lookup_insert_eq.
  - rewrite (save_baseline_jpeg_run _ _ _ _ _ Hrgb Hsave').
    cbn [fst snd files]. by rewrite lookup_insert_eq.
Qed.

End NormalizerProperties.

Section NormalizerExamples.
Import Normalizer.


(** C2, the claim as stated fails.  Take an encoder that does exactly what
    it is asked and uses 4:2:0 when the call names no mode.  The
    conversion loop then turns a file that is wanted in 4:4:4 into a 4:2:0
    stream, and [save_baseline_jpeg] writes a 4:4:4 stream where 4:2:0 is
    wanted: neither script has a way to pass the wanted mode on. *)
Lemma chroma_request_counterexample :
  let lib := honouring_imaging Chroma420 in
  let w := World {[ "bootstrap_images/a.jpg" := [x01; x02]%byte ]} [] in
  let converted :=
    files (fst (convert_one lib "a.jpg" w)) !! image_path "a.jpg" in
  let saved :=
    files (fst (save_baseline_jpeg lib [x01; x02]%byte
                  "bootstrap_images/b.jpg" w))
      !! "bootstrap_images/b.jpg" in
  snd (convert_one lib "a.jpg" w) = Ok tt
  /\ stream_chroma <$> converted = Some (Some Chroma420)
  /\ stream_chroma <$> converted <> Some (Some Chroma444)
  /\ snd (save_baseline_jpeg lib [x01; x02]%byte "bootstrap_images/b.jpg" w)
     = Ok tt
  /\ stream_chroma <$> saved = Some (Some Chroma444)
  /\ stream_chroma <$> saved <> Some (Some Chroma420).
Proof.
  intros lib w converted saved.
  assert (Hc : stream_chroma <$> converted = Some (Some Chroma420))
    by (vm_compute; reflexivity).
  assert (Hs : stream_chroma <$> saved = Some (Some Chroma444))
    by (vm_compute; reflexivity).
  split; [vm_compute; reflexivity|]. split; [exact Hc|].
  split; [rewrite Hc; discriminate|].
  split; [vm_compute; reflexivity|]. split; [exact Hs|].
  rewrite Hs. discriminate.
Qed.

Lemma chroma_mode_is_fixed_witness :
  let w := World {[ "bootstrap_images/a.jpg" := [x01; x02]%byte ]} [] in
  files (fst (convert_one example_imaging "a.jpg" w))
    !! image_path "a.jpg" = Some [xff; xd8; x01; x02; xff; xd9]%byte
  /\ files (fst (save_baseline_jpeg example_imaging [x01; x02]%byte
                   "bootstrap_images/square.jpg" w))
       !! "bootstrap_images/square.jpg"
     = Some [xff; xd8; x01; x02; xff; xd9]%byte.
Proof.
  intros w.
  assert (Hsome : files w !! image_path "a.jpg" = Some [x01; x02]%byte)
    by (vm_compute; reflexivity).
  destruct (chroma_mode_is_fixed example_imaging w "a.jpg"
              "bootstrap_images/square.jpg" [x01; x02]%byte
              [xff; xd8; x01; x02; xff; xd9]%byte
              [xff; xd8; x01; x02; xff; xd9]%byte
              [x01; x02]%byte [x01; x02]%byte
              Hsome eq_refl eq_refl eq_refl eq_refl)
    as ((_ & Ha & _) & (_ & Hb & _)).
  split; [exact Ha | exact Hb].
Defined.

End NormalizerExamples.

(** * Further properties *)

(** ** The rows of a declaration *)

Section EmbedderRows.
Import Embedder EmbedderFacts.

Lemma rows_text_chunks (data : list byte) :
  rows_text data = row_text <$> row_chunks data.
Proof. unfold rows_text, row_chunks. by rewrite <- list_fmap_compose. Qed.

Lemma row_chunks_cons (data : list byte) :
  data <> [] ->
  row_chunks data = take 16 data :: row_chunks (drop 16 data).
Proof.
  intros Hne. unfold row_chunks.
  rewrite range_step_16_cons by (destruct data; [done | cbn; lia]).
  cbn [fmap list_fmap]. f_equal.
  rewrite length_drop, <- list_fmap_compose.
  apply list_fmap_ext. intros i x _. cbn. unfold slice.
  rewrite drop_drop. do 2 f_equal; lia.
Qed.

Lemma concat_row_chunks (data : list byte) :
  concat (row_chunks data) = data.
Proof.
  remember (length data) as n eqn:Hn.
  revert data Hn. induction (lt_wf n) as [n _ IH]. intros data ->.
  destruct (decide (data = [])) as [->|Hne]; [done|].
  rewrite row_chunks_cons by done. cbn [concat].
  assert (length (drop 16 data) < length data)%nat as Hlt
    by (rewrite length_drop; destruct data; [done | cbn; lia]).
  rewrite (IH _ Hlt _ eq_refl). apply take_drop.
Qed.

Lemma row_chunks_lookup (data : list byte) (k : nat) (chunk : list byte) :
  row_chunks data !! k = Some chunk ->
  chunk = take 16 (drop (16 * k) data) /\ (16 * k < length data)%nat.
Proof.
  unfold row_chunks, range_step. rewrite !list_lookup_fmap.
  intros Hk. destruct (seq 0 ((length data + 16 - 1) / 16) !! k) as [j|] eqn:Hj;
    [|done].
  apply lookup_seq in Hj as [-> Hlt]. cbn in Hk. injection Hk as <-.
  split.
  - unfold slice. f_equal; [lia | f_equal; lia].
  - destruct (decide (16 * k < length data)%nat) as [|Hge]; [done|].
    assert (((length data + 16 - 1) / 16 < S k)%nat)
      by (apply Nat.Div0.div_lt_upper_bound; lia).
    lia.
Qed.

(** X1: the row loop cuts the data into consecutive chunks, one per row:
    the chunks put end to end are the data, no row is empty, no row has more
    than 16 bytes, and every row but the last has exactly 16. *)
Theorem rows_of_sixteen (data : list byte) :
  rows_text data = row_text <$> row_chunks data
  /\ concat (row_chunks data) = data
  /\ forall k chunk, row_chunks data !! k = Some chunk ->
       (0 < length chunk <= 16)%nat
       /\ ((S k < length (row_chunks data))%nat -> length chunk = 16%nat).
Proof.
  split; [apply rows_text_chunks|]. split; [apply concat_row_chunks|].
  intros k chunk Hk. destruct (row_chunks_lookup _ _ _ Hk) as [-> Hlt].
  rewrite length_take, length_drop. split; [lia|].
  intros Hnext.
  destruct (lookup_lt_is_Some_2 (row_chunks data) (S k) Hnext) as [next Hn].
  apply row_chunks_lookup in Hn as [_ Hn]. lia.
Qed.

End EmbedderRows.

(** ** Distinct data give distinct declarations *)

Section EmbedderInjective.
Import Embedder EmbedderFacts.

Lemma before_brace_item (b : byte) (rest : string) :
  before_brace (format_byte b +:+ rest) = format_byte b +:+ before_brace rest.
Proof. destruct b; reflexivity. Qed.

Lemma before_brace_chunk (chunk : list byte) (rest : string) :
  before_brace (String.concat ", " (format_byte <$> chunk) +:+ rest)
  = String.concat ", " (format_byte <$> chunk) +:+ before_brace rest.
Proof.
  induction chunk as [|b chunk IH]; [done|].
  destruct chunk as [|b' chunk].
  - cbn [fmap list_fmap String.concat]. apply before_brace_item.
  - change (String.concat ", " (format_byte <$> b :: b' :: chunk))
      with (format_byte b +:+ ", "
              +:+ String.concat ", " (format_byte <$> b' :: chunk)).
    rewrite !string_app_assoc, before_brace_item.
    change (", " +:+ ?s) with (String "," (String " " s)).
    cbn [before_brace]. rewrite !bool_decide_eq_false_2 by done.
    by rewrite IH.
Qed.

Lemma before_brace_row (chunk : list byte) (rest : string) :
  before_brace (row_text chunk +:+ rest) = row_text chunk +:+ before_brace rest.
Proof.
  unfold row_text. rewrite !string_app_assoc.
  change ("    " +:+ ?s)
    with (String " " (String " " (String " " (String " " s)))).
  cbn [before_brace]. rewrite !bool_decide_eq_false_2 by done.
  by rewrite before_brace_chunk.
Qed.

Lemma before_brace_rows (rows : list (list byte)) (rest : string) :
  before_brace (written (row_text <$> rows) +:+ rest)
  = written (row_text <$> rows) +:+ before_brace rest.
Proof.
  induction rows as [|chunk rows IH]; [done|].
  cbn [fmap list_fmap written].
  by rewrite !string_app_assoc, before_brace_row, IH.
Qed.

Lemma before_brace_body (data : list byte) (rest : string) :
  before_brace (written (rows_text data) +:+ array_close +:+ rest)
  = written (rows_text data).
Proof.
  rewrite rows_text_chunks, before_brace_rows.
  change (before_brace (array_close +:+ rest)) with EmptyString.
  apply string_app_empty_r.
Qed.

(** X2: the declaration determines the data: for one base name and one
    variable name, two byte sequences with the same declaration text are
    equal. *)
Theorem header_text_injective (base var_name : string) (d1 d2 : list byte) :
  header_text base var_name d1 = header_text base var_name d2 -> d1 = d2.
Proof.
  rewrite !header_text_layout. intros Heq.
  apply (inj (String.app _)) in Heq. apply (inj (String.app _)) in Heq.
  apply (f_equal before_brace) in Heq. rewrite !before_brace_body in Heq.
  apply (f_equal read_array_body) in Heq.
  rewrite !read_array_body_rows in Heq. by injection Heq.
Qed.

Lemma header_text_injective_witness :
  header_text "a.jpg" "a" [x01; x02]%byte
  = header_text "a.jpg" "a" [x01; x02]%byte
  /\ [x01; x02]%byte = [x01; x02]%byte.
Proof.
  split; [reflexivity|].
  apply (header_text_injective "a.jpg" "a"). reflexivity.
Defined.

End EmbedderInjective.

(** ** What a batch touches *)

Section EmbedderFrame.
Import Embedder EmbedderFacts.

Lemma embed_batch_cons (asset : string * string)
  (batch : list (string * string)) (w : world) :
  embed_batch (asset :: batch) w = embed_batch batch (fst (embed_one asset w)).
Proof.
  change (asset :: batch) with ([asset] ++ batch).
  by rewrite embed_batch_app, embed_batch_one.
Qed.

Lemma embed_one_other (asset : string * string) (w : world) (p : string) :
  output_path asset.2 <> p ->
  files (fst (embed_one asset w)) !! p = files w !! p.
Proof.
  intros Hne. destruct asset as [img_file var_name]. cbn in Hne.
  destruct (files w !! input_path img_file) as [data|] eqn:Hin.
  - rewrite (embed_one_present _ _ _ _ Hin). cbn [fst files].
    by rewrite lookup_insert_ne.
  - by rewrite (embed_one_missing _ _ _ Hin).
Qed.

Lemma embed_batch_other (batch : list (string * string)) (w : world)
  (p : string) :
  p ∉ output_paths batch ->
  files (fst (embed_batch batch w)) !! p = files w !! p.
Proof.
  revert w. induction batch as [|asset batch IH]; intros w Hp; [done|].
  rewrite embed_batch_cons. unfold output_paths in Hp.
  rewrite fmap_cons, not_elem_of_cons in Hp. destruct Hp as [Hne Hp].
  rewrite IH by done. by apply embed_one_other.
Qed.

Lemma embed_one_line (asset : string * string) (w : world) :
  exists line,
    stdout (fst (embed_one asset w)) = stdout w ++ [line]
    /\ ((exists data, line = generated_line (output_path asset.2) data)
        \/ line = warning_line asset.1).
Proof.
  destruct asset as [img_file var_name].
  destruct (files w !! input_path img_file) as [data|] eqn:Hin.
  - rewrite (embed_one_present _ _ _ _ Hin). eauto.
  - rewrite (embed_one_missing _ _ _ Hin). eauto.
Qed.

(** X3: a batch changes nothing but its output files: a path that is not
    the output path of one of its assets has the same content, or is as
    absent, after the batch as before; in particular no file is deleted and
    no source is touched unless it is also an output. *)
Theorem embed_batch_frame (batch : list (string * string)) (w : world)
  (p : string) :
  p ∉ output_paths batch ->
  files (fst (embed_batch batch w)) !! p = files w !! p.
Proof. apply embed_batch_other. Qed.

Lemma embed_batch_frame_witness :
  let w := World {[ "kernel/media/bootstrap_images/a.jpg" := [x01]%byte;
                    "kernel/media/notes.txt" := [x02]%byte ]} [] in
  files (fst (embed_batch [("a.jpg", "a"); ("b.jpg", "b")] w))
    !! "kernel/media/notes.txt" = Some [x02]%byte
  /\ files (fst (embed_batch [("a.jpg", "a"); ("b.jpg", "b")] w))
       !! "kernel/media/b.c" = None.
Proof.
  intros w. split.
  - rewrite (embed_batch_frame [("a.jpg", "a"); ("b.jpg", "b")] w
               "kernel/media/notes.txt").
    + vm_compute. reflexivity.
    + vm_compute. intros H. repeat (apply elem_of_cons in H as [H|H];
        [discriminate|]). inversion H.
  - vm_compute. reflexivity.
Defined.

(** X4: a batch prints exactly one line per asset, in the order of the
    batch and after what was printed before: for each asset either the
    [Generated ...] line of its output path or the [Warning: ... not found]
    line of its source path. *)
Theorem embed_batch_one_line_each (batch : list (string * string))
  (w : world) :
  exists lines,
    stdout (fst (embed_batch batch w)) = stdout w ++ lines
    /\ Forall2 (fun asset line =>
                  (exists data,
                     line = generated_line (output_path asset.2) data)
                  \/ line = warning_line asset.1)
         batch lines.
Proof.
  revert w. induction batch as [|asset batch IH]; intros w.
  - exists []. split; [by rewrite app_nil_r | done].
  - rewrite embed_batch_cons.
    destruct (embed_one_line asset w) as (line & Hline & Hshape).
    destruct (IH (fst (embed_one asset w))) as (lines & Hlines & Hall).
    exists (line :: lines). split; [|by constructor].
    rewrite Hlines, Hline, <- app_assoc. done.
Qed.

End EmbedderFrame.

(** ** Batches whose outputs are apart from their inputs *)

Section EmbedderSeparated.
Import Embedder EmbedderFacts.

Lemma separated_cons (asset : string * string)
  (batch : list (string * string)) :
  separated (asset :: batch) ->
  (output_path asset.2 ∉ output_paths batch)
  /\ (input_path asset.1 ∉ output_paths (asset :: batch))
  /\ (forall p, p ∈ input_paths batch -> p <> output_path asset.2)
  /\ separated batch.
Proof.
  intros [Hnd Hio]. unfold output_paths in Hnd. rewrite fmap_cons in Hnd.
  apply NoDup_cons in Hnd as [Hhead Hnd].
  split; [done|]. split; [apply Hio; left|]. split.
  - intros p Hp ->.
    apply (Hio (output_path asset.2)); [by right | left].
  - split; [done|]. intros p Hp Hout.
    apply (Hio p); [by right | by right].
Qed.

Lemma embed_one_result (asset : string * string) (w : world) :
  files (fst (embed_one asset w)) !! output_path asset.2
  = match files w !! input_path asset.1 with
    | Some data => Some (declaration asset.1 asset.2 data)
    | None => files w !! output_path asset.2
    end.
Proof.
  destruct asset as [img_file var_name]. cbn [fst snd].
  destruct (files w !! input_path img_file) as [data|] eqn:Hin.
  - rewrite (embed_one_present _ _ _ _ Hin). cbn [fst files].
    by rewrite lookup_insert_eq.
  - by rewrite (embed_one_missing _ _ _ Hin).
Qed.

Lemma embed_batch_result (batch : list (string * string)) (w : world)
  (asset : string * string) :
  separated batch -> asset ∈ batch ->
  files (fst (embed_batch batch w)) !! output_path asset.2
  = match files w !! input_path asset.1 with
    | Some data => Some (declaration asset.1 asset.2 data)
    | None => files w !! output_path asset.2
    end.
Proof.
  revert w. induction batch as [|a batch IH]; intros w Hsep Hin.
  { inversion Hin. }
  destruct (separated_cons _ _ Hsep) as (Hfresh & Hown & Hins & Hsep').
  rewrite embed_batch_cons.
  destruct (decide (output_path asset.2 ∈ output_paths batch)) as [Hlater|Hnot].
  - (* the asset is written by the rest of the batch *)
    apply elem_of_cons in Hin as [->|Hin]; [done|].
    rewrite (IH _ Hsep' Hin).
    assert (Hi : input_path asset.1 ∈ input_paths batch)
      by (unfold input_paths; apply list_elem_of_fmap; eauto).
    rewrite !embed_one_other; [done | | ].
    + intros Heq. rewrite <- Heq in Hlater. done.
    + intros Heq. by apply (Hins _ Hi).
  - (* the asset is the head *)
    apply elem_of_cons in Hin as [->|Hin].
    + rewrite embed_batch_other by done. apply embed_one_result.
    + exfalso. apply Hnot. unfold output_paths.
      apply list_elem_of_fmap. eauto.
Qed.

(** X5: when the outputs of a batch are pairwise distinct and none of them
    is an input of the batch, the batch ends with, for every asset whose
    source is in the store at the start, the declaration of the source's
    original bytes at its output path, and with the output path of a missing
    asset as it was. *)
Theorem embed_batch_outputs (batch : list (string * string)) (w : world)
  (img_file var_name : string) :
  separated batch -> (img_file, var_name) ∈ batch ->
  files (fst (embed_batch batch w)) !! output_path var_name
  = match files w !! input_path img_file with
    | Some data => Some (declaration img_file var_name data)
    | None => files w !! output_path var_name
    end.
Proof.
  intros Hsep Hin. exact (embed_batch_result batch w _ Hsep Hin).
Qed.

Lemma images_separated : separated images.
Proof.
  split.
  - vm_compute. repeat (apply NoDup_cons; split;
      [intros H; repeat (apply elem_of_cons in H as [H|H]; [discriminate|]);
       inversion H|]). apply NoDup_nil_2.
  - intros p Hp Hout. vm_compute in Hp, Hout.
    repeat (apply elem_of_cons in Hp as [->|Hp];
      [repeat (apply elem_of_cons in Hout as [Hout|Hout]; [discriminate|]);
       inversion Hout|]).
    inversion Hp.
Qed.

Lemma embed_batch_outputs_witness :
  let w := World {[ "kernel/media/bootstrap_images/square.jpg"
                    := [xff; xd8]%byte ]} [] in
  files (fst (main w)) !! output_path "bootstrap_square_jpg"
  = Some (declaration "square.jpg" "bootstrap_square_jpg" [xff; xd8]%byte)
  /\ files (fst (main w)) !! output_path "bootstrap_city_jpg" = None.
Proof.
  intros w. split.
  - unfold main.
    rewrite (embed_batch_outputs images w "square.jpg" "bootstrap_square_jpg"
               images_separated).
    + vm_compute. reflexivity.
    + unfold images. set_solver.
  - unfold main.
    rewrite (embed_batch_outputs images w "city.jpg" "bootstrap_city_jpg"
               images_separated).
    + vm_compute. reflexivity.
    + unfold images. set_solver.
Defined.

(** X6: under the same separation a batch can be run again: the second run
    leaves the files exactly as the first run left them. *)
Theorem embed_batch_rerun (batch : list (string * string)) (w : world) :
  separated batch ->
  files (fst (embed_batch batch (fst (embed_batch batch w))))
  = files (fst (embed_batch batch w)).
Proof.
  intros Hsep. apply map_eq. intros p.
  destruct (decide (p ∈ output_paths batch)) as [Hout|Hnot].
  - unfold output_paths in Hout. apply list_elem_of_fmap in Hout
      as (asset & -> & Hin).
    rewrite (embed_batch_result batch _ asset Hsep Hin).
    assert (Hi : input_path asset.1 ∉ output_paths batch).
    { apply Hsep. unfold input_paths. apply list_elem_of_fmap. eauto. }
    rewrite (embed_batch_other batch w _ Hi).
    rewrite (embed_batch_result batch w asset Hsep Hin).
    by destruct (files w !! input_path asset.1).
  - by rewrite (embed_batch_other _ _ _ Hnot).
Qed.

Lemma embed_batch_rerun_witness :
  let w := World {[ "kernel/media/bootstrap_images/square.jpg"
                    := [xff; xd8]%byte ]} [] in
  files (fst (main (fst (main w)))) = files (fst (main w)).
Proof.
  intros w. exact (embed_batch_rerun images w images_separated).
Defined.

End EmbedderSeparated.

(** ** Base names *)

Section PathProperties.
Import OsPath OsPathFacts Embedder.

Lemma after_last_slash_app (tail a b : string) :
  after_last_slash tail (a +:+ String "/" b) = after_last_slash b b.
Proof.
  revert tail. induction a as [|c a IH]; intros tail.
  - reflexivity.
  - rewrite string_app_cons. cbn [after_last_slash].
    destruct (bool_decide (c = "/"%char)); apply IH.
Qed.

Lemma ends_with_slash_split (a : string) :
  ends_with_slash a = true -> exists a', a = a' +:+ "/".
Proof.
  induction a as [|c a IH]; [done|]. cbn [ends_with_slash].
  destruct a as [|d a].
  - intros ->%bool_decide_eq_true_1. by exists "".
  - intros H. destruct (IH H) as [a' ->]. by exists (String c a').
Qed.

Lemma basename_join (a b : string) : basename (join a b) = basename b.
Proof.
  unfold join. destruct (starts_with_slash b) eqn:Hb; [done|].
  destruct (bool_decide (a = "")) eqn:Ha.
  - apply bool_decide_eq_true_1 in Ha as ->. reflexivity.
  - cbn [orb]. destruct (ends_with_slash a) eqn:Hs.
    + destruct (ends_with_slash_split a Hs) as [a' ->].
      rewrite string_app_assoc. change ("/" +:+ b) with (String "/" b).
      unfold basename. apply after_last_slash_app.
    + change ("/" +:+ b) with (String "/" b).
      unfold basename. apply after_last_slash_app.
Qed.

Lemma after_last_slash_no_slash (u p : string) :
  has_slash u = false ->
  has_slash (after_last_slash (u +:+ p) p) = false.
Proof.
  revert u. induction p as [|c p IH]; intros u Hu.
  - cbn. by rewrite string_app_empty_r.
  - cbn [after_last_slash]. destruct (bool_decide (c = "/"%char)) eqn:Hc.
    + apply (IH ""). done.
    + replace (u +:+ String c p) with ((u +:+ String c "") +:+ p)
        by (by rewrite string_app_assoc).
      apply IH. clear IH. induction u as [|d u IHu].
      * change (has_slash (String c "") = false).
        cbn [has_slash]. by rewrite Hc.
      * rewrite string_app_cons. cbn [has_slash] in *.
        apply orb_false_iff in Hu as [-> Hu]. by rewrite IHu.
Qed.

(** X7: the base name of a joined path is the base name of its last
    component, and a base name holds no slash; so the comment line of a
    declaration written by [main] names the asset file without its
    directory. *)
Theorem declaration_names_file (a b p img_file var_name : string)
  (data : list byte) :
  basename (join a b) = basename b
  /\ has_slash (basename p) = false
  /\ declaration img_file var_name data
     = String.list_byte_of_string
         (header_text (basename img_file) var_name data).
Proof.
  split; [apply basename_join|]. split.
  - apply (after_last_slash_no_slash "" p). done.
  - unfold declaration, input_path. by rewrite basename_join.
Qed.

End PathProperties.

(** ** What a generated image holds *)

Section GeneratorInversion.
Import Generator.

Lemma for_each_ok_inv {A S} (l : list A) (body : A -> S -> result S)
  (s s' : S) (a : A) :
  for_each l body s = Ok s' -> a ∈ l ->
  exists s1 s2, body a s1 = Ok s2.
Proof.
  revert s. induction l as [|b l IH]; intros s Hrun Ha; [inversion Ha|].
  cbn [for_each] in Hrun. destruct (body b s) as [s1|e] eqn:Hb; [|done].
  cbn [rbind] in Hrun. apply elem_of_cons in Ha as [->|Ha]; eauto.
Qed.

Lemma paint_ok_pixels (pixel : Z -> Z -> result rgb) (xs ys : list Z)
  (img img' : image) (x y : Z) :
  for_each ys (fun y =>
    for_each xs (fun x img => c <~ pixel x y ;; putpixel x y c img)) img
  = Ok img' ->
  x ∈ xs -> y ∈ ys -> exists c, pixel x y = Ok c.
Proof.
  intros Hrun Hx Hy.
  destruct (for_each_ok_inv _ _ _ _ y Hrun Hy) as (s1 & s2 & Hrow).
  destruct (for_each_ok_inv _ _ _ _ x Hrow Hx) as (s3 & s4 & Hcell).
  destruct (pixel x y) as [c|e]; [eauto | done].
Qed.

(** The nested loop, read from its result. *)
Lemma paint_cells_of_ok (pixel : Z -> Z -> result rgb) (width height : Z)
  (img : image) :
  for_each (range height) (fun y =>
    for_each (range width) (fun x img =>
      c <~ pixel x y ;; putpixel x y c img)) (Image width height ∅)
  = Ok img ->
  im_width img = width /\ im_height img = height
  /\ (forall x y, 0 <= x < width -> 0 <= y < height ->
        pixel x y = getpixel img x y
        /\ is_Some (im_pixels img !! (x, y)))
  /\ (forall x y, ~ (0 <= x < width /\ 0 <= y < height) ->
        im_pixels img !! (x, y) = None).
Proof.
  intros Hrun.
  destruct (paint_rows pixel
              (fun x y => match pixel x y with Ok c => c | Raise _ => (0, 0, 0) end)
              (range width) (range height) (Image width height ∅))
    as (img' & Hrun' & Hw & Hh & Hcells).
  { intros y Hy. by apply range_elem in Hy. }
  { intros x Hx. by apply range_elem in Hx. }
  { intros x y Hx Hy.
    destruct (paint_ok_pixels _ _ _ _ _ x y Hrun Hx Hy) as [c ->]. done. }
  rewrite Hrun in Hrun'. injection Hrun' as <-. cbn in Hw, Hh.
  split; [done|]. split; [done|]. split.
  - intros x y Hx Hy.
    destruct (paint_ok_pixels _ _ _ _ _ x y Hrun) as [c Hc];
      [by apply range_elem | by apply range_elem |].
    assert (Hcell : im_pixels img !! (x, y) = Some c).
    { rewrite Hcells, decide_True by (split; by apply range_elem).
      by rewrite Hc. }
    split; [|by rewrite Hcell].
    rewrite Hc. symmetry. apply getpixel_inside; [lia | lia | done].
  - intros x y Hout. rewrite Hcells, decide_False; [done|].
    intros [Hx%range_elem Hy%range_elem]. tauto.
Qed.

Lemma Image_new_inv (width height : Z) (img : image) :
  Image_new width height = Ok img ->
  img = Image width height ∅ /\ 0 <= width /\ 0 <= height.
Proof.
  unfold Image_new. case_bool_decide as Hneg; [done|].
  intros [= <-]. split; [done | lia].
Qed.

(** X8: an image returned by [create_pattern_image] has the requested
    width and height, every cell inside it has been assigned the colour
    computed for it, and no cell outside it has been assigned. *)
Theorem create_pattern_image_fills (width height : Z) (colors : list rgb)
  (img : image) :
  create_pattern_image width height colors = Ok img ->
  im_width img = width /\ im_height img = height
  /\ (forall x y, 0 <= x < width -> 0 <= y < height ->
        pattern_pixel colors x y = getpixel img x y
        /\ is_Some (im_pixels img !! (x, y)))
  /\ (forall x y, ~ (0 <= x < width /\ 0 <= y < height) ->
        im_pixels img !! (x, y) = None).
Proof.
  unfold create_pattern_image. intros Hrun.
  destruct (Image_new width height) as [img0|e] eqn:Hnew; [|done].
  apply Image_new_inv in Hnew as (-> & _ & _). cbn [rbind] in Hrun.
  by apply paint_cells_of_ok.
Qed.

Lemma create_pattern_image_fills_witness :
  exists img,
    create_pattern_image 3 2 colors = Ok img
    /\ im_width img = 3 /\ im_height img = 2
    /\ getpixel img 2 1 = Ok (70, 130, 180)
    /\ im_pixels img !! (3, 1) = None.
Proof.
  destruct (create_pattern_image 3 2 colors) as [img|e] eqn:Hrun;
    [|vm_compute in Hrun; discriminate].
  destruct (create_pattern_image_fills 3 2 colors img Hrun)
    as (Hw & Hh & Hin & Hout).
  exists img. split; [reflexivity|]. split; [exact Hw|]. split; [exact Hh|].
  split.
  - destruct (Hin 2 1) as [Hp _]; [lia | lia |]. rewrite <- Hp.
    vm_compute. reflexivity.
  - apply Hout. lia.
Defined.

(** X9: an image returned by [create_gradient_image] has the requested
    width and height, every cell inside it has been assigned the colour
    computed for it, and no cell outside it has been assigned. *)
Theorem create_gradient_image_fills (width height : Z)
  (color1 color2 : rgb) (direction : string) (img : image) :
  create_gradient_image width height color1 color2 direction = Ok img ->
  im_width img = width /\ im_height img = height
  /\ (forall x y, 0 <= x < width -> 0 <= y < height ->
        gradient_pixel width height color1 color2 direction x y
        = getpixel img x y
        /\ is_Some (im_pixels img !! (x, y)))
  /\ (forall x y, ~ (0 <= x < width /\ 0 <= y < height) ->
        im_pixels img !! (x, y) = None).
Proof.
  unfold create_gradient_image. intros Hrun.
  destruct (Image_new width height) as [img0|e] eqn:Hnew; [|done].
  apply Image_new_inv in Hnew as (-> & _ & _). cbn [rbind] in Hrun.
  by apply paint_cells_of_ok.
Qed.

Lemma create_gradient_image_fills_witness :
  exists img,
    create_gradient_image 2 2 (0, 0, 0) (10, 20, 30) "horizontal" = Ok img
    /\ im_width img = 2 /\ im_height img = 2
    /\ getpixel img 1 1 = Ok (5, 10, 15)
    /\ im_pixels img !! (1, 2) = None.
Proof.
  destruct (create_gradient_image 2 2 (0, 0, 0) (10, 20, 30) "horizontal")
    as [img|e] eqn:Hrun; [|vm_compute in Hrun; discriminate].
  destruct (create_gradient_image_fills 2 2 _ _ _ img Hrun)
    as (Hw & Hh & Hin & Hout).
  exists img. split; [reflexivity|]. split; [exact Hw|]. split; [exact Hh|].
  split.
  - destruct (Hin 1 1) as [Hp _]; [lia | lia |]. rewrite <- Hp.
    vm_compute. reflexivity.
  - apply Hout. lia.
Defined.

End GeneratorInversion.

(** ** Shapes of the generated images *)

Section GeneratorShapes.
Import Generator.

Lemma create_gradient_image_cell (width height : Z) (color1 color2 : rgb)
  (direction : string) (img : image) (x y : Z) :
  create_gradient_image width height color1 color2 direction = Ok img ->
  0 <= x < width -> 0 <= y < height ->
  gradient_pixel width height color1 color2 direction x y = getpixel img x y.
Proof.
  unfold create_gradient_image. intros Hrun Hx Hy.
  destruct (Image_new width height) as [img0|e] eqn:Hnew; [|done].
  apply Image_new_inv in Hnew as (-> & _ & _). cbn [rbind] in Hrun.
  by apply (paint_cells_of_ok _ _ _ _ Hrun).
Qed.

Lemma create_pattern_image_cell (width height : Z) (colors : list rgb)
  (img : image) (x y : Z) :
  create_pattern_image width height colors = Ok img ->
  0 <= x < width -> 0 <= y < height ->
  pattern_pixel colors x y = getpixel img x y.
Proof.
  unfold create_pattern_image. intros Hrun Hx Hy.
  destruct (Image_new width height) as [img0|e] eqn:Hnew; [|done].
  apply Image_new_inv in Hnew as (-> & _ & _). cbn [rbind] in Hrun.
  by apply (paint_cells_of_ok _ _ _ _ Hrun).
Qed.

(** X10: a horizontal gradient has identical rows and any other gradient
    has identical columns: two pixels of the image with the same [x]
    (horizontal), or the same [y] (otherwise), have the same colour. *)
Theorem gradient_constant_across (width height : Z) (color1 color2 : rgb)
  (direction : string) (img : image) (x y x' y' : Z) :
  create_gradient_image width height color1 color2 direction = Ok img ->
  0 <= x < width -> 0 <= y < height ->
  0 <= x' < width -> 0 <= y' < height ->
  (if bool_decide (direction = "horizontal") then x = x' else y = y') ->
  getpixel img x y = getpixel img x' y'.
Proof.
  intros Hrun Hx Hy Hx' Hy' Hsame.
  rewrite <- (create_gradient_image_cell _ _ _ _ _ _ x y Hrun Hx Hy).
  rewrite <- (create_gradient_image_cell _ _ _ _ _ _ x' y' Hrun Hx' Hy').
  unfold gradient_pixel, gradient_ratio.
  destruct (bool_decide (direction = "horizontal")); by subst.
Qed.

Lemma gradient_constant_across_witness :
  exists img,
    create_gradient_image 3 2 (0, 0, 0) (90, 90, 90) "horizontal" = Ok img
    /\ getpixel img 2 0 = getpixel img 2 1.
Proof.
  destruct (create_gradient_image 3 2 (0, 0, 0) (90, 90, 90) "horizontal")
    as [img|e] eqn:Hrun; [|vm_compute in Hrun; discriminate].
  exists img. split; [reflexivity|].
  apply (gradient_constant_across 3 2 _ _ _ img 2 0 2 1 Hrun);
    [lia | lia | lia | lia | reflexivity].
Defined.

(** X11: the colour of a pattern pixel depends only on
    [((x div 40) + (y div 40)) mod len(colors)]: two pixels of the image
    with the same value of it have the same colour, so a 40 by 40 tile is
    uniform and the pattern is symmetric in [x] and [y]. *)
Theorem pattern_same_index_same_colour (width height : Z)
  (colors : list rgb) (img : image) (x y x' y' : Z) :
  create_pattern_image width height colors = Ok img ->
  0 <= x < width -> 0 <= y < height ->
  0 <= x' < width -> 0 <= y' < height ->
  (x / 40 + y / 40) mod Z.of_nat (length colors)
  = (x' / 40 + y' / 40) mod Z.of_nat (length colors) ->
  getpixel img x y = getpixel img x' y'.
Proof.
  intros Hrun Hx Hy Hx' Hy' Hsame.
  rewrite <- (create_pattern_image_cell _ _ _ _ x y Hrun Hx Hy).
  rewrite <- (create_pattern_image_cell _ _ _ _ x' y' Hrun Hx' Hy').
  unfold pattern_pixel, pattern_index, py_mod. by rewrite Hsame.
Qed.

Lemma pattern_same_index_same_colour_witness :
  exists img,
    create_pattern_image 90 90 colors = Ok img
    /\ getpixel img 45 3 = getpixel img 79 39
    /\ getpixel img 85 7 = getpixel img 7 85.
Proof.
  destruct (create_pattern_image_cells 90 90 colors) as (img & Hrun & _);
    [lia | lia | discriminate |].
  exists img. split; [exact Hrun|]. split.
  - apply (pattern_same_index_same_colour 90 90 colors img 45 3 79 39 Hrun);
      [lia | lia | lia | lia | reflexivity].
  - apply (pattern_same_index_same_colour 90 90 colors img 85 7 7 85 Hrun);
      [lia | lia | lia | lia | reflexivity].
Defined.

End GeneratorShapes.

(** ** The gradient stays between its endpoints *)

Section GradientBetween.
Import Generator.

(** Rounding to nearest does not cross an integer from either side: a value
    between the integers [L >= 1] and [N < 2^53] rounds to a finite float
    between them. *)
Lemma binary_round_aux_between (sx : bool) (mx ex : Z) (lx : location)
  (L N : Z) :
  0 <= mx -> ex <= 0 -> 1 <= L -> L <= N < 2 ^ 53 ->
  L * 2 ^ (- ex) <= mx ->
  (match lx with loc_Exact => mx | _ => mx + 1 end) <= N * 2 ^ (- ex) ->
  exists m e,
    binary_round_aux PyFloat.prec PyFloat.emax sx mx ex lx = S754_finite sx m e
    /\ e <= 0 /\ L * 2 ^ (- e) <= Zpos m <= N * 2 ^ (- e).
Proof.
  intros Hmx Hex HL HN Hlow HU.
  assert (Hmx_le : mx <= N * 2 ^ (- ex)) by (destruct lx; lia).
  assert (exists mrs' e',
            shr_fexp PyFloat.prec PyFloat.emax mx ex lx = (mrs', e')
            /\ e' <= 0
            /\ L * 2 ^ (- e')
               <= round_nearest_even (shr_m mrs') (loc_of_shr_record mrs')
               <= N * 2 ^ (- e')) as (mrs' & e' & Hshr1 & He' & Hm1).
  { unfold shr_fexp.
    pose proof (fexp_nonpos mx ex N Hmx Hex Hmx_le (proj2 HN)) as Hfexp.
    set (n := fexp PyFloat.prec PyFloat.emax (Zdigits2 mx + ex) - ex) in *.
    destruct (Z_le_gt_dec n 0) as [Hn|Hn].
    - rewrite shr_none by done. do 2 eexists. split; [reflexivity|].
      split; [done|].
      rewrite shr_m_shr_record_of_loc, loc_of_shr_record_of_loc.
      pose proof (round_nearest_even_bounds mx lx). lia.
    - destruct (shr_some mx lx ex n) as (mrs & Hs & Hm & Hexact); [done|lia|].
      rewrite Hs. do 2 eexists. split; [reflexivity|].
      assert (He1 : ex + n <= 0) by (subst n; lia).
      split; [done|].
      pose proof (round_nearest_even_bounds (shr_m mrs) (loc_of_shr_record mrs))
        as Hr.
      assert (0 < 2 ^ n) by (apply Z.pow_pos_nonneg; lia).
      assert (0 < 2 ^ (- (ex + n))) by (apply Z.pow_pos_nonneg; lia).
      assert (Hpow : 2 ^ (- ex) = 2 ^ (- (ex + n)) * 2 ^ n).
      { rewrite <- Z.pow_add_r by lia. f_equal. lia. }
      pose proof (Z.mul_div_le mx (2 ^ n) ltac:(lia)) as Hfloor.
      assert (0 <= mx / 2 ^ n) by (apply Z.div_pos; lia).
      assert (Hlow' : L * 2 ^ (- (ex + n)) <= mx / 2 ^ n)
        by (apply Z.div_le_lower_bound; [lia | nia]).
      rewrite Hm in *.
      split; [lia|].
      destruct (loc_of_shr_record mrs) eqn:Hloc.
      + nia.
      + assert (2 ^ n * (mx / 2 ^ n)
                < (match lx with loc_Exact => mx | _ => mx + 1 end)) as Hstrict.
        { destruct lx as [|c0]; [|lia].
          destruct (Z.eq_dec (mx mod 2 ^ n) 0) as [Hz|Hnz].
          - specialize (Hexact eq_refl Hz). congruence.
          - pose proof (Z.div_mod mx (2 ^ n) ltac:(lia)).
            pose proof (Z.mod_pos_bound mx (2 ^ n) ltac:(lia)). lia. }
        nia. }
  unfold binary_round_aux. rewrite Hshr1.
  set (m1 := round_nearest_even (shr_m mrs') (loc_of_shr_record mrs')) in *.
  assert (0 < 2 ^ (- e')) by (apply Z.pow_pos_nonneg; lia).
  assert (Hm1pos : 0 <= m1) by nia.
  assert (exists mrs'' e'',
            shr_fexp PyFloat.prec PyFloat.emax m1 e' loc_Exact = (mrs'', e'')
            /\ e'' <= 0
            /\ L * 2 ^ (- e'') <= shr_m mrs'' <= N * 2 ^ (- e''))
    as (mrs'' & e'' & Hshr2 & He'' & Hm2).
  { unfold shr_fexp.
    pose proof (fexp_nonpos m1 e' N Hm1pos He' (proj2 Hm1) (proj2 HN))
      as Hfexp.
    set (n := fexp PyFloat.prec PyFloat.emax (Zdigits2 m1 + e') - e') in *.
    destruct (Z_le_gt_dec n 0) as [Hn|Hn].
    - rewrite shr_none by done. do 2 eexists. split; [reflexivity|].
      split; [done|]. by rewrite shr_m_shr_record_of_loc.
    - destruct (shr_some m1 loc_Exact e' n) as (mrs & Hs & Hm & _); [lia|lia|].
      rewrite Hs. do 2 eexists. split; [reflexivity|].
      assert (He1 : e' + n <= 0) by (subst n; lia).
      split; [done|]. rewrite Hm.
      assert (0 < 2 ^ n) by (apply Z.pow_pos_nonneg; lia).
      assert (0 < 2 ^ (- (e' + n))) by (apply Z.pow_pos_nonneg; lia).
      assert (Hpow : 2 ^ (- e') = 2 ^ (- (e' + n)) * 2 ^ n).
      { rewrite <- Z.pow_add_r by lia. f_equal. lia. }
      pose proof (Z.mul_div_le m1 (2 ^ n) ltac:(lia)) as Hfloor.
      assert (0 <= m1 / 2 ^ n) by (apply Z.div_pos; lia).
      split; [apply Z.div_le_lower_bound; [lia | nia] | nia]. }
  rewrite Hshr2.
  assert (0 < 2 ^ (- e'')) by (apply Z.pow_pos_nonneg; lia).
  destruct (shr_m mrs'') as [|m|m] eqn:Hm''; [nia| |nia].
  replace (e'' <=? PyFloat.emax - PyFloat.prec) with true
    by (symmetry; apply Z.leb_le; unfold PyFloat.emax, PyFloat.prec; lia).
  eauto.
Qed.

(** [int] of a rounded positive sum that lies between two byte values. *)
Lemma round_sum_between (pm : positive) (ez L N : Z) :
  ez <= 0 -> 0 <= L -> L <= N -> 1 <= N <= 255 ->
  L * 2 ^ (- ez) <= Zpos pm <= N * 2 ^ (- ez) ->
  exists v,
    PyFloat.to_int (binary_round PyFloat.prec PyFloat.emax false pm ez) = Ok v
    /\ L <= v <= N.
Proof.
  intros Hez HL HLN HN Hpm. unfold binary_round.
  destruct (shl_align_spec pm ez
              (fexp PyFloat.prec PyFloat.emax (Z.pos (digits2_pos pm) + ez)))
    as [He Hm].
  destruct (shl_align pm ez
              (fexp PyFloat.prec PyFloat.emax (Z.pos (digits2_pos pm) + ez)))
    as [mz ez'].
  cbn [fst snd] in He, Hm.
  assert (ez' <= ez) by lia.
  assert (0 < 2 ^ (ez - ez')) by (apply Z.pow_pos_nonneg; lia).
  assert (0 < 2 ^ (- ez')) by (apply Z.pow_pos_nonneg; lia).
  assert (0 < 2 ^ (- ez)) by (apply Z.pow_pos_nonneg; lia).
  assert (Hpow : 2 ^ (- ez') = 2 ^ (- ez) * 2 ^ (ez - ez')).
  { rewrite <- Z.pow_add_r by lia. f_equal. lia. }
  rewrite <- He in Hm.
  assert (HN53 : N < 2 ^ 53) by (change (2 ^ 53) with 9007199254740992; lia).
  destruct (decide (L = 0)) as [->|HL0].
  - destruct (binary_round_aux_below false (Z.pos mz) ez' loc_Exact N)
      as [Hbelow Hshape]; [lia | lia | lia | nia |].
    destruct Hshape as [Hz|(m & e & Hf)].
    + rewrite Hz. exists 0. split; [done | lia].
    + rewrite Hf in *. by apply to_int_below.
  - destruct (binary_round_aux_between false (Z.pos mz) ez' loc_Exact L N)
      as (m & e & Hf & He0 & Hme); [lia | lia | lia | lia | nia | nia |].
    rewrite Hf. eexists. split; [reflexivity|]. cbn [cond_Zopp].
    assert (0 < 2 ^ (- e)) by (apply Z.pow_pos_nonneg; lia).
    rewrite Z.shiftl_div_pow2 by lia. split.
    + apply Z.div_le_lower_bound; lia.
    + apply Z.div_le_upper_bound; lia.
Qed.

(** [int(c1 + p)] for a product [p] between [0] and [c2 - c1]. *)
Lemma add_to_int_between (c1 c2 : Z) (a p : PyFloat.float) :
  0 <= c1 <= 255 -> 0 <= c2 <= 255 ->
  PyFloat.is_int c1 a ->
  PyFloat.within (bool_decide (c2 - c1 < 0)) (Z.abs (c2 - c1)) p ->
  exists v, PyFloat.to_int (PyFloat.add a p) = Ok v
            /\ Z.min c1 c2 <= v <= Z.max c1 c2.
Proof.
  intros Hc1 Hc2 Ha Hp. unfold PyFloat.add.
  destruct a as [sa| | |sa ma ea]; try done.
  - destruct Ha as [-> ->].
    destruct Hp as [[sp ->]|(mp & ep & -> & Hb)].
    + exists 0. split; [by destruct sp | lia].
    + cbn [SFadd]. rewrite bool_decide_eq_false_2 in * by lia.
      destruct (to_int_below _ _ _ Hb) as (v & Hv & Hr).
      exists v. split; [done | lia].
  - destruct Ha as (Hea & Hma & ->).
    rewrite bool_decide_eq_false_2 by lia.
    assert (0 < 2 ^ (- ea)) by (apply Z.pow_pos_nonneg; lia).
    assert (Hc1pos : 1 <= c1) by nia.
    destruct Hp as [[sp ->]|(mp & ep & -> & Hep & Hmp)].
    + cbn [SFadd]. exists c1. split; [|lia].
      apply to_int_is_int; [lia|]. repeat split; try done.
      by rewrite bool_decide_eq_false_2 by lia.
    + cbn [SFadd].
      set (ez := Z.min ea ep).
      destruct (shl_align_spec ma ea ez) as [_ HA].
      destruct (shl_align_spec mp ep ez) as [_ HP].
      replace (Z.min ea ez) with ez in HA by lia.
      replace (Z.min ep ez) with ez in HP by lia.
      set (A := Z.pos (fst (shl_align ma ea ez))) in *.
      set (P := Z.pos (fst (shl_align mp ep ez))) in *.
      assert (Hez : ez <= 0) by lia.
      assert (0 < 2 ^ (- ez)) by (apply Z.pow_pos_nonneg; lia).
      assert (0 < 2 ^ (- ep)) by (apply Z.pow_pos_nonneg; lia).
      assert (0 < 2 ^ (ea - ez)) by (apply Z.pow_pos_nonneg; lia).
      assert (0 < 2 ^ (ep - ez)) by (apply Z.pow_pos_nonneg; lia).
      assert (HA' : A = c1 * 2 ^ (- ez)).
      { rewrite HA, Hma, Z.abs_eq by lia.
        rewrite <- Z.mul_assoc, <- Z.pow_add_r by lia. do 2 f_equal. lia. }
      assert (HP' : 0 < P <= Z.abs (c2 - c1) * 2 ^ (- ez)).
      { split; [lia|]. rewrite HP.
        replace (- ez) with (- ep + (ep - ez)) by lia.
        rewrite Z.pow_add_r by lia. nia. }
      cbn [cond_Zopp].
      set (M := A + cond_Zopp (bool_decide (c2 - c1 < 0)) P).
      assert (HM : Z.min c1 c2 * 2 ^ (- ez) <= M <= Z.max c1 c2 * 2 ^ (- ez)).
      { subst M. destruct (decide (c2 - c1 < 0)) as [Hneg|Hpos].
        - rewrite bool_decide_eq_true_2 by done. cbn [cond_Zopp].
          rewrite Z.min_r, Z.max_l by lia. nia.
        - rewrite bool_decide_eq_false_2 by done. cbn [cond_Zopp].
          rewrite Z.min_l, Z.max_r by lia. nia. }
      destruct M as [|pm|pm] eqn:HMeq.
      * exists 0. split; [done|]. nia.
      * cbn [binary_normalize].
        apply round_sum_between; lia.
      * nia.
Qed.

Lemma lerp_channel_between (c1 c2 : Z) (ratio : PyFloat.float) :
  0 <= c1 <= 255 -> 0 <= c2 <= 255 -> PyFloat.is_ratio ratio ->
  exists v, lerp_channel c1 c2 ratio = Ok v
            /\ Z.min c1 c2 <= v <= Z.max c1 c2.
Proof.
  intros Hc1 Hc2 Hr. unfold lerp_channel.
  destruct (of_int_small (c2 - c1)) as (d & -> & Hd); [lia|].
  destruct (of_int_small c1) as (a & -> & Ha); [lia|].
  cbn [rbind]. apply (add_to_int_between c1 c2); [done | done | done |].
  apply mul_within; [lia | done | done].
Qed.

End GradientBetween.

Section GradientEnds.
Import Generator.

Lemma lerp_channel_zero (c1 c2 : Z) :
  0 <= c1 <= 255 -> 0 <= c2 <= 255 ->
  lerp_channel c1 c2 (S754_zero false) = Ok c1.
Proof.
  intros Hc1 Hc2. unfold lerp_channel.
  destruct (of_int_small (c2 - c1)) as (d & -> & Hd); [lia|].
  destruct (of_int_small c1) as (a & -> & Ha); [lia|].
  cbn [rbind].
  assert (exists s, PyFloat.mul d (S754_zero false) = S754_zero s) as [s ->].
  { destruct d as [sd| | |sd md ed]; try done; cbn; eauto. }
  destruct a as [sa| | |sa ma ea]; try done.
  - destruct Ha as [-> ->]. by destruct s.
  - change (PyFloat.add (S754_finite sa ma ea) (S754_zero s))
      with (S754_finite sa ma ea).
    apply to_int_is_int; [lia | done].
Qed.

Lemma true_divide_zero (w : Z) :
  0 < w -> PyFloat.true_divide 0 w = Ok (S754_zero false).
Proof.
  intros Hw. unfold PyFloat.true_divide.
  rewrite bool_decide_eq_false_2 by lia.
  destruct w as [|pw|pw]; [lia| |lia]. reflexivity.
Qed.

(** X12: every channel of every pixel of a gradient lies between the
    corresponding channels of the two endpoint colours, whatever the
    rounding of the floating-point interpolation; in particular a gradient
    between two equal colours is uniform. *)
Theorem gradient_between_endpoints (width height : Z) (color1 color2 : rgb)
  (direction : string) (img : image) (x y : Z) :
  create_gradient_image width height color1 color2 direction = Ok img ->
  byte_channels color1 -> byte_channels color2 ->
  0 <= x < width -> 0 <= y < height ->
  exists r g b,
    getpixel img x y = Ok (r, g, b)
    /\ Z.min color1.1.1 color2.1.1 <= r <= Z.max color1.1.1 color2.1.1
    /\ Z.min color1.1.2 color2.1.2 <= g <= Z.max color1.1.2 color2.1.2
    /\ Z.min color1.2 color2.2 <= b <= Z.max color1.2 color2.2.
Proof.
  intros Hrun H1 H2 Hx Hy.
  rewrite <- (create_gradient_image_cell _ _ _ _ _ _ x y Hrun Hx Hy).
  destruct color1 as [[r1 g1] b1], color2 as [[r2 g2] b2].
  destruct H1 as (Hr1 & Hg1 & Hb1), H2 as (Hr2 & Hg2 & Hb2).
  destruct (gradient_ratio_ok width height direction x y Hx Hy)
    as (ratio & Hratio & Hunit).
  destruct (lerp_channel_between r1 r2 ratio Hr1 Hr2 Hunit) as (r & Hr & Hrr).
  destruct (lerp_channel_between g1 g2 ratio Hg1 Hg2 Hunit) as (g & Hg & Hgr).
  destruct (lerp_channel_between b1 b2 ratio Hb1 Hb2 Hunit) as (b & Hb & Hbr).
  exists r, g, b. cbn [fst snd]. split; [|done].
  unfold gradient_pixel. rewrite Hratio. cbn [rbind].
  rewrite Hr. cbn [rbind]. rewrite Hg. cbn [rbind]. by rewrite Hb.
Qed.

Lemma gradient_between_endpoints_witness :
  exists img r g b,
    create_gradient_image 4 3 (255, 140, 0) (75, 0, 130) "horizontal" = Ok img
    /\ getpixel img 3 1 = Ok (r, g, b)
    /\ 75 <= r <= 255 /\ 0 <= g <= 140 /\ 0 <= b <= 130.
Proof.
  destruct (create_gradient_image_cells 4 3 (255, 140, 0) (75, 0, 130)
              "horizontal") as (img & Hrun & _); [lia | lia | cbn; lia .. |].
  destruct (gradient_between_endpoints 4 3 (255, 140, 0) (75, 0, 130)
              "horizontal" img 3 1 Hrun) as (r & g & b & Hget & Hr & Hg & Hb);
    [cbn; lia | cbn; lia | lia | lia |].
  exists img, r, g, b. cbn in Hr, Hg, Hb.
  split; [exact Hrun|]. split; [exact Hget|]. lia.
Defined.

(** X13: a gradient starts at its first colour exactly: the first column
    of a horizontal gradient, and the first row of any other, hold
    [color1]. *)
Theorem gradient_starts_at_color1 (width height : Z) (color1 color2 : rgb)
  (direction : string) (img : image) (x y : Z) :
  create_gradient_image width height color1 color2 direction = Ok img ->
  byte_channels color1 -> byte_channels color2 ->
  0 <= x < width -> 0 <= y < height ->
  (if bool_decide (direction = "horizontal") then x = 0 else y = 0) ->
  getpixel img x y = Ok color1.
Proof.
  intros Hrun H1 H2 Hx Hy Hfirst.
  rewrite <- (create_gradient_image_cell _ _ _ _ _ _ x y Hrun Hx Hy).
  destruct color1 as [[r1 g1] b1], color2 as [[r2 g2] b2].
  destruct H1 as (Hr1 & Hg1 & Hb1), H2 as (Hr2 & Hg2 & Hb2).
  assert (Hratio : gradient_ratio width height direction x y
                   = Ok (S754_zero false)).
  { unfold gradient_ratio.
    destruct (bool_decide (direction = "horizontal")); subst;
      apply true_divide_zero; lia. }
  unfold gradient_pixel. rewrite Hratio. cbn [rbind].
  by rewrite !lerp_channel_zero.
Qed.

Lemma gradient_starts_at_color1_witness :
  exists img,
    create_gradient_image 320 200 (135, 206, 235) (25, 25, 112) "vertical"
    = Ok img
    /\ getpixel img 317 0 = Ok (135, 206, 235).
Proof.
  destruct (create_gradient_image_cells 320 200 (135, 206, 235) (25, 25, 112)
              "vertical") as (img & Hrun & _); [lia | lia | cbn; lia .. |].
  exists img. split; [exact Hrun|].
  apply (gradient_starts_at_color1 320 200 _ (25, 25, 112) "vertical" img
           317 0 Hrun); [cbn; lia | cbn; lia | lia | lia | reflexivity].
Defined.

End GradientEnds.

(** ** The conversion loop of convert_to_baseline.py *)

Section NormalizerLoop.
Import Normalizer.
Context (lib : imaging).

Lemma convert_one_missing (img_name : string) (w : world) :
  files w !! image_path img_name = None ->
  convert_one lib img_name w
  = (World (files w)
       (stdout w ++ ["Warning: " +:+ image_path img_name +:+ " not found"]),
     Ok tt).
Proof.
  intros Hnone. unfold convert_one, bind, path_exists, print.
  rewrite bool_decide_eq_false_2; [done|].
  rewrite Hnone. by intros [? ?].
Qed.

(** The three ways an iteration ends. *)
Lemma convert_one_cases (img_name : string) (w : world) :
  convert_one lib img_name w
  = (World (files w)
       (stdout w ++ ["Warning: " +:+ image_path img_name +:+ " not found"]),
     Ok tt)
  \/ (exists out,
        is_Some (files w !! image_path img_name)
        /\ convert_one lib img_name w
           = (World (<[image_path img_name := out]> (files w))
                (stdout w ++ ["Converting " +:+ img_name +:+ "..."]
                   ++ ["  ✓ Converted " +:+ img_name +:+ " to baseline JPEG"]),
              Ok tt))
  \/ (exists e fs,
        convert_one lib img_name w
        = (World fs (stdout w ++ ["Converting " +:+ img_name +:+ "..."]),
           Raise e)
        /\ (fs = files w
            \/ exists partial,
                 is_Some (files w !! image_path img_name)
                 /\ fs = <[image_path img_name := partial]> (files w))).
Proof.
  destruct (files w !! image_path img_name) as [data|] eqn:Hfile.
  - destruct (opened <~ Image_open lib data ;; to_rgb lib opened)
      as [img|e] eqn:Hdec.
    + destruct (Image_save_jpeg lib img convert_kwargs) as [out|e] eqn:Hsave.
      * right. left. exists out. split; [done|].
        by apply (convert_one_converted lib _ data _ img).
      * right. right. exists e. eexists.
        split; [by apply (convert_one_save_failed lib _ data img)|].
        destruct (Image_save_failed lib img convert_kwargs) as [partial|];
          [right | by left].
        exists partial. split; [eauto | done].
    + right. right. exists e, (files w).
      split; [by apply (convert_one_undecodable lib _ data) | by left].
  - left. by apply convert_one_missing.
Qed.

Lemma convert_one_same_paths (img_name : string) (w : world) (p : string) :
  is_Some (files (fst (convert_one lib img_name w)) !! p)
  <-> is_Some (files w !! p).
Proof.
  destruct (convert_one_cases img_name w)
    as [-> | [(out & Hsome & ->)
             | (e & fs & -> & [->|(partial & Hsome & ->)])]];
    cbn [fst files]; [done | | done |].
  - destruct (decide (p = image_path img_name)) as [->|Hne].
    + rewrite lookup_insert_eq. split; eauto.
    + by rewrite lookup_insert_ne.
  - destruct (decide (p = image_path img_name)) as [->|Hne].
    + rewrite lookup_insert_eq. split; eauto.
    + by rewrite lookup_insert_ne.
Qed.

Lemma convert_one_other (img_name : string) (w : world) (p : string) :
  p <> image_path img_name ->
  files (fst (convert_one lib img_name w)) !! p = files w !! p.
Proof.
  intros Hne.
  destruct (convert_one_cases img_name w)
    as [-> | [(out & Hsome & ->)
             | (e & fs & -> & [->|(partial & Hsome & ->)])]];
    cbn [fst files]; [done | | done |]; by rewrite lookup_insert_ne.
Qed.

Lemma convert_batch_cons (img_name : string) (batch : list string)
  (w : world) :
  convert_batch lib (img_name :: batch) w
  = match convert_one lib img_name w with
    | (w', Ok _) => convert_batch lib batch w'
    | (w', Raise e) => (w', Raise e)
    end.
Proof.
  unfold convert_batch. cbn [for_in]. unfold bind.
  by destruct (convert_one lib img_name w) as [w' [[]|e]].
Qed.

Lemma convert_batch_nil (w : world) :
  convert_batch lib [] w
  = (World (files w) (stdout w ++ [NL +:+ "All images converted successfully!"]),
     Ok tt).
Proof. reflexivity. Qed.

(** X14: the conversion loop touches no file outside its batch: a path
    that is not the path of a name in the batch keeps its content (or its
    absence), whatever the library does and also when the run ends with an
    exception. *)
Theorem convert_batch_frame (batch : list string) (w : world) (p : string) :
  p ∉ image_path <$> batch ->
  files (fst (convert_batch lib batch w)) !! p = files w !! p.
Proof.
  revert w. induction batch as [|img_name batch IH]; intros w Hp; [done|].
  rewrite fmap_cons, not_elem_of_cons in Hp. destruct Hp as [Hne Hp].
  rewrite convert_batch_cons.
  pose proof (convert_one_other img_name w p Hne) as Hone.
  destruct (convert_one lib img_name w) as [w' [[]|e]]; cbn [fst] in *.
  - by rewrite IH.
  - done.
Qed.

(** X15: the conversion loop neither creates nor removes a file: the
    paths of the store are the same after the run as before it, whatever
    the library does and however the run ends (a name whose file is missing
    is not created either). *)
Theorem convert_batch_same_paths (batch : list string) (w : world)
  (p : string) :
  is_Some (files (fst (convert_batch lib batch w)) !! p)
  <-> is_Some (files w !! p).
Proof.
  revert w. induction batch as [|img_name batch IH]; intros w; [done|].
  rewrite convert_batch_cons.
  pose proof (convert_one_same_paths img_name w p) as Hone.
  destruct (convert_one lib img_name w) as [w' [[]|e]]; cbn [fst] in *.
  - by rewrite IH.
  - done.
Qed.

(** X16: when none of the files of the batch exists, the run converts
    nothing, prints one warning per name, in order, and still ends with
    the line that reports success; the library is not called. *)
Theorem convert_batch_all_missing (batch : list string) (w : world) :
  (forall img_name, img_name ∈ batch ->
     files w !! image_path img_name = None) ->
  convert_batch lib batch w
  = (World (files w)
       (stdout w
          ++ ((fun img_name =>
                 "Warning: " +:+ image_path img_name +:+ " not found")
                <$> batch)
          ++ [NL +:+ "All images converted successfully!"]),
     Ok tt).
Proof.
  revert w. induction batch as [|img_name batch IH]; intros w Hmissing.
  - apply convert_batch_nil.
  - rewrite convert_batch_cons, convert_one_missing
      by (apply Hmissing; left).
    rewrite IH by (intros n Hn; apply Hmissing; by right).
    cbn [files stdout fmap list_fmap]. by rewrite <- app_assoc.
Qed.

(** X17: the last line printed tells how the run ended: after a run
    without exception it is the line that reports success (also when
    every file was missing), and after a run that raised it is the
    [Converting <name>...] line of the name on which the library failed. *)
Theorem convert_batch_last_line (batch : list string) (w : world) :
  match snd (convert_batch lib batch w) with
  | Ok _ =>
      last (stdout (fst (convert_batch lib batch w)))
      = Some (NL +:+ "All images converted successfully!")
  | Raise _ =>
      exists img_name,
        img_name ∈ batch
        /\ last (stdout (fst (convert_batch lib batch w)))
           = Some ("Converting " +:+ img_name +:+ "...")
  end.
Proof.
  revert w. induction batch as [|img_name batch IH]; intros w.
  - rewrite convert_batch_nil. cbn [fst snd stdout]. by rewrite last_snoc.
  - rewrite convert_batch_cons.
    destruct (convert_one_cases img_name w)
      as [-> | [(out & Hsome & ->) | (e & fs & -> & _)]].
    + specialize (IH (World (files w)
        (stdout w ++ ["Warning: " +:+ image_path img_name +:+ " not found"]))).
      destruct (snd (convert_batch lib batch _)); [done|].
      destruct IH as (n & Hn & Hlast). exists n. split; [by right | done].
    + specialize (IH (World (<[image_path img_name := out]> (files w))
        (stdout w ++ ["Converting " +:+ img_name +:+ "..."]
           ++ ["  ✓ Converted " +:+ img_name +:+ " to baseline JPEG"]))).
      destruct (snd (convert_batch lib batch _)); [done|].
      destruct IH as (n & Hn & Hlast). exists n. split; [by right | done].
    + cbn [fst snd stdout]. exists img_name. split; [by left|].
      by rewrite last_snoc.
Qed.

End NormalizerLoop.

Section NormalizerLoopExamples.
Import Normalizer.

Lemma convert_batch_frame_witness :
  let w := World {[ "bootstrap_images/a.jpg" := [x01; x02]%byte;
                    "bootstrap_images/b.jpg" := [];
                    "notes.txt" := [x68; x69]%byte ]} [] in
  files (fst (convert_batch example_imaging ["a.jpg"; "b.jpg"] w))
    !! "notes.txt" = Some [x68; x69]%byte.
Proof.
  intros w.
  assert (Hp : "notes.txt" ∉ image_path <$> ["a.jpg"; "b.jpg"]).
  { intros Hin. apply list_elem_of_In in Hin. cbn in Hin.
    destruct Hin as [H|[H|[]]]; vm_compute in H; discriminate. }
  rewrite (convert_batch_frame example_imaging ["a.jpg"; "b.jpg"] w
             "notes.txt" Hp).
  vm_compute. reflexivity.
Defined.

Lemma convert_batch_all_missing_witness :
  let w := World {[ "notes.txt" := [x68; x69]%byte ]} [] in
  convert_batch example_imaging ["a.jpg"; "b.jpg"] w
  = (World (files w)
       ["Warning: bootstrap_images/a.jpg not found";
        "Warning: bootstrap_images/b.jpg not found";
        NL +:+ "All images converted successfully!"],
     Ok tt).
Proof.
  intros w.
  rewrite (convert_batch_all_missing example_imaging ["a.jpg"; "b.jpg"] w).
  - reflexivity.
  - intros n Hn. apply list_elem_of_In in Hn. cbn in Hn.
    destruct Hn as [<-|[<-|[]]]; vm_compute; reflexivity.
Defined.

End NormalizerLoopExamples.

(** ** The raster files of create_simple_jpegs.py *)

Section PpmPixels.
Import Ppm PpmFacts.

Lemma for_each_extend {A B} (l : list A)
  (body : A -> list B -> result (list B)) (f : A -> list B) (s : list B) :
  (forall a, a ∈ l -> forall s', body a s' = Ok (s' ++ f a)) ->
  for_each l body s = Ok (s ++ mjoin (f <$> l)).
Proof.
  revert s. induction l as [|a l IH]; intros s Hbody.
  - cbn. by rewrite app_nil_r.
  - cbn [for_each]. rewrite Hbody by left. cbn [rbind].
    rewrite IH by (intros a' Ha'; apply Hbody; by right).
    rewrite fmap_cons. cbn [mjoin list_join]. by rewrite app_assoc.
Qed.

Lemma pixel_values_ok (width height r g b x y : Z) :
  width <> 0 -> height <> 0 ->
  pixel_values width height r g b x y = Ok (pixel width height r g b x y).
Proof.
  intros Hw Hh. unfold pixel_values, py_floordiv.
  by rewrite !bool_decide_eq_false_2 by done.
Qed.

(** The loops never divide by zero: they build the rows in order. *)
Lemma raw_pixels_raster (width height r g b : Z) :
  raw_pixels width height r g b = Ok (raster width height r g b).
Proof.
  unfold raw_pixels, raster.
  rewrite (for_each_extend _ _
             (fun y => mjoin ((fun x => pixel width height r g b x y)
                                <$> range width))); [done|].
  intros y Hy%range_elem s.
  apply for_each_extend. intros x Hx%range_elem s'.
  rewrite pixel_values_ok by lia. done.
Qed.

Lemma length_join_same {A} (n : nat) (ls : list (list A)) :
  Forall (fun l => length l = n) ls ->
  length (mjoin ls) = (length ls * n)%nat.
Proof.
  intros Hall. rewrite length_join, (sum_list_fmap_same n) by done. done.
Qed.

Lemma raster_rows (width height r g b : Z) :
  Forall (fun l : list Z => length l = (Z.to_nat width * 3)%nat)
    ((fun y => mjoin ((fun x => pixel width height r g b x y)
                        <$> range width)) <$> range height).
Proof.
  apply Forall_fmap, Forall_forall. intros y _. cbn.
  rewrite (length_join_same 3).
  - rewrite length_fmap. unfold range. by rewrite length_seqZ.
  - apply Forall_fmap, Forall_forall. done.
Qed.

Lemma length_raster (width height r g b : Z) :
  length (raster width height r g b)
  = (3 * Z.to_nat width * Z.to_nat height)%nat.
Proof.
  unfold raster.
  rewrite (length_join_same _ _ (raster_rows width height r g b)).
  rewrite length_fmap. unfold range. rewrite length_seqZ. lia.
Qed.

Lemma lookup_take_drop {A} (l : list A) (n k : nat) :
  (k < 3)%nat -> take 3 (drop n l) !! k = l !! (n + k)%nat.
Proof. intros Hk. by rewrite lookup_take_lt, lookup_drop by done. Qed.

Lemma raster_pixel_at (width height r g b x y : Z) :
  0 <= x < width -> 0 <= y < height ->
  pixel_at (raster width height r g b) width x y
  = pixel width height r g b x y.
Proof.
  intros Hx Hy. unfold pixel_at.
  assert (Hlook : forall k c,
            pixel width height r g b x y !! k = Some c ->
            raster width height r g b
              !! (Z.to_nat (3 * (y * width + x)) + k)%nat = Some c).
  { intros k c Hc.
    assert (Hk : (k < 3)%nat) by (apply lookup_lt_Some in Hc; cbn in Hc; lia).
    replace (Z.to_nat (3 * (y * width + x)) + k)%nat
      with (Z.to_nat y * (Z.to_nat width * 3) + (Z.to_nat x * 3 + k))%nat
      by nia.
    apply (join_lookup_Some_same_length' _ _ _ _ _
             (raster_rows width height r g b)); [nia|].
    eexists. split.
    - rewrite list_lookup_fmap. unfold range.
      rewrite lookup_seqZ_lt by lia. cbn.
      by replace (0 + Z.of_nat (Z.to_nat y)) with y by lia.
    - apply (join_lookup_Some_same_length' 3); [|done|].
      + apply Forall_fmap, Forall_forall. done.
      + eexists. split; [|exact Hc].
        rewrite list_lookup_fmap. unfold range.
        rewrite lookup_seqZ_lt by lia. cbn.
        by replace (0 + Z.of_nat (Z.to_nat x)) with x by lia. }
  apply list_eq. intros k.
  destruct (decide (k < 3)%nat) as [Hk|Hk].
  - rewrite lookup_take_drop by done.
    destruct k as [|[|[|k]]]; [by apply Hlook .. | lia].
  - rewrite lookup_take_ge by lia.
    symmetry. apply lookup_ge_None_2. cbn. lia.
Qed.

(** X18: the two loops of [create_minimal_jpeg] never raise (the
    divisions by [width] and [height] are only reached when both are
    positive).  They yield three values per pixel, row by row: the pixel
    [(x, y)] has red [min(255, r + x*50 // width)], green
    [min(255, g + y*50 // height)] and blue [b]; a non-positive width or
    height gives no value at all. *)
Theorem raw_pixels_layout (width height r g b : Z) :
  exists pixels,
    raw_pixels width height r g b = Ok pixels
    /\ length pixels = (3 * Z.to_nat width * Z.to_nat height)%nat
    /\ forall x y, 0 <= x < width -> 0 <= y < height ->
         pixel_at pixels width x y
         = [Z.min 255 (r + x * 50 / width);
            Z.min 255 (g + y * 50 / height); b].
Proof.
  exists (raster width height r g b).
  split; [apply raw_pixels_raster|]. split; [apply length_raster|].
  intros x y Hx Hy. by apply raster_pixel_at.
Qed.

(** X19: in the values the loops yield, red does not depend on the row
    and green does not depend on the column; red does not decrease from
    left to right and stays between [min(255, r)] and [min(255, r + 49)]
    (green likewise from top to bottom), and blue is [b] everywhere. *)
Theorem raw_pixels_ramp (width height r g b : Z) (pixels : list Z)
  (x y x' y' : Z) :
  raw_pixels width height r g b = Ok pixels ->
  0 <= x <= x' -> x' < width -> 0 <= y <= y' -> y' < height ->
  exists red green red' green',
    pixel_at pixels width x y = [red; green; b]
    /\ pixel_at pixels width x' y = [red'; green; b]
    /\ pixel_at pixels width x y' = [red; green'; b]
    /\ Z.min 255 r <= red /\ red <= red' /\ red' <= Z.min 255 (r + 49)
    /\ Z.min 255 g <= green /\ green <= green' /\ green' <= Z.min 255 (g + 49).
Proof.
  intros Hrun Hx Hx' Hy Hy'.
  rewrite raw_pixels_raster in Hrun. injection Hrun as <-.
  rewrite !raster_pixel_at by lia. unfold pixel.
  do 4 eexists. split; [reflexivity|]. split; [reflexivity|].
  split; [reflexivity|].
  assert (0 <= x * 50 / width) by (apply Z.div_pos; lia).
  assert (x * 50 / width <= x' * 50 / width)
    by (apply Z.div_le_mono; lia).
  assert (x' * 50 / width <= 49)
    by (apply Z.lt_succ_r, Z.div_lt_upper_bound; lia).
  assert (0 <= y * 50 / height) by (apply Z.div_pos; lia).
  assert (y * 50 / height <= y' * 50 / height)
    by (apply Z.div_le_mono; lia).
  assert (y' * 50 / height <= 49)
    by (apply Z.lt_succ_r, Z.div_lt_upper_bound; lia).
  lia.
Qed.

Lemma raw_pixels_ramp_witness :
  exists pixels red green red' green',
    raw_pixels 4 2 230 150 200 = Ok pixels
    /\ pixel_at pixels 4 1 0 = [red; green; 200]
    /\ pixel_at pixels 4 3 0 = [red'; green; 200]
    /\ pixel_at pixels 4 1 1 = [red; green'; 200]
    /\ 230 <= red <= red' /\ red' <= 255.
Proof.
  pose proof (raw_pixels_raster 4 2 230 150 200) as Hrun.
  destruct (raw_pixels_ramp 4 2 230 150 200 _ 1 0 3 1 Hrun)
    as (red & green & red' & green' & H1 & H2 & H3 & Hr1 & Hr2 & Hr3 & _);
    [lia | lia | lia | lia |].
  exists (raster 4 2 230 150 200), red, green, red', green'.
  split; [exact Hrun|]. split; [exact H1|]. split; [exact H2|].
  split; [exact H3|]. lia.
Defined.

End PpmPixels.
Section PpmFiles.
Import Ppm PpmFacts.

Lemma bytes_of_ok (values : list Z) :
  Forall (fun v => 0 <= v <= 255) values ->
  exists body, bytes_of values = Ok body /\ byte_value <$> body = values.
Proof.
  induction 1 as [|v vs Hv _ (body & Hbody & Hvalues)].
  - by exists [].
  - cbn [bytes_of]. rewrite bool_decide_eq_true_2 by lia.
    destruct (Byte.of_N (Z.to_N v)) as [c|] eqn:Hc.
    + rewrite Hbody. cbn [rbind]. exists (c :: body). split; [done|].
      rewrite fmap_cons, Hvalues. unfold byte_value.
      rewrite (Byte.to_of_N _ Hc). f_equal. lia.
    + apply Byte.of_N_None_iff in Hc. lia.
Qed.

Lemma bytes_of_bad (values : list Z) :
  Exists (fun v => ~ 0 <= v <= 255) values ->
  bytes_of values = Raise ValueError.
Proof.
  induction 1 as [v vs Hv|v vs _ IH]; cbn [bytes_of].
  - by rewrite bool_decide_eq_false_2 by lia.
  - destruct (bool_decide (0 <= v < 256)); [|done].
    destruct (Byte.of_N (Z.to_N v)); [|done]. by rewrite IH.
Qed.

Lemma raster_in_range (width height r g b : Z) :
  width <= 0 \/ height <= 0 \/ (0 <= r /\ 0 <= g /\ 0 <= b <= 255) ->
  Forall (fun v => 0 <= v <= 255) (raster width height r g b).
Proof.
  intros Hcase. apply Forall_forall. intros v Hv.
  apply list_elem_of_join in Hv as (row & Hv & Hrow).
  apply list_elem_of_fmap in Hrow as (y & -> & Hy%range_elem).
  apply list_elem_of_join in Hv as (px & Hv & Hpx).
  apply list_elem_of_fmap in Hpx as (x & -> & Hx%range_elem).
  destruct Hcase as [Hw|[Hh|(Hr & Hg & Hb)]]; [lia | lia |].
  assert (0 <= x * 50 / width) by (apply Z.div_pos; lia).
  assert (0 <= y * 50 / height) by (apply Z.div_pos; lia).
  unfold pixel in Hv. apply list_elem_of_In in Hv. cbn in Hv.
  destruct Hv as [<-|[<-|[<-|[]]]]; lia.
Qed.

Lemma raster_first (width height r g b : Z) :
  0 < width -> 0 < height ->
  exists rest,
    raster width height r g b = Z.min 255 r :: Z.min 255 g :: b :: rest.
Proof.
  intros Hw Hh. unfold raster.
  rewrite (range_cons height), (range_cons width) by done.
  rewrite fmap_cons. cbn [mjoin list_join].
  rewrite fmap_cons. cbn [mjoin list_join]. unfold pixel at 1.
  cbn [app]. rewrite !Z.mul_0_l, !Z.div_0_l, !Z.add_0_r by lia. eauto.
Qed.

(** What a call leaves behind, by the outcome of [bytes(pixels)]. *)
Lemma create_minimal_jpeg_run (width height r g b : Z) (filename : string)
  (w : world) :
  create_minimal_jpeg width height r g b filename w
  = match bytes_of (raster width height r g b) with
    | Ok body =>
        (World (<[replace_jpg filename :=
                    String.list_byte_of_string (ppm_header width height)
                      ++ body]> (files w))
           (stdout w
              ++ [created_line (replace_jpg filename) width height]),
         Ok (replace_jpg filename))
    | Raise e =>
        (World (<[replace_jpg filename :=
                    String.list_byte_of_string (ppm_header width height)]>
                  (files w))
           (stdout w),
         Raise e)
    end.
Proof.
  unfold create_minimal_jpeg, bind, Normalizer.lift.
  rewrite raw_pixels_raster.
  unfold write_file at 1. unfold append_file at 1.
  cbn [files stdout]. rewrite lookup_insert_eq, insert_insert_eq.
  cbn [default app].
  destruct (bytes_of (raster width height r g b)) as [body|e]; [|done].
  unfold append_file, print, ret.
  cbn [files stdout]. by rewrite lookup_insert_eq, insert_insert_eq.
Qed.

(** X20: with a colour whose channels are not negative and whose blue is
    at most 255, or with an image without pixels, the call succeeds: the
    file holds the PPM header followed by one byte per value the loops
    yield, in order, the line [Created ...] is printed, and the name of
    the file is returned. *)
Theorem create_minimal_jpeg_writes (width height r g b : Z)
  (filename : string) (w : world) :
  width <= 0 \/ height <= 0 \/ (0 <= r /\ 0 <= g /\ 0 <= b <= 255) ->
  exists pixels body,
    raw_pixels width height r g b = Ok pixels
    /\ byte_value <$> body = pixels
    /\ create_minimal_jpeg width height r g b filename w
       = (World (<[replace_jpg filename :=
                     String.list_byte_of_string (ppm_header width height)
                       ++ body]> (files w))
            (stdout w
               ++ [created_line (replace_jpg filename) width height]),
          Ok (replace_jpg filename)).
Proof.
  intros Hcase.
  destruct (bytes_of_ok _ (raster_in_range width height r g b Hcase))
    as (body & Hbody & Hvalues).
  exists (raster width height r g b), body.
  split; [apply raw_pixels_raster|]. split; [done|].
  by rewrite create_minimal_jpeg_run, Hbody.
Qed.

Lemma create_minimal_jpeg_writes_witness :
  exists body,
    byte_value <$> body = [100; 150; 200; 125; 150; 200]
    /\ create_minimal_jpeg 2 1 100 150 200 "img/a.jpg" (World ∅ [])
       = (World {[ "img/a.ppm" :=
                     String.list_byte_of_string
                       ("P6" +:+ NL +:+ "2 1" +:+ NL +:+ "255" +:+ NL)
                       ++ body ]}
            ["Created img/a.ppm (2x1)"],
          Ok "img/a.ppm").
Proof.
  destruct (create_minimal_jpeg_writes 2 1 100 150 200 "img/a.jpg"
              (World ∅ [])) as (pixels & body & Hpixels & Hbody & Hrun);
    [lia|].
  exists body. split.
  - rewrite Hbody. vm_compute in Hpixels. by injection Hpixels as <-.
  - rewrite Hrun. reflexivity.
Defined.

(** X21: with at least one pixel and a colour whose red or green is
    negative or whose blue is outside 0..255, the call raises
    [ValueError] after the header was written: the file is left holding
    the header alone, and nothing is printed. *)
Theorem create_minimal_jpeg_bad_colour (width height r g b : Z)
  (filename : string) (w : world) :
  0 < width -> 0 < height ->
  r < 0 \/ g < 0 \/ b < 0 \/ 255 < b ->
  create_minimal_jpeg width height r g b filename w
  = (World (<[replace_jpg filename :=
                String.list_byte_of_string (ppm_header width height)]>
              (files w))
       (stdout w),
     Raise ValueError).
Proof.
  intros Hw Hh Hbad. rewrite create_minimal_jpeg_run.
  destruct (raster_first width height r g b Hw Hh) as [rest Hfirst].
  rewrite bytes_of_bad; [done|]. rewrite Hfirst.
  destruct Hbad as [Hr|[Hg|Hb]].
  - apply Exists_cons_hd. lia.
  - apply Exists_cons_tl, Exists_cons_hd. lia.
  - apply Exists_cons_tl, Exists_cons_tl, Exists_cons_hd. lia.
Qed.

Lemma create_minimal_jpeg_bad_colour_witness :
  create_minimal_jpeg 320 240 100 150 256 "a.jpg" (World ∅ ["start"])
  = (World {[ "a.ppm" :=
                String.list_byte_of_string
                  ("P6" +:+ NL +:+ "320 240" +:+ NL +:+ "255" +:+ NL) ]}
       ["start"],
     Raise ValueError).
Proof.
  rewrite (create_minimal_jpeg_bad_colour 320 240 100 150 256 "a.jpg"
             (World ∅ ["start"])) by lia.
  reflexivity.
Defined.

End PpmFiles.
Section PpmNames.
Import Ppm PpmFacts.

Lemma replace_jpg_cons (c : ascii) (t : string) :
  replace_jpg (String c t)
  = if starts_jpg (String c t)
    then match t with
         | String _ (String _ (String _ rest)) => ".ppm" +:+ replace_jpg rest
         | _ => ""
         end
    else String c (replace_jpg t).
Proof.
  by destruct t as [|c2 [|c3 [|c4 rest]]].
Qed.

Lemma is_dot_jpg_chars (c1 c2 c3 c4 : ascii) :
  is_dot_jpg c1 c2 c3 c4 = true ->
  c1 = "."%char /\ c2 = "j"%char /\ c3 = "p"%char /\ c4 = "g"%char.
Proof.
  unfold is_dot_jpg. rewrite !andb_true_iff, !Ascii.eqb_eq. tauto.
Qed.

Lemma starts_jpg_inv (s : string) :
  starts_jpg s = true ->
  exists rest, s = String "." (String "j" (String "p" (String "g" rest))).
Proof.
  destruct s as [|c1 [|c2 [|c3 [|c4 rest]]]]; try done.
  cbn [starts_jpg]. intros (-> & -> & -> & ->)%is_dot_jpg_chars.
  by exists rest.
Qed.

(** The first character of the text stays. *)
Lemma replace_jpg_head (c : ascii) (t : string) :
  exists t', replace_jpg (String c t) = String c t'.
Proof.
  rewrite replace_jpg_cons.
  destruct (starts_jpg (String c t)) eqn:Hs; [|eauto].
  apply starts_jpg_inv in Hs as [rest Hs].
  injection Hs as -> ->. eauto.
Qed.

(** A character of the result other than the dot was copied. *)
Lemma replace_jpg_copied (s : string) (c : ascii) (u : string) :
  replace_jpg s = String c u -> c <> "."%char ->
  exists t, s = String c t /\ u = replace_jpg t.
Proof.
  intros Hs Hc. destruct s as [|c' t]; [done|].
  rewrite replace_jpg_cons in Hs.
  destruct (starts_jpg (String c' t)) eqn:Hstart.
  - apply starts_jpg_inv in Hstart as [rest Hstart].
    injection Hstart as -> ->. by injection Hs as <- _.
  - injection Hs as -> <-. eauto.
Qed.

Lemma starts_jpg_replace (s : string) : starts_jpg (replace_jpg s) = false.
Proof.
  destruct s as [|c t]; [done|].
  rewrite replace_jpg_cons.
  destruct (starts_jpg (String c t)) eqn:Hstart.
  - destruct (starts_jpg_inv _ Hstart) as [rest Heq].
    by injection Heq as -> ->.
  - destruct (starts_jpg (String c (replace_jpg t))) eqn:Hnew; [|done].
    apply starts_jpg_inv in Hnew as [rest Hnew].
    injection Hnew as -> Hnew.
    apply replace_jpg_copied in Hnew as (t2 & -> & Hnew); [|done].
    symmetry in Hnew.
    apply replace_jpg_copied in Hnew as (t3 & -> & Hnew); [|done].
    symmetry in Hnew.
    apply replace_jpg_copied in Hnew as (t4 & -> & Hnew); [|done].
    done.
Qed.

Lemma occurs_jpg_replace_upto (n : nat) (s : string) :
  (String.length s <= n)%nat -> occurs_jpg (replace_jpg s) = false.
Proof.
  revert s. induction n as [|n IH]; intros s Hlen.
  - destruct s; [done | cbn in Hlen; lia].
  - destruct s as [|c t]; [done|].
    pose proof (starts_jpg_replace (String c t)) as Hhead.
    rewrite replace_jpg_cons in *.
    destruct (starts_jpg (String c t)) eqn:Hstart.
    + destruct (starts_jpg_inv _ Hstart) as [rest Heq].
      injection Heq as -> ->.
      change (".ppm" +:+ replace_jpg rest)
        with (String "." (String "p" (String "p"
                (String "m" (replace_jpg rest))))).
      cbn [occurs_jpg]. rewrite IH by (cbn in Hlen; lia).
      by destruct (replace_jpg rest) as [|? [|? [|? ?]]].
    + cbn [occurs_jpg]. rewrite Hhead, IH by (cbn in Hlen; lia). done.
Qed.

Lemma occurs_jpg_replace (s : string) : occurs_jpg (replace_jpg s) = false.
Proof. by apply (occurs_jpg_replace_upto (String.length s)). Qed.

Lemma replace_jpg_without (s : string) :
  occurs_jpg s = false -> replace_jpg s = s.
Proof.
  induction s as [|c t IH]; [done|].
  cbn [occurs_jpg]. intros [Hstart Hrest]%orb_false_iff.
  by rewrite replace_jpg_cons, Hstart, IH.
Qed.

(** X22: whatever the arguments and however the call ends, it writes
    exactly one file, whose name does not contain [.jpg], and leaves
    every other path as it was: the script never produces a [.jpg]
    file. *)
Theorem create_minimal_jpeg_writes_no_jpg (width height r g b : Z)
  (filename : string) (w : world) :
  let after := fst (create_minimal_jpeg width height r g b filename w) in
  exists p,
    occurs_jpg p = false
    /\ is_Some (files after !! p)
    /\ forall q, q <> p -> files after !! q = files w !! q.
Proof.
  intros after. exists (replace_jpg filename).
  split; [apply occurs_jpg_replace|].
  subst after. rewrite create_minimal_jpeg_run.
  destruct (bytes_of (raster width height r g b)); cbn [fst files].
  - split; [rewrite lookup_insert_eq; eauto|].
    intros q Hq. by rewrite lookup_insert_ne.
  - split; [rewrite lookup_insert_eq; eauto|].
    intros q Hq. by rewrite lookup_insert_ne.
Qed.

(** X23: when [.jpg] does not occur in [filename], the output name is
    [filename] itself, so the call writes over the named file: when it
    returns, it returns [filename] and the file holds the header followed
    by one byte per value of the loops; when it raises, the file holds the
    header alone. *)
Theorem create_minimal_jpeg_overwrites (width height r g b : Z)
  (filename : string) (w : world) :
  occurs_jpg filename = false ->
  let run := create_minimal_jpeg width height r g b filename w in
  exists pixels,
    raw_pixels width height r g b = Ok pixels
    /\ match snd run with
       | Ok name =>
           name = filename
           /\ exists body,
                byte_value <$> body = pixels
                /\ files (fst run) !! filename
                   = Some (String.list_byte_of_string
                             (ppm_header width height) ++ body)
       | Raise _ =>
           files (fst run) !! filename
           = Some (String.list_byte_of_string (ppm_header width height))
       end.
Proof.
  intros Hname run. subst run.
  exists (raster width height r g b). split; [apply raw_pixels_raster|].
  rewrite create_minimal_jpeg_run, (replace_jpg_without _ Hname).
  destruct (bytes_of (raster width height r g b)) as [body|e] eqn:Hbody;
    cbn [fst snd files]; rewrite lookup_insert_eq; [|done].
  split; [done|]. exists body. split; [|done].
  clear -Hbody. revert body Hbody.
  induction (raster width height r g b) as [|v vs IH]; intros body Hbody.
  - by injection Hbody as <-.
  - cbn [bytes_of] in Hbody. case_bool_decide as Hv; [|done].
    destruct (Byte.of_N (Z.to_N v)) as [c|] eqn:Hc; [|done].
    destruct (bytes_of vs) as [bs|] eqn:Hbs; [|done].
    cbn [rbind] in Hbody. injection Hbody as <-.
    rewrite fmap_cons, (IH bs eq_refl). unfold byte_value.
    rewrite (Byte.to_of_N _ Hc). f_equal. lia.
Qed.

Lemma create_minimal_jpeg_overwrites_witness :
  let run := create_minimal_jpeg 1 1 9 9 9 "photo.JPG"
               (World {[ "photo.JPG" := [xff; xd8]%byte ]} []) in
  snd run = Ok "photo.JPG"
  /\ exists body,
       byte_value <$> body = [9; 9; 9]
       /\ files (fst run) !! "photo.JPG"
          = Some (String.list_byte_of_string
                    ("P6" +:+ NL +:+ "1 1" +:+ NL +:+ "255" +:+ NL) ++ body).
Proof.
  intros run.
  assert (Hs : snd run = Ok "photo.JPG") by (vm_compute; reflexivity).
  split; [exact Hs|].
  destruct (create_minimal_jpeg_overwrites 1 1 9 9 9 "photo.JPG"
              (World {[ "photo.JPG" := [xff; xd8]%byte ]} []) eq_refl)
    as (pixels & Hpixels & Hrun).
  fold run in Hrun. rewrite Hs in Hrun.
  destruct Hrun as (_ & body & Hbody & Hfile).
  vm_compute in Hpixels. injection Hpixels as <-.
  exists body. split; [exact Hbody | exact Hfile].
Defined.

End PpmNames.
Section PpmScript.
Import Ppm PpmFacts.

Lemma create_minimal_jpeg_ok (width height r g b : Z) (filename : string)
  (w : world) :
  width <= 0 \/ height <= 0 \/ (0 <= r /\ 0 <= g /\ 0 <= b <= 255) ->
  create_minimal_jpeg width height r g b filename w
  = (World (<[replace_jpg filename :=
                String.list_byte_of_string (ppm_header width height)
                  ++ raster_bytes width height r g b]> (files w))
       (stdout w ++ [created_line (replace_jpg filename) width height]),
     Ok (replace_jpg filename)).
Proof.
  intros Hcase.
  destruct (bytes_of_ok _ (raster_in_range width height r g b Hcase))
    as (body & Hbody & _).
  rewrite create_minimal_jpeg_run. unfold raster_bytes. by rewrite Hbody.
Qed.

Lemma length_raster_bytes (width height r g b : Z) :
  width <= 0 \/ height <= 0 \/ (0 <= r /\ 0 <= g /\ 0 <= b <= 255) ->
  length (raster_bytes width height r g b)
  = (3 * Z.to_nat width * Z.to_nat height)%nat.
Proof.
  intros Hcase.
  destruct (bytes_of_ok _ (raster_in_range width height r g b Hcase))
    as (body & Hbody & Hvalues).
  unfold raster_bytes. rewrite Hbody.
  by rewrite <- (length_fmap byte_value), Hvalues, length_raster.
Qed.

(** X24: the script as a whole, on any store: the four calls succeed and
    the closing note is printed after the four [Created ...] lines; each
    of the four [.ppm] files holds a 15-byte header and three bytes per
    pixel; no other path changes, so the [.jpg] files named in the calls
    are left as they were (or absent). *)
Theorem main_writes_rasters (w : world) :
  snd (main w) = Ok tt
  /\ stdout (fst (main w))
     = stdout w
         ++ ["Created bootstrap_images/landscape.ppm (320x240)";
             "Created bootstrap_images/portrait.ppm (240x320)";
             "Created bootstrap_images/square.ppm (200x200)";
             "Created bootstrap_images/wallpaper.ppm (400x300)";
             NL +:+ "Note: Created PPM files. Need to convert to JPEG or use "
                +:+ "different approach."]
  /\ (forall p width height, (p, width, height) ∈ rasters ->
        exists data,
          files (fst (main w)) !! p = Some data
          /\ Z.of_nat (length data) = 15 + 3 * width * height)
  /\ (forall q, q ∉ rasters.*1.*1 ->
        files (fst (main w)) !! q = files w !! q).
Proof.
  unfold main, bind.
  rewrite (create_minimal_jpeg_ok 320 240) by lia. cbv beta iota.
  rewrite (create_minimal_jpeg_ok 240 320) by lia. cbv beta iota.
  rewrite (create_minimal_jpeg_ok 200 200) by lia. cbv beta iota.
  rewrite (create_minimal_jpeg_ok 400 300) by lia. cbv beta iota.
  unfold print. cbn [fst snd files stdout].
  change (replace_jpg "bootstrap_images/landscape.jpg")
    with "bootstrap_images/landscape.ppm".
  change (replace_jpg "bootstrap_images/portrait.jpg")
    with "bootstrap_images/portrait.ppm".
  change (replace_jpg "bootstrap_images/square.jpg")
    with "bootstrap_images/square.ppm".
  change (replace_jpg "bootstrap_images/wallpaper.jpg")
    with "bootstrap_images/wallpaper.ppm".
  split; [done|]. split.
  { rewrite <- !app_assoc. done. }
  split.
  - intros p width height Hp. apply list_elem_of_In in Hp. cbn in Hp.
    destruct Hp as [Hp|[Hp|[Hp|[Hp|[]]]]]; injection Hp as <- <- <-.
    + rewrite !lookup_insert_ne by done. rewrite lookup_insert_eq.
      eexists. split; [reflexivity|].
      rewrite length_app, length_raster_bytes by lia.
      change (length (String.list_byte_of_string (ppm_header 320 240)))
        with 15%nat. lia.
    + rewrite !lookup_insert_ne by done. rewrite lookup_insert_eq.
      eexists. split; [reflexivity|].
      rewrite length_app, length_raster_bytes by lia.
      change (length (String.list_byte_of_string (ppm_header 240 320)))
        with 15%nat. lia.
    + rewrite !lookup_insert_ne by done. rewrite lookup_insert_eq.
      eexists. split; [reflexivity|].
      rewrite length_app, length_raster_bytes by lia.
      change (length (String.list_byte_of_string (ppm_header 200 200)))
        with 15%nat. lia.
    + rewrite lookup_insert_eq.
      eexists. split; [reflexivity|].
      rewrite length_app, length_raster_bytes by lia.
      change (length (String.list_byte_of_string (ppm_header 400 300)))
        with 15%nat. lia.
  - intros q Hq. cbn in Hq.
    rewrite !not_elem_of_cons in Hq. destruct Hq as (H1 & H2 & H3 & H4 & _).
    by rewrite !lookup_insert_ne by done.
Qed.

End PpmScript.

(** ** The size of a declaration *)

Section EmbedderSize.
Import Embedder EmbedderFacts.

Lemma length_string_app (a b : string) :
  String.length (a +:+ b) = (String.length a + String.length b)%nat.
Proof.
  induction a as [|c a IH]; [done|].
  rewrite string_app_cons. cbn [String.length]. by rewrite IH.
Qed.

Lemma length_list_byte_of_string (s : string) :
  length (String.list_byte_of_string s) = String.length s.
Proof.
  unfold String.list_byte_of_string. rewrite length_map.
  induction s as [|c s IH]; [done|]. cbn. by rewrite IH.
Qed.

Lemma length_written (ws : list string) :
  String.length (written ws) = sum_list (String.length <$> ws).
Proof.
  induction ws as [|s ws IH]; [done|].
  cbn [written fmap list_fmap sum_list sum_list_with].
  by rewrite length_string_app, IH.
Qed.

Lemma length_concat_items (chunk : list byte) :
  chunk <> [] ->
  String.length (String.concat ", " (format_byte <$> chunk))
  = (6 * length chunk - 2)%nat.
Proof.
  induction chunk as [|b chunk IH]; [done|]. intros _.
  destruct chunk as [|b' chunk]; [done|].
  change (String.concat ", " (format_byte <$> b :: b' :: chunk))
    with (format_byte b +:+ ", "
            +:+ String.concat ", " (format_byte <$> b' :: chunk)).
  rewrite !length_string_app, IH by done. cbn [length String.length format_byte].
  lia.
Qed.

Lemma length_row_text (chunk : list byte) :
  chunk <> [] -> String.length (row_text chunk) = (6 * length chunk + 4)%nat.
Proof.
  intros Hne. unfold row_text.
  rewrite !length_string_app, length_concat_items by done.
  assert (0 < length chunk)%nat by (destruct chunk; [done | cbn; lia]).
  cbn. lia.
Qed.

Lemma length_rows (data : list byte) :
  sum_list (String.length <$> rows_text data)
  = (6 * length data + 4 * ((length data + 15) / 16))%nat.
Proof.
  remember (length data) as n eqn:Hn.
  revert data Hn. induction (lt_wf n) as [n _ IH]. intros data ->.
  destruct (decide (data = [])) as [->|Hne]; [done|].
  rewrite rows_text_cons by done.
  cbn [fmap list_fmap sum_list sum_list_with].
  assert (Hpos : (0 < length data)%nat) by (destruct data; [done | cbn; lia]).
  rewrite length_row_text
    by (destruct data; [done | discriminate]).
  rewrite (IH (length (drop 16 data))) with (data := drop 16 data);
    [|rewrite length_drop; lia | done].
  rewrite length_take, length_drop. unfold id.
  destruct (decide (length data < 16)%nat) as [Hlt|Hge].
  - replace (length data - 16 + 15)%nat with 15%nat by lia.
    rewrite (Nat.div_small 15 16) by lia.
    replace (length data + 15)%nat with (1 * 16 + (length data - 1))%nat by lia.
    rewrite Nat.div_add_l, Nat.div_small by lia. lia.
  - replace (length data + 15)%nat
      with (1 * 16 + (length data - 16 + 15))%nat by lia.
    rewrite Nat.div_add_l by lia. lia.
Qed.

Lemma length_header_text (base var_name : string) (data : list byte) :
  String.length (header_text base var_name data)
  = (86 + String.length base + 2 * String.length var_name
     + String.length (str_of_nat (length data))
     + 6 * length data + 4 * ((length data + 15) / 16))%nat.
Proof.
  unfold header_text, header_writes.
  rewrite length_written, !fmap_app, !sum_list_with_app, length_rows.
  cbn [fmap list_fmap sum_list sum_list_with].
  unfold comment_line, array_open, array_close, len_line.
  rewrite !length_string_app. cbn. lia.
Qed.

(** X25: the size of a declaration file: for [n] input bytes it has
    [86 + len(base) + 2*len(var_name) + len(str(n)) + 6*n
     + 4*ceil(n/16)] bytes, where [base] is the base name of the input
    path: six characters per byte and four more per row of sixteen. *)
Theorem generate_header_size (input_file output_file var_name : string)
  (data : list byte) (w : world) :
  files w !! input_file = Some data ->
  exists out,
    files (fst (generate_header input_file output_file var_name w))
      !! output_file = Some out
    /\ length out
       = (86 + String.length (OsPath.basename input_file)
          + 2 * String.length var_name
          + String.length (str_of_nat (length data))
          + 6 * length data + 4 * ((length data + 15) / 16))%nat.
Proof.
  intros Hin. rewrite (generate_header_run _ _ _ _ _ Hin).
  cbn [fst files]. rewrite lookup_insert_eq. eexists. split; [done|].
  by rewrite length_list_byte_of_string, length_header_text.
Qed.

Lemma generate_header_size_witness :
  exists out,
    files (fst (generate_header "dir/a.jpg" "a.c" "a_jpg"
                  (World {[ "dir/a.jpg" := replicate 17 xff%byte ]} [])))
      !! "a.c" = Some out
    /\ length out = 213%nat.
Proof.
  apply (generate_header_size "dir/a.jpg" "a.c" "a_jpg"
           (replicate 17 xff%byte)
           (World {[ "dir/a.jpg" := replicate 17 xff%byte ]} [])).
  vm_compute. reflexivity.
Defined.

(** X26: when the input file is missing, [generate_header] raises
    [FileNotFoundError] before it opens the output: the output file is
    neither created nor emptied, and nothing is printed. *)
Theorem generate_header_missing_input
  (input_file output_file var_name : string) (w : world) :
  files w !! input_file = None ->
  generate_header input_file output_file var_name w
  = (w, Raise FileNotFoundError).
Proof.
  intros Hin. unfold generate_header, bind, read_file. by rewrite Hin.
Qed.

Lemma generate_header_missing_input_witness :
  let w := World {[ "a.c" := [x2f; x2a]%byte ]} ["start"] in
  generate_header "dir/a.jpg" "a.c" "a_jpg" w = (w, Raise FileNotFoundError).
Proof.
  intros w. apply (generate_header_missing_input "dir/a.jpg" "a.c" "a_jpg" w).
  vm_compute. reflexivity.
Defined.

End EmbedderSize.

Section SaveBaseline.
Import Normalizer.
Context (lib : imaging).

(** X27: [save_baseline_jpeg] touches no path but [filename]; when it
    returns, the file holds what the encoder produced for the image in
    mode RGB and the line printed last reports exactly its size; when the
    library raises, nothing is printed. *)
Theorem save_baseline_jpeg_outcome (img : pil_image lib) (filename : string)
  (w : world) :
  let run := save_baseline_jpeg lib img filename w in
  (forall q, q <> filename -> files (fst run) !! q = files w !! q)
  /\ match snd run with
     | Ok _ =>
         exists img' out,
           to_rgb lib img = Ok img'
           /\ Image_save_jpeg lib img' save_baseline_kwargs = Ok out
           /\ files (fst run) !! filename = Some out
           /\ stdout (fst run)
              = stdout w ++ ["Created " +:+ filename +:+ " ("
                               +:+ str_of_nat (length out) +:+ " bytes)"]
     | Raise _ => stdout (fst run) = stdout w
     end.
Proof.
  intros run. subst run.
  destruct (to_rgb lib img) as [img'|e] eqn:Hrgb.
  - destruct (Image_save_jpeg lib img' save_baseline_kwargs) as [out|e]
      eqn:Hsave.
    + rewrite (save_baseline_jpeg_run lib _ _ _ _ _ Hrgb Hsave).
      cbn [fst snd files stdout]. split.
      * intros q Hq. by rewrite lookup_insert_ne.
      * exists img', out. by rewrite lookup_insert_eq.
    + unfold save_baseline_jpeg, bind, lift, save_jpeg.
      rewrite Hrgb, Hsave. cbn [fst snd files stdout]. split; [|done].
      intros q Hq.
      destruct (Image_save_failed lib img' save_baseline_kwargs);
        [by rewrite lookup_insert_ne | done].
  - unfold save_baseline_jpeg, bind, lift. rewrite Hrgb. done.
Qed.

End SaveBaseline.
